(** * MADDA backend: gateway routing, service endpoints and the anchor core

    A shallow embedding of the Python sources of the spatial backend:

    - [Backend/api_gateway/telemetry/__init__.py]: the tracing decorators
      and the telemetry global;
    - [Backend/api_gateway/app.py]: the target-service classification and
      the route name of [route_api_request], and the handlers that use
      the telemetry global;
    - [Backend/cloud_anchor_service/main.py]: [lifespan], the [/health],
      [/healthz] and [/metrics] endpoints and the dependency getters;
    - [Backend/vps_engine/main.py]: [lifespan] and the endpoints;
    - [Backend/infrastructure/observability/metrics/meter_setup.py]:
      [setup_metrics];
    - [Backend/localization_service/api/routes.py]: the handlers of
      [setup_routes];
    - [Backend/mapping_pipeline/src/spatial_mapping/main.py]: the
      registration of the collectors and the endpoints;
    - the anchor core (anchor store, persistence engine, synchronization
      manager) that [cloud_anchor_service/main.py] imports from [core.*].
      Those modules are not part of the source tree at hand, so that part
      is modelled from the natural-language specification and marked so.

    Definitions come first, the theorems follow. *)

From Stdlib Require Import ZArith String Ascii List Bool Lia.
From Stdlib Require Import Floats.PrimFloat Floats.FloatOps Floats.SpecFloat.
From stdpp Require Import gmap strings list fin_maps sorting pretty.

Local Open Scope string_scope.

(* ===================================================================== *)
(** * Part I. Definitions                                                 *)
(* ===================================================================== *)

(** ** Python values and exceptions, as far as the modelled code sees them *)

(** An exception, that is an instance of [Exception], carries its message
    ([str(e)]). *)
Inductive Exn := Exception (msg : string).

(** The outcome of evaluating a Python block: it returns or it raises. *)
Inductive Outcome (A : Type) :=
| Returned (a : A)
| Raised (e : Exn).
Arguments Returned {A} a.
Arguments Raised {A} e.

(** ** api_gateway/telemetry/__init__.py: the tracing decorators *)

Module Telemetry.

(** The Python values a decorator call can receive. Function objects are
    drawn from a type [Fn] of the caller's; [VDecorator] is the closure
    [decorator] that both [trace_api_route] and [trace_backend_call]
    define in their body (it captures nothing). *)
Inductive value (Fn : Type) :=
| VNone
| VStr (s : string)
| VInt (z : Z)
| VFunc (f : Fn)
| VDecorator.
Arguments VNone {Fn}.
Arguments VStr {Fn} s.
Arguments VInt {Fn} z.
Arguments VFunc {Fn} f.
Arguments VDecorator {Fn}.

(** Python's [callable(v)]. *)
Definition callable {Fn} (v : value Fn) : bool :=
  match v with
  | VFunc _ | VDecorator => true
  | _ => false
  end.

(** [len(args) == 1 and callable(args[0])] *)
Definition called_with_function {Fn} (args : list (value Fn)) : bool :=
  match args with
  | [a] => callable a
  | _ => false
  end.

(** [trace_api_route] takes any positional and keyword arguments: with a single callable
    positional argument that argument is returned, otherwise the inner
    [decorator] is. The keyword arguments are never read. *)
Definition trace_api_route {Fn} (args : list (value Fn))
    (kwargs : list (string * value Fn)) : value Fn :=
  match args with
  | [a] => if callable a then a else VDecorator
  | _ => VDecorator
  end.

(** [trace_backend_call]: the same body. *)
Definition trace_backend_call {Fn} (args : list (value Fn))
    (kwargs : list (string * value Fn)) : value Fn :=
  match args with
  | [a] => if callable a then a else VDecorator
  | _ => VDecorator
  end.

(** Calling a value with one positional argument. The inner [decorator]
    is [def decorator(func): return func]; a function object of the
    caller's runs as [run] says; anything else is not callable
    (Python raises [TypeError]). *)
Definition call {Fn} (run : Fn -> value Fn -> Outcome (value Fn))
    (callee arg : value Fn) : Outcome (value Fn) :=
  match callee with
  | VDecorator => Returned arg
  | VFunc g => run g arg
  | _ => Raised (Exception "object is not callable")
  end.

(** [@d] above [def f]: the name [f] is bound to [d(f)]. *)
Definition decorate {Fn} (run : Fn -> value Fn -> Outcome (value Fn))
    (d : value Fn) (f : Fn) : Outcome (value Fn) :=
  call run d (VFunc f).

(** The decorator expression of [route_api_request] in app.py:
    [@trace_api_route("api_routing", "dynamic")]. *)
Definition gateway_route_decorator {Fn} : value Fn :=
  trace_api_route [VStr "api_routing"; VStr "dynamic"] [].

(** Two function objects to run the decorators on: a route handler, and
    [def drop_function(func): return None]. *)
Inductive sample_fn := route_handler | drop_function.

Definition run_sample (g : sample_fn) (arg : value sample_fn) :
    Outcome (value sample_fn) :=
  match g with
  | route_handler => Returned (VStr "response")
  | drop_function => Returned VNone
  end.

End Telemetry.

(** ** api_gateway/app.py: route_api_request *)

Module Gateway.

(** [s.startswith(p)] *)
Definition startswith (s p : string) : bool := String.prefix p s.

(** The value of the local [target_service] of [route_api_request] when
    the if/elif chain over [path] is done. *)
Definition target_service (path : string) : string :=
  if startswith path "localization" || startswith path "slam"
     || startswith path "vio" || startswith path "pose"
  then "localization"
  else if startswith path "maps" || startswith path "reconstruction"
  then "mapping"
  else if startswith path "multiplayer" || startswith path "auth"
  then "multiplayer"
  else if startswith path "vps"
  then "vps-engine"
  else if startswith path "anchors"
  then "cloud-anchors"
  else "unknown".

(** [full_path = f"/api/{path}"] *)
Definition full_path (path : string) : string := "/api/" ++ path.

(** The classification read as a table: the prefix groups in the order
    the chain tests them, each with the service it selects. *)
Definition routing_table : list (list string * string) :=
  [ (["localization"; "slam"; "vio"; "pose"], "localization");
    (["maps"; "reconstruction"], "mapping");
    (["multiplayer"; "auth"], "multiplayer");
    (["vps"], "vps-engine");
    (["anchors"], "cloud-anchors") ].

(** Some prefix of the group starts the path. *)
Definition group_matches (path : string) (prefixes : list string) : bool :=
  existsb (startswith path) prefixes.

(** First matching row of a table, [dflt] when none matches. *)
Fixpoint first_match (path : string) (table : list (list string * string))
    (dflt : string) : string :=
  match table with
  | [] => dflt
  | (prefixes, service) :: rest =>
      if group_matches path prefixes then service
      else first_match path rest dflt
  end.

(** The six services a request can be attributed to. *)
Definition services : list string :=
  ["localization"; "mapping"; "multiplayer"; "vps-engine"; "cloud-anchors"; "unknown"].

End Gateway.

(** ** cloud_anchor_service/main.py: [/health] and [/healthz] on the managers *)

Module CloudAnchorService.

(** The double quote, for the metric labels ([version="1.0.0"]). *)
Definition dq : string := String (ascii_of_nat 34) EmptyString.

(** The line feed of ["\n".join(...)]. *)
Definition nl : string := String (ascii_of_nat 10) EmptyString.

(** ["\n".join(lines)] *)
Fixpoint join_lines (lines : list string) : string :=
  match lines with
  | [] => EmptyString
  | [l] => l
  | l :: rest => l ++ nl ++ join_lines rest
  end.

(** What the endpoints read from their surroundings: the process
    environment ([os.getenv]), the text of [time.time()] and of
    [datetime.utcnow().isoformat()]. *)
Record Env := {
  getenv : string -> option string;
  time_time : string;
  utcnow_isoformat : string
}.

(** The JSON body of a health answer; a key the code leaves out is [None]. *)
Record HealthBody := {
  status : string;
  service : string;
  version : option string;
  endpoint : string;
  logging : option string;
  timestamp : option string;
  services : option (list (string * bool));
  error : option string
}.

(** A returned dict is served with status 200, a [JSONResponse] with the
    [status_code] it was built with. *)
Record Response := {
  status_code : nat;
  content : HealthBody
}.

Section Endpoints.

(** The classes [AnchorManager], [PersistenceEngine] and
    [SynchronizationManager] come from [core.*], which is not in the
    source tree. [/health] only calls [health_check()] on them: that
    method is taken as given, free to raise an [Exception] and to change
    the object it is called on, and here it answers [True] or [False].
    [CloudAnchorHandlers] has the handler call by call, with whatever the
    method returns and with what an [await] raises outside [Exception]. *)
Variables AnchorManager PersistenceEngine SynchronizationManager : Type.
Variable am_health_check : AnchorManager -> Outcome bool * AnchorManager.
Variable pe_health_check : PersistenceEngine -> Outcome bool * PersistenceEngine.
Variable sm_health_check :
  SynchronizationManager -> Outcome bool * SynchronizationManager.

(** The module globals [anchor_manager], [persistence_engine] and
    [sync_manager] ([None] until [lifespan] has set them), and what the
    module's [logger] has written. *)
Record World := {
  anchor_manager : option AnchorManager;
  persistence_engine : option PersistenceEngine;
  sync_manager : option SynchronizationManager;
  logger : list string
}.

(** A coroutine of the module: it runs on the world and returns or raises. *)
Definition M (A : Type) : Type := World -> Outcome A * World.

Definition ret {A} (a : A) : M A := fun w => (Returned a, w).

Definition bind {A B} (m : M A) (k : A -> M B) : M B :=
  fun w =>
    match m w with
    | (Returned a, w') => k a w'
    | (Raised e, w') => (Raised e, w')
    end.

(** [try: body / except Exception as e: handler e]; what the body did to
    the world before it raised stays done. *)
Definition try_catch {A} (body : M A) (handler : Exn -> M A) : M A :=
  fun w =>
    match body w with
    | (Returned a, w') => (Returned a, w')
    | (Raised e, w') => handler e w'
    end.

(** [logger.warning(msg)] and [logger.error(msg)] *)
Definition log (line : string) : M unit :=
  fun w =>
    (Returned tt,
     {| anchor_manager := anchor_manager w;
        persistence_engine := persistence_engine w;
        sync_manager := sync_manager w;
        logger := (logger w ++ [line])%list |}).

(** Reading a global. *)
Definition read {A} (f : World -> A) : M A := fun w => (Returned (f w), w).

(** [await anchor_manager.meth()]: the method runs on the object the
    global refers to, and the object keeps what the method did to it.
    On [None] the attribute lookup raises. *)
Definition call_anchor_manager {B}
    (meth : AnchorManager -> Outcome B * AnchorManager) : M B :=
  fun w =>
    match anchor_manager w with
    | Some am =>
        let '(r, am') := meth am in
        (r, {| anchor_manager := Some am';
               persistence_engine := persistence_engine w;
               sync_manager := sync_manager w;
               logger := logger w |})
    | None => (Raised (Exception "'NoneType' object has no attribute"), w)
    end.

Definition call_persistence_engine {B}
    (meth : PersistenceEngine -> Outcome B * PersistenceEngine) : M B :=
  fun w =>
    match persistence_engine w with
    | Some pe =>
        let '(r, pe') := meth pe in
        (r, {| anchor_manager := anchor_manager w;
               persistence_engine := Some pe';
               sync_manager := sync_manager w;
               logger := logger w |})
    | None => (Raised (Exception "'NoneType' object has no attribute"), w)
    end.

Definition call_sync_manager {B}
    (meth : SynchronizationManager -> Outcome B * SynchronizationManager) : M B :=
  fun w =>
    match sync_manager w with
    | Some sm =>
        let '(r, sm') := meth sm in
        (r, {| anchor_manager := anchor_manager w;
               persistence_engine := persistence_engine w;
               sync_manager := Some sm';
               logger := logger w |})
    | None => (Raised (Exception "'NoneType' object has no attribute"), w)
    end.

(** [if obj:] on a global holding [None] or an instance of a class that
    defines neither [__bool__] nor [__len__]. *)
Definition truthy {A} (o : option A) : bool :=
  match o with Some _ => true | None => false end.

(** [str(e)] *)
Definition str_exn (e : Exn) : string := match e with Exception m => m end.

(** *** GET /health *)

(** [services_status[name] = await obj.health_check() if obj else False] *)
Definition probe {A} (present : World -> option A) (check : M bool) : M bool :=
  bind (read present) (fun o => if truthy o then check else ret false).

Definition health_check_try (env : Env) : M Response :=
  bind (probe anchor_manager (call_anchor_manager am_health_check)) (fun a =>
  bind (probe persistence_engine (call_persistence_engine pe_health_check)) (fun p =>
  bind (probe sync_manager (call_sync_manager sm_health_check)) (fun s =>
  let services_status :=
    [("anchor_manager", a); ("persistence_engine", p); ("sync_manager", s)] in
  let services_healthy := forallb snd services_status in
  if services_healthy then
    ret {| status_code := 200;
           content := {| status := "healthy";
                         service := "cloud-anchor-service";
                         version := Some "1.0.0";
                         endpoint := "health";
                         logging := Some "enabled";
                         timestamp := Some (utcnow_isoformat env);
                         services := Some services_status;
                         error := None |} |}
  else
    ret {| status_code := 503;
           content := {| status := "unhealthy";
                         service := "cloud-anchor-service";
                         version := None;
                         endpoint := "health";
                         logging := Some "enabled";
                         timestamp := Some (utcnow_isoformat env);
                         services := Some services_status;
                         error := None |} |}))).

Definition health_check_except (env : Env) (e : Exn) : M Response :=
  bind (log ("Health check failed: " ++ str_exn e)) (fun _ =>
  ret {| status_code := 503;
         content := {| status := "unhealthy";
                       service := "cloud-anchor-service";
                       version := None;
                       endpoint := "health";
                       logging := Some "enabled";
                       timestamp := Some (utcnow_isoformat env);
                       services := None;
                       error := Some (str_exn e) |} |}).

Definition health_check (env : Env) : M Response :=
  try_catch (health_check_try env) (health_check_except env).

(** *** GET /healthz *)

Definition healthz_healthy : Response :=
  {| status_code := 200;
     content := {| status := "healthy";
                   service := "cloud-anchor-service";
                   version := None;
                   endpoint := "healthz";
                   logging := None;
                   timestamp := None;
                   services := None;
                   error := None |} |}.

Definition healthz_unhealthy : Response :=
  {| status_code := 503;
     content := {| status := "unhealthy";
                   service := "cloud-anchor-service";
                   version := None;
                   endpoint := "healthz";
                   logging := None;
                   timestamp := None;
                   services := None;
                   error := None |} |}.

(** [anchor_manager is not None and persistence_engine is not None] *)
Definition basic_health (w : World) : bool :=
  bool_decide (anchor_manager w <> None)
  && bool_decide (persistence_engine w <> None).

Definition health_check_minimal_try : M Response :=
  bind (read basic_health) (fun ok =>
  if ok then ret healthz_healthy else ret healthz_unhealthy).

Definition health_check_minimal_except (e : Exn) : M Response :=
  ret healthz_unhealthy.

Definition health_check_minimal : M Response :=
  try_catch health_check_minimal_try health_check_minimal_except.

(** *** The lines of a metric *)

(** The [# HELP], [# TYPE] and sample lines of one metric. *)
Definition metric_lines (name help kind value : string) : list string :=
  [ "# HELP " ++ name ++ " " ++ help;
    "# TYPE " ++ name ++ " " ++ kind;
    name ++ " " ++ value ].

(** The world with another synchronization manager. *)
Definition with_sync_manager (w : World) (sm : option SynchronizationManager) : World :=
  {| anchor_manager := anchor_manager w;
     persistence_engine := persistence_engine w;
     sync_manager := sm;
     logger := logger w |}.

End Endpoints.



Definition sample_env : Env :=
  {| getenv := fun _ => None;
     time_time := "1700000000.0";
     utcnow_isoformat := "2023-11-14T22:13:20" |}.


End CloudAnchorService.

(** ** The anchor core: data model

    [cloud_anchor_service/main.py] builds a [PersistenceEngine], an
    [AnchorManager] over it and a [SynchronizationManager] over that
    ([core.persistence_engine], [core.anchor_manager],
    [core.synchronization_manager]). The three modules are missing from the
    source tree; everything in [Module Core] is modelled from the
    specification's sections 3, 4 and 7. *)

Module Core.

(** Modelled from the spec: anchor ids, globally unique and ordered (the
    tie-break of a merge takes the lowest), and session ids. *)
Abbreviation AnchorId := nat.
Abbreviation SessionId := nat.

(** Modelled from the spec: the position of a pose, three floats (the
    pose type of the absent [core.anchor_manager]). *)
Record Position := { px : float; py : float; pz : float }.

(** Modelled from the spec: the orientation of a pose, a quaternion. *)
Record Quaternion := { qw : float; qx : float; qy : float; qz : float }.

(** Modelled from the spec: [pose], position plus orientation in a fixed
    world frame. *)
Record Pose := { position : Position; orientation : Quaternion }.

(** Modelled from the spec: [state], one of pending, confirmed, merged,
    deleted. *)
Inductive AnchorState := pending | confirmed | merged | deleted.

(** Modelled from the spec: [visibility], private or shared. *)
Inductive Visibility := private | shared.

(** Modelled from the spec: a cell of the uniform grid, the position
    quantized per axis. *)
Abbreviation Cell := (Z * Z * Z)%type.

(** Modelled from the spec: the Anchor of section 3. [aid] is the spec's
    [id]; [observers] keeps the sessions that have contributed an
    observation, which the promotion rule of [submit_observation] counts. *)
Record Anchor := {
  aid : AnchorId;
  pose : Pose;
  confidence : float;
  version : nat;
  state : AnchorState;
  merged_into : option AnchorId;
  owner_session : SessionId;
  created_at : float;
  last_observed_at : float;
  spatial_cell : Cell;
  visibility : Visibility;
  observers : gset SessionId
}.

(** Modelled from the spec: the policy parameters section 9 leaves to
    configuration (merge radius, thresholds, the asymptotic confidence
    rule, the decay factor as a function of elapsed time, the bounds of
    backlog and queues), and the checksums of the persisted layout. *)
Record Policy := {
  merge_radius : float;
  cell_size : float;
  confirm_threshold : float;
  min_confidence : float;
  grace_window : float;
  reinforce : float -> float -> float;
  decay_factor : float -> float;
  backlog_capacity : nat;
  queue_capacity : nat;
  anchor_checksum : Anchor -> Z;
  table_checksum : gmap AnchorId Anchor -> Z
}.

(** Modelled from the spec: the terminal states, merged and deleted. *)
Definition terminal (s : AnchorState) : bool :=
  match s with
  | merged | deleted => true
  | pending | confirmed => false
  end.

(** Modelled from the spec: [state] in pending or confirmed. *)
Definition live (a : Anchor) : bool := negb (terminal (state a)).

(** Modelled from the spec: [visibility = shared]. *)
Definition is_shared (a : Anchor) : bool :=
  match visibility a with shared => true | private => false end.

#[global] Instance AnchorState_eq_dec : EqDecision AnchorState.
Proof. solve_decision. Defined.

#[global] Instance Visibility_eq_dec : EqDecision Visibility.
Proof. solve_decision. Defined.

(** *** Geometry on floats *)

(** Modelled from the spec: the quantization of a coordinate: the integer
    part of a float, rounded down; 0 for a value that is not finite. *)
Definition floor_float (x : float) : Z :=
  match Prim2SF x with
  | S754_finite negative m e =>
      let z := if negative then Z.neg m else Z.pos m in
      if (0 <=? e)%Z then (z * 2 ^ e)%Z else Z.shiftr z (- e)
  | _ => 0%Z
  end.

(** Modelled from the spec: [spatial_cell], the index key derived from the
    position by quantizing it into cells of [cell_size]. *)
Definition cell_of (pol : Policy) (p : Position) : Cell :=
  (floor_float (px p / cell_size pol)%float,
   floor_float (py p / cell_size pol)%float,
   floor_float (pz p / cell_size pol)%float).

(** Modelled from the spec: the distance of two positions. *)
Definition distance (p q : Position) : float :=
  let dx := (px p - px q)%float in
  let dy := (py p - py q)%float in
  let dz := (pz p - pz q)%float in
  sqrt (dx * dx + dy * dy + dz * dz)%float.

(** Modelled from the spec: within the merge radius [R] of a position. *)
Definition within (r : float) (p q : Position) : bool :=
  (distance p q <=? r)%float.

(** Modelled from the spec: the norm of an orientation, and the
    orientation brought to unit length. *)
Definition norm (q : Quaternion) : float :=
  sqrt (qw q * qw q + qx q * qx q + qy q * qy q + qz q * qz q)%float.

Definition normalize (q : Quaternion) : Quaternion :=
  let n := norm q in
  {| qw := (qw q / n)%float; qx := (qx q / n)%float;
     qy := (qy q / n)%float; qz := (qz q / n)%float |}.

(** Modelled from the spec: the pose check of [submit_observation]: every
    coordinate of the position is finite and the orientation has a finite,
    non-zero norm. *)
Definition valid_pose (p : Pose) : bool :=
  is_finite (px (position p)) && is_finite (py (position p))
  && is_finite (pz (position p))
  && is_finite (norm (orientation p))
  && (0 <? norm (orientation p))%float.

(** Modelled from the spec: the weighted average of positions, and of
    orientations (brought back to unit length). *)
Definition weighted_position (parts : list (float * Pose)) : Position :=
  let total := foldr (fun wp acc => (fst wp + acc)%float) 0%float parts in
  let sum f := foldr (fun wp acc => (fst wp * f (position (snd wp)) + acc)%float)
                 0%float parts in
  {| px := (sum px / total)%float;
     py := (sum py / total)%float;
     pz := (sum pz / total)%float |}.

Definition weighted_orientation (parts : list (float * Pose)) : Quaternion :=
  let sum f := foldr (fun wp acc => (fst wp * f (orientation (snd wp)) + acc)%float)
                 0%float parts in
  normalize {| qw := sum qw; qx := sum qx; qy := sum qy; qz := sum qz |}.

(** Modelled from the spec: the weighted average of poses, each weighted by
    its confidence. *)
Definition weighted_pose (parts : list (float * Pose)) : Pose :=
  {| position := weighted_position parts;
     orientation := weighted_orientation parts |}.

(** *** Persistence Engine (spec 4.2) *)

(** Modelled from the spec: a record of the write-ahead log,
    (sequence, anchor id, full anchor snapshot after the mutation), with
    the checksum that makes it self-describing. *)
Record LogRecord := {
  sequence : nat;
  log_anchor_id : AnchorId;
  after : Anchor;
  log_checksum : Z
}.

(** Modelled from the spec: a full-table snapshot, tagged with the log
    sequence it supersedes, with its checksum. *)
Record Snapshot := {
  snapshot_sequence : nat;
  snapshot_table : gmap AnchorId Anchor;
  snapshot_checksum : Z
}.

(** Modelled from the spec: what the absent [PersistenceEngine] owns: the
    snapshots (newest first), the append-only log (oldest first), and the
    sequence number the next record gets. Sequence numbers start at 1, so
    that a cursor of 0 stands for nothing acknowledged. *)
Record PersistenceEngine := {
  snapshots : list Snapshot;
  wal : list LogRecord;
  next_sequence : nat
}.

(** Modelled from the spec: the persistence integrity failures. *)
Inductive LoadError := CorruptLog | CorruptSnapshot.

(** Modelled from the spec: the record of an anchor after its mutation. *)
Definition log_record (pol : Policy) (seq : nat) (a : Anchor) : LogRecord :=
  {| sequence := seq; log_anchor_id := aid a; after := a;
     log_checksum := anchor_checksum pol a |}.

(** Modelled from the spec: [append(record)]; the record is durable when
    the call returns. *)
Definition append (pol : Policy) (pe : PersistenceEngine) (a : Anchor) :
    PersistenceEngine :=
  {| snapshots := snapshots pe;
     wal := wal pe ++ [log_record pol (next_sequence pe) a];
     next_sequence := S (next_sequence pe) |}.

(** Modelled from the spec: [snapshot(table)], a full-table snapshot tagged
    with the last sequence the log has handed out. The log is kept. *)
Definition snapshot (pol : Policy) (pe : PersistenceEngine)
    (t : gmap AnchorId Anchor) : PersistenceEngine :=
  {| snapshots :=
       {| snapshot_sequence := pred (next_sequence pe);
          snapshot_table := t;
          snapshot_checksum := table_checksum pol t |} :: snapshots pe;
     wal := wal pe;
     next_sequence := next_sequence pe |}.

(** Modelled from the spec: the checksum of a snapshot, and of a record,
    holds. *)
Definition snapshot_intact (pol : Policy) (s : Snapshot) : bool :=
  (table_checksum pol (snapshot_table s) =? snapshot_checksum s)%Z.

Definition record_intact (pol : Policy) (r : LogRecord) : bool :=
  (anchor_checksum pol (after r) =? log_checksum r)%Z
  && (aid (after r) =? log_anchor_id r)%nat.

(** Modelled from the spec: the latest snapshot whose checksum holds; when
    the checksum of one fails, the prior one is tried. *)
Fixpoint latest_intact (pol : Policy) (snaps : list Snapshot) : option Snapshot :=
  match snaps with
  | [] => None
  | s :: older => if snapshot_intact pol s then Some s else latest_intact pol older
  end.

(** Modelled from the spec: replaying log records in ascending sequence
    order on a table; a record whose sequence is not the expected next one
    (a gap) or whose checksum fails is [CorruptLog]. *)
Fixpoint replay (pol : Policy) (expected : nat) (t : gmap AnchorId Anchor)
    (records : list LogRecord) : LoadError + (gmap AnchorId Anchor * nat) :=
  match records with
  | [] => inr (t, expected)
  | r :: rest =>
      if (sequence r =? expected)%nat && record_intact pol r
      then replay pol (S expected) (<[log_anchor_id r := after r]> t) rest
      else inl CorruptLog
  end.

(** Modelled from the spec: [load()]: the latest snapshot (none yet: the
    empty table at sequence 0), then every log record with a sequence
    greater than the snapshot's; the result is the table and the next
    sequence. All snapshots corrupt is [CorruptSnapshot]. *)
Definition load (pol : Policy) (snaps : list Snapshot) (records : list LogRecord) :
    LoadError + (gmap AnchorId Anchor * nat) :=
  match snaps with
  | [] => replay pol 1 ∅ records
  | _ :: _ =>
      match latest_intact pol snaps with
      | None => inl CorruptSnapshot
      | Some s =>
          replay pol (S (snapshot_sequence s)) (snapshot_table s)
            (List.filter (fun r => (snapshot_sequence s <? sequence r)%nat) records)
      end
  end.

(** *** Anchor Store (spec 4.1) *)

(** Modelled from the spec: the operation a [SyncEvent] names. *)
Inductive Operation := op_create | op_update | op_merge | op_delete.

(** Modelled from the spec: [SyncEvent]; [event_version] is its [version],
    [originating_session] is absent for the periodic decay. *)
Record SyncEvent := {
  anchor_id : AnchorId;
  event_version : nat;
  operation : Operation;
  originating_session : option SessionId;
  timestamp : float
}.

(** Modelled from the spec: an event as the store hands it to the
    synchronization manager (absent [core.synchronization_manager]): with the
    global sequence number it is keyed by, the anchor's cell, and, for a
    private anchor, the one session that may see it (its owner). *)
Record Published := {
  pub_sequence : nat;
  pub_cell : Cell;
  pub_audience : option SessionId;
  pub_event : SyncEvent
}.

(** Modelled from the spec: the authoritative anchor table, owned by the
    absent [AnchorManager], and the persistence engine it logs to. The grid
    index is the view [grid_cell] of the table, so it is re-indexed with
    every mutation. *)
Record AnchorStore := {
  table : gmap AnchorId Anchor;
  engine : PersistenceEngine
}.

(** Modelled from the spec: the store before any operation. *)
Definition initial_store : AnchorStore :=
  {| table := ∅; engine := {| snapshots := []; wal := []; next_sequence := 1 |} |}.

(** Modelled from the spec: the anchors of the table, as a finite list. *)
Definition anchors (t : gmap AnchorId Anchor) : list Anchor :=
  (map_to_list t).*2.

(** Modelled from the spec: a grid cell holds the ids of the anchors whose
    [spatial_cell] equals it. *)
Definition grid_cell (t : gmap AnchorId Anchor) (c : Cell) : list AnchorId :=
  aid <$> List.filter (fun a => bool_decide (spatial_cell a = c)) (anchors t).

(** Modelled from the spec: the order of query results: ascending cell,
    then ascending id. *)
Definition cell_then_id_leb (a b : Anchor) : bool :=
  let '(ax, ay, az) := spatial_cell a in
  let '(bx, b_y, bz) := spatial_cell b in
  if (ax <? bx)%Z then true else if (bx <? ax)%Z then false
  else if (ay <? b_y)%Z then true else if (b_y <? ay)%Z then false
  else if (az <? bz)%Z then true else if (bz <? az)%Z then false
  else (aid a <=? aid b)%nat.

Definition cell_then_id_le (a b : Anchor) : Prop := cell_then_id_leb a b = true.

#[global] Instance cell_then_id_le_dec : RelDecision cell_then_id_le.
Proof. intros a b. unfold cell_then_id_le. apply _. Defined.

(** Modelled from the spec: the visibility filter of a query. *)
Definition visible (filter : option Visibility) (a : Anchor) : bool :=
  match filter with
  | None => true
  | Some v => bool_decide (visibility a = v)
  end.

(** Modelled from the spec: [query_region(center, radius,
    visibility_filter)], finite and ordered by cell then id. *)
Definition query_region (t : gmap AnchorId Anchor) (center : Position)
    (radius : float) (visibility_filter : option Visibility) : list Anchor :=
  merge_sort cell_then_id_le
    (List.filter
       (fun a => within radius (position (pose a)) center
                 && visible visibility_filter a)
       (anchors t)).

(** Modelled from the spec: the input of [submit_observation], the pose,
    confidence, region hint and optional candidate id of the call together
    with the timestamp, session and visibility the upstream producer
    supplies. *)
Record Observation := {
  candidate_id : option AnchorId;
  obs_pose : Pose;
  obs_confidence : float;
  obs_timestamp : float;
  session_id : SessionId;
  region_hint : option Cell;
  obs_visibility : Visibility
}.

(** Modelled from the spec: the shared anchors within the merge radius of
    the observed position whose state is pending or confirmed. *)
Definition merge_candidates (pol : Policy) (t : gmap AnchorId Anchor)
    (p : Position) : list Anchor :=
  List.filter live (query_region t p (merge_radius pol) (Some shared)).

(** Modelled from the spec: the deterministic tie-break, the lowest id. *)
Definition lowest_id (a : Anchor) (rest : list Anchor) : Anchor :=
  foldr (fun b acc => if (aid b <? aid acc)%nat then b else acc) a rest.

(** Modelled from the spec: the pose as stored, its orientation a unit
    quaternion. *)
Definition unit_pose (p : Pose) : Pose :=
  {| position := position p; orientation := normalize (orientation p) |}.

(** Modelled from the spec: the canonical anchor absorbs an observation and
    the anchors merged into it: the pose becomes the confidence-weighted
    average of all, the confidence moves toward 1 by the asymptotic rule,
    the version goes up by one, and a pending anchor is promoted once its
    confidence exceeds the threshold and two sessions have contributed. *)
Definition absorb (pol : Policy) (canon : Anchor) (others : list Anchor)
    (ob : Observation) : Anchor :=
  let parts :=
    (confidence canon, pose canon)
    :: ((fun o => (confidence o, pose o)) <$> others)
    ++ [(obs_confidence ob, unit_pose (obs_pose ob))] in
  let pose' := weighted_pose parts in
  let confidence' := reinforce pol (confidence canon) (obs_confidence ob) in
  let observers' :=
    observers canon ∪ ⋃ (observers <$> others) ∪ {[ session_id ob ]} in
  {| aid := aid canon;
     pose := pose';
     confidence := confidence';
     version := S (version canon);
     state :=
       match state canon with
       | pending =>
           if (confirm_threshold pol <? confidence')%float
              && (2 <=? size observers')%nat
           then confirmed else pending
       | s => s
       end;
     merged_into := merged_into canon;
     owner_session := owner_session canon;
     created_at := created_at canon;
     last_observed_at := obs_timestamp ob;
     spatial_cell := cell_of pol (position pose');
     visibility := visibility canon;
     observers := observers' |}.

(** Modelled from the spec: a duplicate transitions to merged, with
    [merged_into] set to the canonical id. *)
Definition merge_into (canonical : AnchorId) (a : Anchor) : Anchor :=
  {| aid := aid a; pose := pose a; confidence := confidence a;
     version := S (version a);
     state := merged;
     merged_into := Some canonical;
     owner_session := owner_session a; created_at := created_at a;
     last_observed_at := last_observed_at a; spatial_cell := spatial_cell a;
     visibility := visibility a; observers := observers a |}.

(** Modelled from the spec: no match creates a new anchor, pending, at
    version 0. The id is one the table does not hold. *)
Definition new_anchor (pol : Policy) (t : gmap AnchorId Anchor)
    (ob : Observation) : Anchor :=
  {| aid := fresh (dom t);
     pose := unit_pose (obs_pose ob);
     confidence := obs_confidence ob;
     version := 0;
     state := pending;
     merged_into := None;
     owner_session := session_id ob;
     created_at := obs_timestamp ob;
     last_observed_at := obs_timestamp ob;
     spatial_cell := cell_of pol (position (obs_pose ob));
     visibility := obs_visibility ob;
     observers := {[ session_id ob ]} |}.

(** Modelled from the spec: [delete] tombstones the anchor. *)
Definition tombstone (a : Anchor) : Anchor :=
  {| aid := aid a; pose := pose a; confidence := confidence a;
     version := S (version a);
     state := deleted;
     merged_into := merged_into a;
     owner_session := owner_session a; created_at := created_at a;
     last_observed_at := last_observed_at a; spatial_cell := spatial_cell a;
     visibility := visibility a; observers := observers a |}.

(** Modelled from the spec: the decay of one pending or confirmed anchor at
    [now]: the confidence is multiplied by the decay factor for the time
    since [last_observed_at]; below the minimum confidence and past the
    grace window the anchor transitions to deleted. *)
Definition decay_anchor (pol : Policy) (now : float) (a : Anchor) : Anchor :=
  let elapsed := (now - last_observed_at a)%float in
  let confidence' := (confidence a * decay_factor pol elapsed)%float in
  {| aid := aid a; pose := pose a;
     confidence := confidence';
     version := S (version a);
     state :=
       if (confidence' <? min_confidence pol)%float
          && (grace_window pol <? elapsed)%float
       then deleted else state a;
     merged_into := merged_into a;
     owner_session := owner_session a; created_at := created_at a;
     last_observed_at := last_observed_at a; spatial_cell := spatial_cell a;
     visibility := visibility a; observers := observers a |}.

(** Modelled from the spec: one accepted mutation of one anchor: its new
    value, and what the event says about it. *)
Record Change := {
  change_operation : Operation;
  change_anchor : Anchor;
  change_session : option SessionId;
  change_time : float
}.

(** Modelled from the spec: an accepted mutation is applied to the table,
    appended to the log, and only then reported, as the event keyed by the
    sequence the log gave it. *)
Definition apply_change (pol : Policy) (st : AnchorStore) (ch : Change) :
    AnchorStore * Published :=
  let a := change_anchor ch in
  ({| table := <[aid a := a]> (table st);
      engine := append pol (engine st) a |},
   {| pub_sequence := next_sequence (engine st);
      pub_cell := spatial_cell a;
      pub_audience :=
        match visibility a with
        | private => Some (owner_session a)
        | shared => None
        end;
      pub_event := {| anchor_id := aid a;
                      event_version := version a;
                      operation := change_operation ch;
                      originating_session := change_session ch;
                      timestamp := change_time ch |} |}).

(** Modelled from the spec: the changes of one operation, applied and
    logged one after the other. *)
Fixpoint commit (pol : Policy) (st : AnchorStore) (changes : list Change) :
    AnchorStore * list Published :=
  match changes with
  | [] => (st, [])
  | ch :: rest =>
      let '(st1, e) := apply_change pol st ch in
      let '(st2, es) := commit pol st1 rest in
      (st2, e :: es)
  end.

(** Modelled from the spec: the error taxonomy of the store. [NoLiveAnchor]
    answers a [delete] of an id that is absent or already a tombstone, for
    which the spec names no error. *)
Inductive Error := InvalidPose | NotOwner | NoLiveAnchor.

(** Modelled from the spec: what a mutating operation decides: the changes
    to commit, with the anchor and version to report, or the error. *)
Inductive Plan :=
| Accept (changes : list Change) (reported : option (AnchorId * nat))
| Reject (e : Error).

(** Modelled from the spec: a change that an observation causes. *)
Definition change_of (ob : Observation) (op : Operation) (a : Anchor) : Change :=
  {| change_operation := op; change_anchor := a;
     change_session := Some (session_id ob); change_time := obs_timestamp ob |}.

(** Modelled from the spec: the spatial path of [submit_observation]: no
    match creates, one match updates, several merge into the lowest id. *)
Definition plan_spatial (pol : Policy) (t : gmap AnchorId Anchor)
    (ob : Observation) : Plan :=
  match merge_candidates pol t (position (obs_pose ob)) with
  | [] =>
      let a := new_anchor pol t ob in
      Accept [change_of ob op_create a] (Some (aid a, version a))
  | first :: rest =>
      let canon := lowest_id first rest in
      let others :=
        List.filter (fun o => negb (aid o =? aid canon)%nat) (first :: rest) in
      let canon' := absorb pol canon others ob in
      Accept
        (change_of ob (match others with [] => op_update | _ => op_merge end) canon'
         :: (change_of ob op_merge ∘ merge_into (aid canon) <$> others))
        (Some (aid canon', version canon'))
  end.

(** Modelled from the spec: the anchor a candidate id stands for: the one
    it names, if that exists and is pending or confirmed. A tombstone never
    transitions again, so it is not a candidate. *)
Definition usable_candidate (t : gmap AnchorId Anchor) (ob : Observation) :
    option Anchor :=
  (candidate_id ob ≫= (t !!.)) ≫= (fun a => if live a then Some a else None).

(** Modelled from the spec: [submit_observation]. The pose is checked
    first. With a usable candidate the observation is an update of that
    anchor; otherwise it is left to the spatial query. *)
Definition plan_submit_observation (pol : Policy) (t : gmap AnchorId Anchor)
    (ob : Observation) : Plan :=
  if negb (valid_pose (obs_pose ob)) then Reject InvalidPose
  else
    match usable_candidate t ob with
    | Some a =>
        let a' := absorb pol a [] ob in
        Accept [change_of ob op_update a'] (Some (aid a', version a'))
    | None => plan_spatial pol t ob
    end.

(** Modelled from the spec: [delete(anchor_id, requesting_session)];
    [elevated] is the requester's privilege as the transport layer
    established it. *)
Definition plan_delete (t : gmap AnchorId Anchor) (i : AnchorId)
    (requesting_session : SessionId) (elevated : bool) (now : float) : Plan :=
  match t !! i with
  | None => Reject NoLiveAnchor
  | Some a =>
      if negb (bool_decide (requesting_session = owner_session a) || elevated)
      then Reject NotOwner
      else if live a then
        Accept [ {| change_operation := op_delete; change_anchor := tombstone a;
                    change_session := Some requesting_session;
                    change_time := now |} ] None
      else Reject NoLiveAnchor
  end.

(** Modelled from the spec: [decay_tick(now)], over every pending or
    confirmed anchor. *)
Definition plan_decay_tick (pol : Policy) (t : gmap AnchorId Anchor)
    (now : float) : Plan :=
  Accept
    ((fun a =>
        let a' := decay_anchor pol now a in
        {| change_operation :=
             match state a' with deleted => op_delete | _ => op_update end;
           change_anchor := a';
           change_session := None;
           change_time := now |})
       <$> List.filter live (anchors t))
    None.

(** Modelled from the spec: the mutating operations of the store. *)
Inductive Command :=
| SubmitObservation (ob : Observation)
| Delete (i : AnchorId) (requesting_session : SessionId) (elevated : bool)
    (now : float)
| DecayTick (now : float).

(** Modelled from the spec: what each mutating operation decides. *)
Definition plan (pol : Policy) (t : gmap AnchorId Anchor) (c : Command) : Plan :=
  match c with
  | SubmitObservation ob => plan_submit_observation pol t ob
  | Delete i s e now => plan_delete t i s e now
  | DecayTick now => plan_decay_tick pol t now
  end.

(** Modelled from the spec: what the caller of a mutating operation gets
    back. *)
Inductive Reply :=
| Committed (reported : option (AnchorId * nat))
| Failed (e : Error).

(** Modelled from the spec: running a mutating operation: an accepted one
    commits its changes in order and hands out their events; a rejected one
    leaves the store as it is. *)
Definition execute (pol : Policy) (st : AnchorStore) (c : Command) :
    AnchorStore * Reply * list Published :=
  match plan pol (table st) c with
  | Accept changes reported =>
      let '(st', events) := commit pol st changes in
      (st', Committed reported, events)
  | Reject e => (st, Failed e, [])
  end.

(** Modelled from the spec: the three mutating operations, run on a store. *)
Definition submit_observation (pol : Policy) (st : AnchorStore) (ob : Observation) :=
  execute pol st (SubmitObservation ob).

Definition delete (pol : Policy) (st : AnchorStore) (i : AnchorId)
    (requesting_session : SessionId) (elevated : bool) (now : float) :=
  execute pol st (Delete i requesting_session elevated now).

Definition decay_tick (pol : Policy) (st : AnchorStore) (now : float) :=
  execute pol st (DecayTick now).

(** Modelled from the spec: the store after a sequence of operations, from
    the empty store. *)
Definition run_store (pol : Policy) (cmds : list Command) : AnchorStore :=
  foldl (fun st c => (execute pol st c).1.1) initial_store cmds.

(** *** Synchronization Manager (spec 4.3) *)

(** Modelled from the spec: the state machine of a session,
    connecting, subscribed, draining (on disconnect), closed. *)
Inductive SessionPhase := connecting | subscribed | draining | closed.

#[global] Instance SessionPhase_eq_dec : EqDecision SessionPhase.
Proof. solve_decision. Defined.

(** Modelled from the spec: the subscribed region, center plus radius. *)
Record Region := { center : Position; radius : float }.

(** Modelled from the spec: [AnchorSession]: the region, the sync cursor
    (last acknowledged sequence), the bounded outbound queue, and whether
    the session has been told to resync from a full [query_region]
    snapshot. [delivered] records, oldest first, the events the session has
    received; it is what the ordering properties speak about. *)
Record AnchorSession := {
  phase : SessionPhase;
  region : Region;
  cursor : nat;
  queue : list Published;
  resync : bool;
  delivered : list Published
}.

(** Modelled from the spec: what the absent [SynchronizationManager] owns:
    the sessions, the bounded backlog of events keyed by sequence (oldest
    first), the sequence of the latest event, and the counter its metrics
    report. *)
Record SynchronizationManager := {
  sessions : gmap SessionId AnchorSession;
  backlog : list Published;
  latest_sequence : nat;
  sync_operations_total : nat
}.

(** Modelled from the spec: the manager before any session or event. *)
Definition initial_sync : SynchronizationManager :=
  {| sessions := ∅; backlog := []; latest_sequence := 0;
     sync_operations_total := 0 |}.

(** Modelled from the spec: a region reaches a cell when the cell lies in
    the box of cells around the region, widened by the neighbour cells. *)
Definition reaches (pol : Policy) (r : Region) (c : Cell) : bool :=
  let lo f := floor_float ((f (center r) - radius r) / cell_size pol)%float in
  let hi f := floor_float ((f (center r) + radius r) / cell_size pol)%float in
  let '(x, y, z) := c in
  (lo px - 1 <=? x)%Z && (x <=? hi px + 1)%Z
  && (lo py - 1 <=? y)%Z && (y <=? hi py + 1)%Z
  && (lo pz - 1 <=? z)%Z && (z <=? hi pz + 1)%Z.

(** Modelled from the spec: the sessions an event is for: subscribed, with
    a region that reaches the anchor's cell, and, for a private anchor, the
    owner only. *)
Definition affected (pol : Policy) (sid : SessionId) (s : AnchorSession)
    (p : Published) : bool :=
  bool_decide (phase s = subscribed)
  && reaches pol (region s) (pub_cell p)
  && match pub_audience p with
     | None => true
     | Some owner => bool_decide (owner = sid)
     end.

(** Modelled from the spec: enqueueing into a bounded queue; a full queue
    drops the session into draining and forces a resync on its next
    connect ([SessionOverflow]). *)
Definition enqueue (pol : Policy) (s : AnchorSession) (p : Published) :
    AnchorSession :=
  if (length (queue s) <? queue_capacity pol)%nat then
    {| phase := phase s; region := region s; cursor := cursor s;
       queue := queue s ++ [p]; resync := resync s; delivered := delivered s |}
  else
    {| phase := draining; region := region s; cursor := cursor s;
       queue := []; resync := true; delivered := delivered s |}.

(** Modelled from the spec: the bounded backlog keeps the newest
    [backlog_capacity] events. *)
Definition retain (pol : Policy) (events : list Published) : list Published :=
  drop (length events - backlog_capacity pol) events.

(** Modelled from the spec: fan-out of one committed event: into the
    backlog and into the queue of every affected session. *)
Definition publish (pol : Policy) (sm : SynchronizationManager) (p : Published) :
    SynchronizationManager :=
  {| sessions :=
       map_imap (fun sid s =>
                   Some (if affected pol sid s p then enqueue pol s p else s))
         (sessions sm);
     backlog := retain pol (backlog sm ++ [p]);
     latest_sequence := pub_sequence p;
     sync_operations_total := S (sync_operations_total sm) |}.

(** Modelled from the spec: a client connects; a session id that is free,
    or whose session is closed, gets a new session in [connecting]. *)
Definition connect (sm : SynchronizationManager) (sid : SessionId) :
    SynchronizationManager :=
  let fresh_session :=
    {| phase := connecting;
       region := {| center := {| px := 0; py := 0; pz := 0 |}; radius := 0 |};
       cursor := 0; queue := []; resync := false; delivered := [] |} in
  match sessions sm !! sid with
  | Some s =>
      if bool_decide (phase s = closed)
      then {| sessions := <[sid := fresh_session]> (sessions sm);
              backlog := backlog sm; latest_sequence := latest_sequence sm;
              sync_operations_total := sync_operations_total sm |}
      else sm
  | None =>
      {| sessions := <[sid := fresh_session]> (sessions sm);
         backlog := backlog sm; latest_sequence := latest_sequence sm;
         sync_operations_total := sync_operations_total sm |}
  end.

(** Modelled from the spec: the cursor falls within the retained backlog
    when every event after it is still retained. *)
Definition covered (sm : SynchronizationManager) (start : nat) : bool :=
  match backlog sm with
  | [] => (latest_sequence sm <=? start)%nat
  | oldest :: _ => (pub_sequence oldest <=? S start)%nat
  end.

(** Modelled from the spec: a connecting session subscribes with a region
    and a starting cursor. Within the backlog, the events after the cursor
    that are for the session are queued for replay; a cursor that has aged
    out ([StaleCursor]), or a replay the queue cannot hold, makes the
    session resync and tail from the current sequence. Nothing has been
    delivered to the session yet. *)
Definition subscribe (pol : Policy) (sm : SynchronizationManager)
    (sid : SessionId) (r : Region) (start : nat) : SynchronizationManager :=
  match sessions sm !! sid with
  | Some s =>
      if bool_decide (phase s = connecting) then
        let opened :=
          {| phase := subscribed; region := r; cursor := start; queue := [];
             resync := false; delivered := [] |} in
        let replayed :=
          List.filter (fun p => (start <? pub_sequence p)%nat
                                && affected pol sid opened p) (backlog sm) in
        let s' :=
          if covered sm start && (length replayed <=? queue_capacity pol)%nat
          then {| phase := subscribed; region := r; cursor := start;
                  queue := replayed; resync := false; delivered := [] |}
          else {| phase := subscribed; region := r;
                  cursor := latest_sequence sm; queue := [];
                  resync := true; delivered := [] |} in
        {| sessions := <[sid := s']> (sessions sm);
           backlog := backlog sm; latest_sequence := latest_sequence sm;
           sync_operations_total := sync_operations_total sm |}
      else sm
  | None => sm
  end.

(** Modelled from the spec: a change of one session of the manager. *)
Definition update_session (sm : SynchronizationManager) (sid : SessionId)
    (f : AnchorSession -> AnchorSession) : SynchronizationManager :=
  {| sessions := alter f sid (sessions sm);
     backlog := backlog sm; latest_sequence := latest_sequence sm;
     sync_operations_total := sync_operations_total sm |}.

(** Modelled from the spec: the delivery task of a subscribed session hands
    over the head of its queue. *)
Definition deliver (sm : SynchronizationManager) (sid : SessionId) :
    SynchronizationManager :=
  update_session sm sid (fun s =>
    match phase s, queue s with
    | subscribed, p :: rest =>
        {| phase := phase s; region := region s; cursor := cursor s;
           queue := rest; resync := resync s;
           delivered := delivered s ++ [p] |}
    | _, _ => s
    end).

(** Modelled from the spec: the session acknowledges a sequence; the
    cursor only moves forward. *)
Definition ack (sm : SynchronizationManager) (sid : SessionId) (seq : nat) :
    SynchronizationManager :=
  update_session sm sid (fun s =>
    {| phase := phase s; region := region s; cursor := cursor s `max` seq;
       queue := queue s; resync := resync s; delivered := delivered s |}).

(** Modelled from the spec: the subscribed region may change over time. *)
Definition set_region (sm : SynchronizationManager) (sid : SessionId)
    (r : Region) : SynchronizationManager :=
  update_session sm sid (fun s =>
    {| phase := phase s; region := r; cursor := cursor s;
       queue := queue s; resync := resync s; delivered := delivered s |}).

(** Modelled from the spec: on disconnect the session drains: its task
    ends and the deliveries in flight are discarded. *)
Definition disconnect (sm : SynchronizationManager) (sid : SessionId) :
    SynchronizationManager :=
  update_session sm sid (fun s =>
    match phase s with
    | closed => s
    | _ => {| phase := draining; region := region s; cursor := cursor s;
              queue := []; resync := resync s; delivered := delivered s |}
    end).

(** Modelled from the spec: a draining session closes. *)
Definition close (sm : SynchronizationManager) (sid : SessionId) :
    SynchronizationManager :=
  update_session sm sid (fun s =>
    match phase s with
    | draining =>
        {| phase := closed; region := region s; cursor := cursor s;
           queue := queue s; resync := resync s; delivered := delivered s |}
    | _ => s
    end).

(** *** The service: store and synchronization manager together *)

(** Modelled from the spec: the anchor store with its persistence engine,
    and the synchronization manager over it. *)
Record System := {
  store : AnchorStore;
  sync : SynchronizationManager
}.

(** Modelled from the spec: the service at startup, nothing persisted. *)
Definition initial_system : System :=
  {| store := initial_store; sync := initial_sync |}.

(** Modelled from the spec: what can happen to the service: a mutating
    operation of the store, the moves of a session, a delivery, a snapshot
    of the table. *)
Inductive Action :=
| Mutate (c : Command)
| Connect (sid : SessionId)
| Subscribe (sid : SessionId) (r : Region) (start : nat)
| Deliver (sid : SessionId)
| Ack (sid : SessionId) (seq : nat)
| SetRegion (sid : SessionId) (r : Region)
| Disconnect (sid : SessionId)
| Close (sid : SessionId)
| TakeSnapshot.

(** Modelled from the spec: the data flow of section 2: a mutation is
    validated and applied by the store, appended to the log, and once
    durable its events are fanned out in sequence order. *)
Definition step (pol : Policy) (sys : System) (a : Action) : System :=
  match a with
  | Mutate c =>
      let '(st', _, events) := execute pol (store sys) c in
      {| store := st'; sync := foldl (publish pol) (sync sys) events |}
  | Connect sid => {| store := store sys; sync := connect (sync sys) sid |}
  | Subscribe sid r start =>
      {| store := store sys; sync := subscribe pol (sync sys) sid r start |}
  | Deliver sid => {| store := store sys; sync := deliver (sync sys) sid |}
  | Ack sid seq => {| store := store sys; sync := ack (sync sys) sid seq |}
  | SetRegion sid r => {| store := store sys; sync := set_region (sync sys) sid r |}
  | Disconnect sid => {| store := store sys; sync := disconnect (sync sys) sid |}
  | Close sid => {| store := store sys; sync := close (sync sys) sid |}
  | TakeSnapshot =>
      {| store := {| table := table (store sys);
                     engine := snapshot pol (engine (store sys))
                                 (table (store sys)) |};
         sync := sync sys |}
  end.

(** Modelled from the spec: the service after a sequence of actions. *)
Definition run (pol : Policy) (actions : list Action) : System :=
  foldl (step pol) initial_system actions.

(** *** A policy and a few inputs to run the model on *)

Definition halvings (n : nat) : float :=
  Nat.iter n (fun x => (x * 0.5)%float) 1%float.

(** Merge radius 0.5, cells of 1, confirmation above 0.625, pruning below
    0.0625 after a grace window of 300 s, a half-life of 600 s. *)
Definition sample_policy : Policy :=
  {| merge_radius := 0.5;
     cell_size := 1;
     confirm_threshold := 0.625;
     min_confidence := 0.0625;
     grace_window := 300;
     reinforce := fun c w => (c + (1 - c) * w)%float;
     decay_factor := fun elapsed => halvings (Z.to_nat (floor_float (elapsed / 600)));
     backlog_capacity := 64;
     queue_capacity := 16;
     anchor_checksum := fun a => Z.of_nat (aid a + 31 * version a);
     table_checksum :=
       fun t => map_fold (fun _ a acc => (Z.of_nat (aid a + 31 * version a) + acc)%Z)
                  0%Z t |}.

Definition origin : Position := {| px := 0; py := 0; pz := 0 |}.

Definition upright : Quaternion := {| qw := 1; qx := 0; qy := 0; qz := 0 |}.

(** A shared observation by [session] at [(x, 0, 0)], at time [t]. *)
Definition observe (session : SessionId) (x c t : float) : Observation :=
  {| candidate_id := None;
     obs_pose := {| position := {| px := x; py := 0; pz := 0 |};
                    orientation := upright |};
     obs_confidence := c;
     obs_timestamp := t;
     session_id := session;
     region_hint := None;
     obs_visibility := shared |}.

(** *** Well-formedness of the store, and what the properties speak about *)

(** The table as the changes of a plan leave it. *)
Definition stage (t : gmap AnchorId Anchor) (changes : list Change) :
    gmap AnchorId Anchor :=
  foldl (fun t ch => <[aid (change_anchor ch) := change_anchor ch]> t) t changes.

(** The records a plan appends, the first at sequence [n]. *)
Fixpoint log_records (pol : Policy) (n : nat) (changes : list Change) :
    list LogRecord :=
  match changes with
  | [] => []
  | ch :: rest => log_record pol n (change_anchor ch) :: log_records pol (S n) rest
  end.

(** An event and the log record of the same mutation. *)
Definition event_of (p : Published) (r : LogRecord) : Prop :=
  pub_sequence p = sequence r
  /\ anchor_id (pub_event p) = log_anchor_id r
  /\ event_version (pub_event p) = version (after r).

(** [merged_into] is set on merged anchors only, and names an anchor of the
    table with a lower id. *)
Definition merged_into_ok (t : gmap AnchorId Anchor) (i : AnchorId) (a : Anchor) : Prop :=
  match merged_into a with
  | Some c => state a = merged /\ c < i /\ is_Some (t !! c)
  | None => state a <> merged
  end.

(** The new value [a'] of an anchor is a legal successor of what the table
    holds: a new anchor starts pending at version 0; an anchor of the table
    changes only while it is pending or confirmed, and its version goes up
    by one. *)
Definition change_ok (t : gmap AnchorId Anchor) (a' : Anchor) : Prop :=
  match t !! aid a' with
  | Some a => live a = true /\ version a' = S (version a)
  | None => version a' = 0 /\ state a' = pending
  end
  /\ merged_into_ok t (aid a') a'.

(** A plan changes each anchor at most once, each change a legal one. *)
Definition plan_ok (t : gmap AnchorId Anchor) (changes : list Change) : Prop :=
  NoDup (aid ∘ change_anchor <$> changes)
  /\ Forall (fun ch => change_ok t (change_anchor ch)) changes.

(** What holds of every store the operations build. *)
Record store_ok (st : AnchorStore) : Prop := {
  ok_keys : forall i a, table st !! i = Some a -> aid a = i;
  ok_merged : forall i a, table st !! i = Some a -> merged_into_ok (table st) i a;
  ok_sequences :
    sequence <$> wal (engine st) = seq 1 (length (wal (engine st)));
  ok_next : next_sequence (engine st) = S (length (wal (engine st)));
  ok_logged :
    forall r, r ∈ wal (engine st) ->
      log_anchor_id r = aid (after r)
      /\ exists a, table st !! log_anchor_id r = Some a
                   /\ version (after r) <= version a;
  ok_order :
    forall j k rj rk,
      wal (engine st) !! j = Some rj -> wal (engine st) !! k = Some rk ->
      j < k -> log_anchor_id rj = log_anchor_id rk ->
      version (after rj) < version (after rk)
}.

(** The cluster property of sections 3 and 8 of the specification, on a
    pair: of two distinct shared anchors within the merge radius of each
    other, if one is pending or confirmed the other is merged into it. *)
Definition single_live_per_cluster (pol : Policy) (t : gmap AnchorId Anchor) : Prop :=
  forall i j a b,
    i <> j -> t !! i = Some a -> t !! j = Some b ->
    is_shared a = true -> is_shared b = true ->
    within (merge_radius pol) (position (pose a)) (position (pose b)) = true ->
    live a = true ->
    state b = merged /\ merged_into b = Some i.

(** A shared observation by [session] at [(x, y, 0)]. *)
Definition observe_at (session : SessionId) (x y c t : float) : Observation :=
  {| candidate_id := None;
     obs_pose := {| position := {| px := x; py := y; pz := 0 |};
                    orientation := upright |};
     obs_confidence := c;
     obs_timestamp := t;
     session_id := session;
     region_hint := None;
     obs_visibility := shared |}.

(** Three observations: an anchor at the origin, one at (-0.25, 0.4375, 0),
    more than the merge radius 0.5 away from it, and a third observation at
    (0.25, 0.4375, 0), which is within 0.5 of the second anchor only. *)
Definition drift_commands : list Command :=
  [ SubmitObservation (observe_at 1 0 0 0.5 10);
    SubmitObservation (observe_at 1 (-0.25) 0.4375 0.5 11);
    SubmitObservation (observe_at 2 0.25 0.4375 0.5 12) ].

(** Two anchors 0.75 apart on the x axis, then an observation between them,
    within 0.5 of both. *)
Definition bridge_commands : list Command :=
  [ SubmitObservation (observe_at 1 0 0 0.5 10);
    SubmitObservation (observe_at 1 0.75 0 0.5 11) ].

Definition bridge_observation : Observation := observe_at 2 0.375 0 0.5 12.

(** *** What holds of the service as a whole *)

(** An event stands for a record of the log. *)
Definition logged (st : AnchorStore) (p : Published) : Prop :=
  exists r, r ∈ wal (engine st) /\ event_of p r.

(** The events the synchronization manager holds: in its backlog, or
    delivered to or queued for one of its sessions. *)
Definition held (sm : SynchronizationManager) (p : Published) : Prop :=
  p ∈ backlog sm
  \/ exists sid s, sessions sm !! sid = Some s /\ p ∈ (delivered s ++ queue s)%list.

(** Backlog and sessions are in strictly increasing sequence order; for a
    session that covers what was delivered followed by what is queued. *)
Definition in_sequence_order (sm : SynchronizationManager) : Prop :=
  StronglySorted lt (pub_sequence <$> backlog sm)
  /\ forall sid s, sessions sm !! sid = Some s ->
       StronglySorted lt (pub_sequence <$> (delivered s ++ queue s)%list).

Record system_ok (sys : System) : Prop := {
  sys_store : store_ok (store sys);
  sys_logged : forall p, held (sync sys) p -> logged (store sys) p;
  sys_order : in_sequence_order (sync sys)
}.

(** What the persistence engine holds recovers the table: every record is
    intact, replaying the whole log from the empty table gives the table,
    and every snapshot is intact, older than the next sequence, and gives
    the table when the records after it are replayed on it. *)
Record recoverable (pol : Policy) (st : AnchorStore) : Prop := {
  rec_records : forall r, r ∈ wal (engine st) -> record_intact pol r = true;
  rec_log :
    replay pol 1 ∅ (wal (engine st))
    = inr (table st, next_sequence (engine st));
  rec_snapshots :
    forall s, s ∈ snapshots (engine st) ->
      snapshot_intact pol s = true
      /\ snapshot_sequence s < next_sequence (engine st)
      /\ replay pol (S (snapshot_sequence s)) (snapshot_table s)
           (List.filter (fun r => (snapshot_sequence s <? sequence r)%nat)
              (wal (engine st)))
         = inr (table st, next_sequence (engine st))
}.

(** A session connects and subscribes around the origin, two observations
    of one anchor are committed, and both events are delivered. *)
Definition sample_region : Region := {| center := origin; radius := 2 |}.

Definition sample_actions : list Action :=
  [ Connect 7;
    Subscribe 7 sample_region 0;
    Mutate (SubmitObservation (observe_at 1 0 0 0.5 10));
    Mutate (SubmitObservation (observe_at 2 0.125 0 0.5 11));
    Deliver 7;
    Deliver 7 ].

(** The sample run, a snapshot, and one more observation. *)
Definition sample_actions_with_snapshot : list Action :=
  (sample_actions
   ++ [ TakeSnapshot;
        Mutate (SubmitObservation (observe_at 3 1.5 0 0.5 12)) ])%list.

End Core.
(** ** cloud_anchor_service/main.py: the probes of [/health] *)

Module CloudAnchorAnswers.
Import CloudAnchorService.



End CloudAnchorAnswers.

(** ** Python values, exceptions and coroutines of the other modules *)

Module Py.

(** The class of an exception, as far as an [except] clause or FastAPI
    tells classes apart. [HTTPException] carries the status code and the
    detail it was built with. *)
Inductive exn_class :=
| HTTPException (status_code : nat) (detail : string)
| AttributeError
| TypeError
| KeyError
| ValueError
| OtherError (class_name : string).

(** An exception, that is an instance of [Exception]: its class and what
    [str(e)] gives. What is raised outside [Exception] comes with [Aio]. *)
Record exn := { class_of : exn_class; str : string }.

(** The outcome of a call: it returns or it raises. *)
Inductive result (A : Type) :=
| Return (a : A)
| Raise (e : exn).
Arguments Return {A} a.
Arguments Raise {A} e.

(** The values that cross the modelled code: results of the calls on the
    collaborating objects, request fields, JSON bodies. [VObject] is an
    instance of a class that is not modelled, named by a label. *)
#[warnings="-register-all"]
Inductive value :=
| VNone
| VBool (b : bool)
| VInt (z : Z)
| VFloat (f : float)
| VStr (s : string)
| VList (items : list value)
| VDict (items : list (string * value))
| VObject (label : string).

(** [bool(v)], the test of [if v:]. An instance of an unmodelled class is
    taken to define neither [__bool__] nor [__len__]. *)
Definition truthy (v : value) : bool :=
  match v with
  | VNone => false
  | VBool b => b
  | VInt z => negb (z =? 0)%Z
  | VFloat f => negb (PrimFloat.eqb f 0%float)
  | VStr s => negb (String.eqb s EmptyString)
  | VList items => match items with [] => false | _ => true end
  | VDict items => match items with [] => false | _ => true end
  | VObject _ => true
  end.

(** The entry of a key in the items of a dict. *)
Fixpoint lookup_item (key : string) (items : list (string * value)) : option value :=
  match items with
  | [] => None
  | (k, v) :: rest => if String.eqb k key then Some v else lookup_item key rest
  end.

(** The single quote of [repr]. *)
Definition sq : string := String (ascii_of_nat 39) EmptyString.

(** [type(v).__name__] *)
Definition type_name (v : value) : string :=
  match v with
  | VNone => "NoneType"
  | VBool _ => "bool"
  | VInt _ => "int"
  | VFloat _ => "float"
  | VStr _ => "str"
  | VList _ => "list"
  | VDict _ => "dict"
  | VObject label => label
  end.

(** The exception of a failed attribute lookup [v.name]. *)
Definition attribute_error (v : value) (name : string) : exn :=
  {| class_of := AttributeError;
     str := sq ++ type_name v ++ sq ++ " object has no attribute "
            ++ sq ++ name ++ sq |}.

(** [v.get(key, dflt)]: the dict method. The other built-in types have
    no attribute [get], and an instance of an unmodelled class is taken to
    have none either: the lookup raises. *)
Definition get (v : value) (key : string) (dflt : value) : result value :=
  match v with
  | VDict items => Return (default dflt (lookup_item key items))
  | _ => Raise (attribute_error v "get")
  end.

(** [v[key]] for a string key: the entry of a dict, [KeyError] when the
    key is missing ([str(e)] is the [repr] of the key), [TypeError] on
    any other value (an instance of an unmodelled class is taken to
    define no [__getitem__]); the text of that [TypeError] differs
    between the types and the Python versions and is left to
    [subscript_message]. *)
Definition getitem (subscript_message : value -> string) (v : value)
    (key : string) : result value :=
  match v with
  | VDict items =>
      match lookup_item key items with
      | Some x => Return x
      | None => Raise {| class_of := KeyError; str := sq ++ key ++ sq |}
      end
  | _ => Raise {| class_of := TypeError; str := subscript_message v |}
  end.

(** [key in v] for a dict. The modelled code asks it only of values on
    which [get] has returned, which are dicts. *)
Definition contains (items : list (string * value)) (key : string) : bool :=
  bool_decide (is_Some (lookup_item key items)).

(** The levels of the [logging] calls. *)
Inductive level := DEBUG | INFO | WARNING | ERROR.

Section Coroutines.

(** The calls a module makes on objects whose classes are not modelled
    (with the arguments it passes), and the module's globals. This is
    the monad of the code whose [try] blocks make synchronous calls only;
    the coroutines that [await] or [yield] inside a [try] block run in
    [Aio]. *)
Variable Call : Type.
Variable Globals : Type.

(** The calls made so far, oldest first, each with what it answered. *)
Definition Trace : Type := list (Call * result value).

(** What such a call returns or raises is for the surroundings to say:
    it may depend on the call and on everything that happened before. *)
Variable respond : Trace -> Call -> result value.

(** The state a coroutine runs on: the module's globals, the calls made
    so far on the collaborating objects, and the records written to the
    module's logger. *)
Record World := {
  globals : Globals;
  calls : Trace;
  logger : list (level * string)
}.

Definition M (A : Type) : Type := World -> result A * World.

Definition ret {A} (a : A) : M A := fun w => (Return a, w).

Definition raise {A} (e : exn) : M A := fun w => (Raise e, w).

Definition bind {A B} (m : M A) (k : A -> M B) : M B :=
  fun w =>
    match m w with
    | (Return a, w') => k a w'
    | (Raise e, w') => (Raise e, w')
    end.

(** The result of a pure step: its value, or its exception raised. *)
Definition lift {A} (r : result A) : M A := fun w => (r, w).

(** [try: body / except Exception as e: handler e] *)
Definition try_except {A} (body : M A) (handler : exn -> M A) : M A :=
  fun w =>
    match body w with
    | (Return a, w') => (Return a, w')
    | (Raise e, w') => handler e w'
    end.

(** [try: body / except SomeClass: handler]: only the exceptions the
    clause names are caught. *)
Definition try_except_if {A} (caught : exn -> bool) (body : M A) (handler : exn -> M A) : M A :=
  fun w =>
    match body w with
    | (Return a, w') => (Return a, w')
    | (Raise e, w') => if caught e then handler e w' else (Raise e, w')
    end.

(** [try: body / finally: cleanup]: the cleanup runs either way; when it
    raises, its exception is the one that leaves the statement. *)
Definition try_finally {A} (body : M A) (cleanup : M unit) : M A :=
  fun w =>
    match body w with
    | (r, w') =>
        match cleanup w' with
        | (Return _, w'') => (r, w'')
        | (Raise e, w'') => (Raise e, w'')
        end
    end.

(** A call on a collaborating object: it is recorded, and returns or
    raises what the surroundings answer. *)
Definition call (c : Call) : M value :=
  fun w =>
    (respond (calls w) c,
     {| globals := globals w;
        calls := (calls w ++ [(c, respond (calls w) c)])%list;
        logger := logger w |}).

(** [logger.info(msg)], [logger.warning(msg)], ... *)
Definition log (lvl : level) (line : string) : M unit :=
  fun w =>
    (Return tt,
     {| globals := globals w;
        calls := calls w;
        logger := (logger w ++ [(lvl, line)])%list |}).

(** Reading the globals. *)
Definition read {A} (f : Globals -> A) : M A :=
  fun w => (Return (f (globals w)), w).

(** Assigning to the globals. *)
Definition assign (f : Globals -> Globals) : M unit :=
  fun w =>
    (Return tt,
     {| globals := f (globals w);
        calls := calls w;
        logger := logger w |}).

End Coroutines.

Arguments Trace Call : clear implicits.

Arguments globals {Call Globals} w.
Arguments calls {Call Globals} w.
Arguments logger {Call Globals} w.
Arguments ret {Call Globals A} a w.
Arguments raise {Call Globals A} e w.
Arguments bind {Call Globals A B} m k w.
Arguments lift {Call Globals A} r w.
Arguments try_except {Call Globals A} body handler w.
Arguments try_except_if {Call Globals A} caught body handler w.
Arguments try_finally {Call Globals A} body cleanup w.
Arguments call {Call Globals} respond c w.
Arguments log {Call Globals} lvl line w.
Arguments read {Call Globals A} f w.
Arguments assign {Call Globals} f w.

(** [isinstance(e, TypeError)], the test of [except TypeError]. *)
Definition is_type_error (e : exn) : bool :=
  match class_of e with TypeError => true | _ => false end.

(** [isinstance(e, ValueError)], the test of [except ValueError]. *)
Definition is_value_error (e : exn) : bool :=
  match class_of e with ValueError => true | _ => false end.

(** Whether an answer is a return. *)
Definition is_return {A} (r : result A) : bool :=
  match r with Return _ => true | Raise _ => false end.

(** The call was made. *)
Definition made {Call} `{EqDecision Call} (c : Call) (t : Trace Call) : bool :=
  existsb (fun x => bool_decide (x.1 = c)) t.

(** The call was made and returned. *)
Definition returned {Call} `{EqDecision Call} (c : Call) (t : Trace Call) : bool :=
  existsb (fun x => bool_decide (x.1 = c) && is_return x.2) t.

(** The call was made and raised. *)
Definition raised {Call} `{EqDecision Call} (c : Call) (t : Trace Call) : bool :=
  existsb (fun x => bool_decide (x.1 = c) && negb (is_return x.2)) t.

(** The calls of a trace, without their answers. *)
Definition calls_of {Call} (t : Trace Call) : list Call := t.*1.

(** The exception of the last call of a trace that raised. *)
Definition last_raised {Call} (t : Trace Call) : option exn :=
  foldl (fun acc x => match x.2 with Raise e => Some e | Return _ => acc end)
        None t.

End Py.
(** ** Coroutines whose [try] block awaits *)

Module Aio.
Import Py.

(** What a [raise] carries: an instance of [Exception] ([Py.exn]), or an
    instance of a class that is under [BaseException] but not under
    [Exception], given by the name of its class. [asyncio.CancelledError] is
    such a class since Python 3.8: it is thrown into a coroutine at the
    [await] or the [yield] it is suspended on when its task is cancelled.
    [KeyboardInterrupt], [SystemExit] and [GeneratorExit] are the others.
    An [except Exception] clause does not catch them. *)
Inductive base_exception :=
| Exception (e : exn)
| NotException (class_name : string).

(** [asyncio.CancelledError()] *)
Definition CancelledError : base_exception := NotException "CancelledError".

(** [isinstance(b, Exception)], the test of [except Exception]. *)
Definition as_exception (b : base_exception) : option exn :=
  match b with
  | Exception e => Some e
  | NotException _ => None
  end.

(** The outcome of a call or of a coroutine: it returns or it raises. *)
Inductive outcome (A : Type) :=
| Return (a : A)
| Raise (b : base_exception).
Arguments Return {A} a.
Arguments Raise {A} b.

(** The outcome of a step that raises instances of [Exception] only. *)
Definition of_result {A} (r : result A) : outcome A :=
  match r with
  | Py.Return a => Return a
  | Py.Raise e => Raise (Exception e)
  end.

Section Coroutines.

(** The calls a module makes on objects whose classes are not modelled,
    awaited or not, and the module's globals. *)
Variable Call : Type.
Variable Globals : Type.

(** The calls made so far, oldest first, each with what it answered. *)
Definition Trace : Type := list (Call * outcome value).

(** What a call returns or raises is for the surroundings to say: it
    may depend on the call and on everything that happened before, and
    what it raises need not be an [Exception]. *)
Variable respond : Trace -> Call -> outcome value.

(** The state a coroutine runs on: the module's globals, the calls made
    so far on the collaborating objects, and the records written to the
    module's logger. *)
Record World := {
  globals : Globals;
  calls : Trace;
  logger : list (level * string)
}.

Definition M (A : Type) : Type := World -> outcome A * World.

Definition ret {A} (a : A) : M A := fun w => (Return a, w).

(** [raise e] of an [Exception]. *)
Definition raise {A} (e : exn) : M A := fun w => (Raise (Exception e), w).

Definition bind {A B} (m : M A) (k : A -> M B) : M B :=
  fun w =>
    match m w with
    | (Return a, w') => k a w'
    | (Raise b, w') => (Raise b, w')
    end.

(** The result of a pure step: its value, or its exception raised. *)
Definition lift {A} (r : result A) : M A := fun w => (of_result r, w).

(** [try: body / except Exception as e: handler e]: what is raised
    outside [Exception] passes the clause. *)
Definition try_except {A} (body : M A) (handler : exn -> M A) : M A :=
  fun w =>
    match body w with
    | (Return a, w') => (Return a, w')
    | (Raise (Exception e), w') => handler e w'
    | (Raise (NotException class_name), w') => (Raise (NotException class_name), w')
    end.

(** [try: body / finally: cleanup]: the cleanup runs either way; when it
    raises, what it raises is what leaves the statement. *)
Definition try_finally {A} (body : M A) (cleanup : M unit) : M A :=
  fun w =>
    match body w with
    | (r, w') =>
        match cleanup w' with
        | (Return _, w'') => (r, w'')
        | (Raise b, w'') => (Raise b, w'')
        end
    end.

(** A call on a collaborating object, [await]ed or not: it is recorded,
    and returns or raises what the surroundings answer. *)
Definition call (c : Call) : M value :=
  fun w =>
    (respond (calls w) c,
     {| globals := globals w;
        calls := (calls w ++ [(c, respond (calls w) c)])%list;
        logger := logger w |}).

(** [logger.info(msg)], [logger.warning(msg)], ... *)
Definition log (lvl : level) (line : string) : M unit :=
  fun w =>
    (Return tt,
     {| globals := globals w;
        calls := calls w;
        logger := (logger w ++ [(lvl, line)])%list |}).

(** Reading the globals. *)
Definition read {A} (f : Globals -> A) : M A :=
  fun w => (Return (f (globals w)), w).

(** Assigning to the globals. *)
Definition assign (f : Globals -> Globals) : M unit :=
  fun w =>
    (Return tt,
     {| globals := f (globals w);
        calls := calls w;
        logger := logger w |}).

End Coroutines.

Arguments Trace Call : clear implicits.

Arguments globals {Call Globals} w.
Arguments calls {Call Globals} w.
Arguments logger {Call Globals} w.
Arguments ret {Call Globals A} a w.
Arguments raise {Call Globals A} e w.
Arguments bind {Call Globals A B} m k w.
Arguments lift {Call Globals A} r w.
Arguments try_except {Call Globals A} body handler w.
Arguments try_finally {Call Globals A} body cleanup w.
Arguments call {Call Globals} respond c w.
Arguments log {Call Globals} lvl line w.
Arguments read {Call Globals A} f w.
Arguments assign {Call Globals} f w.

(** Whether an answer is a return. *)
Definition is_return {A} (r : outcome A) : bool :=
  match r with Return _ => true | Raise _ => false end.

(** What passes an [except Exception] clause: the class of what an
    answer raised outside [Exception]. *)
Definition passes {A} (r : outcome A) : option string :=
  match r with
  | Raise (NotException class_name) => Some class_name
  | _ => None
  end.

(** The call was made. *)
Definition made {Call} `{EqDecision Call} (c : Call) (t : Trace Call) : bool :=
  existsb (fun x => bool_decide (x.1 = c)) t.

(** The call was made and returned. *)
Definition returned {Call} `{EqDecision Call} (c : Call) (t : Trace Call) : bool :=
  existsb (fun x => bool_decide (x.1 = c) && is_return x.2) t.

(** The call was made and raised. *)
Definition raised {Call} `{EqDecision Call} (c : Call) (t : Trace Call) : bool :=
  existsb (fun x => bool_decide (x.1 = c) && negb (is_return x.2)) t.

(** The calls of a trace, without their answers. *)
Definition calls_of {Call} (t : Trace Call) : list Call := t.*1.

(** What the last call of a trace that raised has raised. *)
Definition last_raised {Call} (t : Trace Call) : option base_exception :=
  foldl (fun acc x => match x.2 with Raise b => Some b | Return _ => acc end)
        None t.

End Aio.

(** ** cloud_anchor_service/main.py: lifespan and the dependency getters *)

Module CloudAnchorLifespan.
Import Py Aio.

(** What [lifespan] calls outside the module: the constructors of the
    three managers and their [initialize()] and [shutdown()],
    [setup_metrics()], [set_services(...)], the attribute
    [anchor_manager.anchor_count], and [Yield], the suspension at [yield]
    while the application runs: it returns when the application shuts
    down, and raises what the application throws into the context
    manager. The [initialize()] and [shutdown()] calls are awaited: the
    task may be cancelled while it waits for them, as it may at the
    [yield]. *)
Inductive Call :=
| NewPersistenceEngine
| InitializePersistenceEngine
| NewAnchorManager
| InitializeAnchorManager
| NewSynchronizationManager
| InitializeSynchronizationManager
| SetupMetrics
| SetServices
| AnchorCount
| Yield
| ShutdownSynchronizationManager
| ShutdownAnchorManager
| ShutdownPersistenceEngine.

#[global] Instance Call_eq_dec : EqDecision Call.
Proof. solve_decision. Defined.

(** The three module globals: whether each holds a manager ([True] in an
    [if], as in [CloudAnchorService.truthy]) or still [None]. *)
Record Globals := {
  anchor_manager : bool;
  persistence_engine : bool;
  sync_manager : bool
}.

(** The module as imported: [anchor_manager = None] and so on. *)
Definition unset : Globals :=
  {| anchor_manager := false; persistence_engine := false; sync_manager := false |}.

Definition set_persistence_engine (g : Globals) : Globals :=
  {| anchor_manager := anchor_manager g;
     persistence_engine := true;
     sync_manager := sync_manager g |}.

Definition set_anchor_manager (g : Globals) : Globals :=
  {| anchor_manager := true;
     persistence_engine := persistence_engine g;
     sync_manager := sync_manager g |}.

Definition set_sync_manager (g : Globals) : Globals :=
  {| anchor_manager := anchor_manager g;
     persistence_engine := persistence_engine g;
     sync_manager := true |}.

Section Lifespan.

Variable respond : Trace Call -> Call -> outcome value.

(** The text an f-string gives for a value. *)
Variable format : value -> string.

Definition M := Aio.M Call Globals.

(** [name = Class(...)]: the global is assigned when the constructor
    has returned. *)
Definition construct (c : Call) (set : Globals -> Globals) : M unit :=
  bind (call respond c) (fun _ => assign set).

(** [await obj.method()] as a statement. *)
Definition await (c : Call) : M unit :=
  bind (call respond c) (fun _ => ret tt).

(** The body of the [try], up to and including the [yield]. *)
Definition startup : M unit :=
  bind (construct NewPersistenceEngine set_persistence_engine) (fun _ =>
  bind (await InitializePersistenceEngine) (fun _ =>
  bind (construct NewAnchorManager set_anchor_manager) (fun _ =>
  bind (await InitializeAnchorManager) (fun _ =>
  bind (construct NewSynchronizationManager set_sync_manager) (fun _ =>
  bind (await InitializeSynchronizationManager) (fun _ =>
  bind (await SetupMetrics) (fun _ =>
  bind (await SetServices) (fun _ =>
  bind (call respond AnchorCount) (fun count =>
  bind (log INFO ("Anchor service ready - " ++ format count ++ " anchors loaded"))
    (fun _ =>
  await Yield)))))))))).

(** The [except Exception as e] clause: log and re-raise. What the
    [try] block raises outside [Exception] does not come here. *)
Definition startup_failed (e : exn) : M unit :=
  bind (log ERROR ("Anchor service startup failed - persistence layer error: "
                   ++ str e)) (fun _ =>
  raise e).

(** [if obj: await obj.shutdown()] *)
Definition shutdown_if (present : Globals -> bool) (c : Call) : M unit :=
  bind (read present) (fun set => if set then await c else ret tt).

(** The [finally] clause. *)
Definition shutdown : M unit :=
  bind (log INFO "Flushing anchor cache and closing sync channels") (fun _ =>
  bind (shutdown_if sync_manager ShutdownSynchronizationManager) (fun _ =>
  bind (shutdown_if anchor_manager ShutdownAnchorManager) (fun _ =>
  shutdown_if persistence_engine ShutdownPersistenceEngine))).

(** The context manager from entry to exit. *)
Definition lifespan : M unit :=
  bind (log INFO "Initializing cloud anchor persistence layer") (fun _ =>
  try_finally (try_except startup startup_failed) shutdown).

End Lifespan.

(** The calls of a start that goes through, in the order of the source. *)
Definition startup_sequence : list Call :=
  [ NewPersistenceEngine; InitializePersistenceEngine;
    NewAnchorManager; InitializeAnchorManager;
    NewSynchronizationManager; InitializeSynchronizationManager;
    SetupMetrics; SetServices; AnchorCount; Yield ].

(** The [shutdown()] calls, in the order of the [finally] clause. *)
Definition shutdown_sequence : list Call :=
  [ ShutdownSynchronizationManager; ShutdownAnchorManager;
    ShutdownPersistenceEngine ].

(** Whether a call is one of the [shutdown()] calls. *)
Definition is_shutdown (c : Call) : bool := bool_decide (c ∈ shutdown_sequence).

(** What a call of the [try] block raised, [yield] included. *)
Definition startup_error (t : Trace Call) : option base_exception :=
  last_raised (List.filter (fun x => negb (is_shutdown x.1)) t).

(** The globals when the three managers are set. *)
Definition all_set : Globals :=
  {| anchor_manager := true; persistence_engine := true; sync_manager := true |}.

(** The records of level [ERROR] among log records. *)
Definition errors (l : list (level * string)) : list string :=
  omap (fun x => match x.1 with ERROR => Some x.2 | _ => None end) l.

Section Getters.

(** What [str(e)] gives for an [HTTPException] is the library's to say. *)
Variable http_str : nat -> string -> string.


Context {AM PE SM : Type}.




End Getters.

(** A start that goes through, then a clean stop; a start whose
    persistence engine fails to initialize; and a start that goes through,
    with the task cancelled while the application runs. *)
Definition sample_respond_ok (t : Trace Call) (c : Call) : outcome value :=
  match c with
  | AnchorCount => Return (VInt 12)
  | _ => Return VNone
  end.

Definition sample_respond_failing (t : Trace Call) (c : Call) : outcome value :=
  match c with
  | InitializePersistenceEngine =>
      Raise (Exception {| class_of := OtherError "ConnectionError";
                          str := "database unreachable" |})
  | ShutdownPersistenceEngine =>
      Raise (Exception {| class_of := OtherError "RuntimeError";
                          str := "engine was never opened" |})
  | _ => Return VNone
  end.

Definition sample_respond_cancelled (t : Trace Call) (c : Call) : outcome value :=
  match c with
  | Yield => Raise CancelledError
  | _ => sample_respond_ok t c
  end.

Definition sample_format (v : value) : string :=
  match v with
  | VInt z => pretty z
  | VStr s => s
  | _ => "None"
  end.

Definition fresh_world : World Call Globals :=
  {| globals := unset; calls := []; logger := [] |}.

(** The module after a run of [lifespan] that got as far as constructing
    the persistence engine: the global still holds that engine. *)
Definition stale_world : World Call Globals :=
  {| globals := set_persistence_engine unset; calls := []; logger := [] |}.

(** A start whose first constructor raises. *)
Definition sample_respond_no_engine (t : Trace Call) (c : Call) : outcome value :=
  match c with
  | NewPersistenceEngine =>
      Raise (Exception {| class_of := OtherError "OSError";
                          str := "data directory missing" |})
  | _ => Return VNone
  end.

End CloudAnchorLifespan.
(** ** cloud_anchor_service/main.py: [/health] and [/metrics], call by call *)

Module CloudAnchorHandlers.
Import Py Aio.

(** What the two handlers call outside the module: [health_check()] and
    [get_metrics()] of the three managers, all six awaited. *)
Inductive Call :=
| AnchorManagerHealthCheck
| PersistenceEngineHealthCheck
| SyncManagerHealthCheck
| AnchorManagerGetMetrics
| PersistenceEngineGetMetrics
| SyncManagerGetMetrics.

#[global] Instance Call_eq_dec : EqDecision Call.
Proof. solve_decision. Defined.

(** The three module globals, as in [lifespan]: whether each holds a
    manager ([True] in an [if]) or still [None]. *)
Definition Globals : Type := CloudAnchorLifespan.Globals.

(** A JSON answer: the status code and the body, key by key. A returned
    dict is served with status 200. *)
Record Response := {
  status_code : nat;
  content : list (string * value)
}.

Section Handlers.

Variable respond : Trace Call -> Call -> outcome value.

(** The text an f-string gives for a value, and what the handlers read
    from the process: [os.getenv], [time.time()] and
    [datetime.utcnow().isoformat()]. *)
Variable format : value -> string.
Variable env : CloudAnchorService.Env.

Definition M := Aio.M Call Globals.

(** *** GET /health *)

(** [services_status[name] = await obj.health_check() if obj else False]:
    the entry is whatever [health_check()] returns. *)
Definition probe (present : Globals -> bool) (c : Call) : M value :=
  bind (read present) (fun set : bool =>
  if set then call respond c else ret (VBool false)).

Definition health_check_try : M Response :=
  bind (probe CloudAnchorLifespan.anchor_manager AnchorManagerHealthCheck) (fun a =>
  bind (probe CloudAnchorLifespan.persistence_engine PersistenceEngineHealthCheck)
    (fun p =>
  bind (probe CloudAnchorLifespan.sync_manager SyncManagerHealthCheck) (fun s =>
  let services_status :=
    [("anchor_manager", a); ("persistence_engine", p); ("sync_manager", s)] in
  let services_healthy := forallb (fun x => truthy x.2) services_status in
  if services_healthy then
    ret {| status_code := 200;
           content := [ ("status", VStr "healthy");
                        ("service", VStr "cloud-anchor-service");
                        ("version", VStr "1.0.0");
                        ("endpoint", VStr "health");
                        ("logging", VStr "enabled");
                        ("timestamp", VStr (CloudAnchorService.utcnow_isoformat env));
                        ("services", VDict services_status) ] |}
  else
    ret {| status_code := 503;
           content := [ ("status", VStr "unhealthy");
                        ("service", VStr "cloud-anchor-service");
                        ("endpoint", VStr "health");
                        ("logging", VStr "enabled");
                        ("services", VDict services_status);
                        ("timestamp", VStr (CloudAnchorService.utcnow_isoformat env)) ] |}))).

Definition health_check_except (e : exn) : M Response :=
  bind (log ERROR ("Health check failed: " ++ str e)) (fun _ =>
  ret {| status_code := 503;
         content := [ ("status", VStr "unhealthy");
                      ("service", VStr "cloud-anchor-service");
                      ("endpoint", VStr "health");
                      ("logging", VStr "enabled");
                      ("error", VStr (str e));
                      ("timestamp", VStr (CloudAnchorService.utcnow_isoformat env)) ] |}).

Definition health_check : M Response :=
  try_except health_check_try health_check_except.

(** *** GET /metrics *)

(** [metrics.get(key, 0)] in an f-string, for the items of a dict. *)
Definition entry (items : list (string * value)) (key : string) : string :=
  format (default (VInt 0) (lookup_item key items)).

(** The lines built from the result of a [get_metrics()]. The keys are
    read with [.get]: on a result that is no dict the first [.get]
    raises, before any line is appended. *)
Definition anchor_metric_lines (anchor_metrics : value) : result (list string) :=
  match anchor_metrics with
  | VDict items =>
      Py.Return
        (CloudAnchorService.metric_lines "spatial_cloud_anchors_total"
           "Total number of anchors" "gauge" (entry items "total_anchors")
         ++ CloudAnchorService.metric_lines "spatial_cloud_anchors_sessions"
              "Active anchor sessions" "gauge" (entry items "active_sessions"))%list
  | _ => Py.Raise (attribute_error anchor_metrics "get")
  end.

Definition persistence_metric_lines (persistence_metrics : value) :
    result (list string) :=
  match persistence_metrics with
  | VDict items =>
      Py.Return
        (CloudAnchorService.metric_lines "spatial_cloud_anchors_storage_bytes"
           "Storage used in bytes" "gauge" (entry items "storage_bytes"))
  | _ => Py.Raise (attribute_error persistence_metrics "get")
  end.

Definition sync_metric_lines (sync_metrics : value) : result (list string) :=
  match sync_metrics with
  | VDict items =>
      Py.Return
        (CloudAnchorService.metric_lines
           "spatial_cloud_anchors_sync_operations_total"
           "Total sync operations" "counter"
           (entry items "sync_operations_total"))
  | _ => Py.Raise (attribute_error sync_metrics "get")
  end.

(** One [if obj: try: ... except Exception as e: logger.warning(...)]
    block: the lines it appends to [metrics_output]. *)
Definition metrics_block (present : Globals -> bool) (c : Call)
    (lines : value -> result (list string)) (failure : string) : M (list string) :=
  bind (read present) (fun set : bool =>
  if set then
    try_except
      (bind (call respond c) (fun metrics => lift (lines metrics)))
      (fun e => bind (log WARNING (failure ++ str e)) (fun _ => ret []))
  else ret []).

Definition info_lines : list string :=
  [ "# HELP spatial_cloud_anchors_info Cloud anchor service information";
    "# TYPE spatial_cloud_anchors_info gauge";
    "spatial_cloud_anchors_info{version=" ++ CloudAnchorService.dq ++ "1.0.0"
      ++ CloudAnchorService.dq ++ ",environment=" ++ CloudAnchorService.dq
      ++ default "development" (CloudAnchorService.getenv env "ENVIRONMENT")
      ++ CloudAnchorService.dq ++ "} 1" ].

(** [service_up = 1 if (anchor_manager and persistence_engine and
    sync_manager) else 0] and its three lines. *)
Definition service_up (g : Globals) : bool :=
  CloudAnchorLifespan.anchor_manager g
  && CloudAnchorLifespan.persistence_engine g
  && CloudAnchorLifespan.sync_manager g.

Definition up_lines (up : bool) : list string :=
  CloudAnchorService.metric_lines "spatial_cloud_anchors_up"
    "Service availability" "gauge" (if up then "1" else "0").

Definition stamp_lines : list string :=
  CloudAnchorService.metric_lines "spatial_cloud_anchors_last_update_timestamp"
    "Last metrics update" "gauge" (CloudAnchorService.time_time env).

Definition prometheus_metrics_try : M string :=
  bind (read service_up) (fun up : bool =>
  bind (metrics_block CloudAnchorLifespan.anchor_manager AnchorManagerGetMetrics
          anchor_metric_lines "Failed to get anchor metrics: ")
    (fun anchor_lines =>
  bind (metrics_block CloudAnchorLifespan.persistence_engine
          PersistenceEngineGetMetrics persistence_metric_lines
          "Failed to get persistence metrics: ")
    (fun storage_lines =>
  bind (metrics_block CloudAnchorLifespan.sync_manager SyncManagerGetMetrics
          sync_metric_lines "Failed to get sync metrics: ")
    (fun sync_lines =>
  ret (CloudAnchorService.join_lines
         (info_lines ++ up_lines up ++ anchor_lines ++ storage_lines
          ++ sync_lines ++ stamp_lines)%list))))).

Definition prometheus_metrics_except (e : exn) : M string :=
  bind (log ERROR ("Metrics generation failed: " ++ str e)) (fun _ =>
  ret (CloudAnchorService.join_lines
         [ "# HELP spatial_cloud_anchors_metrics_errors_total Metrics generation errors";
           "# TYPE spatial_cloud_anchors_metrics_errors_total counter";
           "spatial_cloud_anchors_metrics_errors_total 1";
           "# Error: " ++ str e ])).

Definition prometheus_metrics : M string :=
  try_except prometheus_metrics_try prometheus_metrics_except.

End Handlers.

(** The [health_check()] calls in the order of [/health], the
    [get_metrics()] calls in the order of [/metrics]. *)
Definition health_checks : list Call :=
  [ AnchorManagerHealthCheck; PersistenceEngineHealthCheck; SyncManagerHealthCheck ].

Definition metrics_calls : list Call :=
  [ AnchorManagerGetMetrics; PersistenceEngineGetMetrics; SyncManagerGetMetrics ].

(** Whether the global of the manager a call goes to is set. *)
Definition present (g : Globals) (c : Call) : bool :=
  match c with
  | AnchorManagerHealthCheck | AnchorManagerGetMetrics =>
      CloudAnchorLifespan.anchor_manager g
  | PersistenceEngineHealthCheck | PersistenceEngineGetMetrics =>
      CloudAnchorLifespan.persistence_engine g
  | SyncManagerHealthCheck | SyncManagerGetMetrics =>
      CloudAnchorLifespan.sync_manager g
  end.

(** What [all(...)] sees of a [health_check()]: it returned something
    true. *)
Definition reports_healthy (answer : outcome value) : bool :=
  match answer with
  | Return ok => truthy ok
  | Raise _ => false
  end.

(** The lines [/metrics] builds from what a [get_metrics()] returns, and
    the start of the warning it logs for it. *)
Definition lines_of (format : value -> string) (c : Call) (metrics : value) :
    result (list string) :=
  match c with
  | AnchorManagerGetMetrics => anchor_metric_lines format metrics
  | PersistenceEngineGetMetrics => persistence_metric_lines format metrics
  | SyncManagerGetMetrics => sync_metric_lines format metrics
  | _ => Py.Return []
  end.

Definition failure_of (c : Call) : string :=
  match c with
  | AnchorManagerGetMetrics => "Failed to get anchor metrics: "
  | PersistenceEngineGetMetrics => "Failed to get persistence metrics: "
  | SyncManagerGetMetrics => "Failed to get sync metrics: "
  | _ => EmptyString
  end.

(** What one [get_metrics()] call adds to the output: its lines when it
    returns a dict, nothing otherwise. *)
Definition added_lines (format : value -> string) (x : Call * outcome value) :
    list string :=
  match x.2 with
  | Return metrics =>
      match lines_of format x.1 metrics with
      | Py.Return lines => lines
      | Py.Raise _ => []
      end
  | Raise _ => []
  end.

(** What one [get_metrics()] call adds to the log: the warning of the
    inner [except Exception], for an [Exception] it raised and for the
    [AttributeError] of a result that is no dict. *)
Definition added_warning (format : value -> string) (x : Call * outcome value) :
    list (level * string) :=
  match x.2 with
  | Return metrics =>
      match lines_of format x.1 metrics with
      | Py.Return _ => []
      | Py.Raise e => [(WARNING, failure_of x.1 ++ str e)]
      end
  | Raise (Exception e) => [(WARNING, failure_of x.1 ++ str e)]
  | Raise (NotException _) => []
  end.

(** The 503 answer of [/health] to an exception. *)
Definition health_error_response (env : CloudAnchorService.Env) (e : exn) : Response :=
  {| status_code := 503;
     content := [ ("status", VStr "unhealthy");
                  ("service", VStr "cloud-anchor-service");
                  ("endpoint", VStr "health");
                  ("logging", VStr "enabled");
                  ("error", VStr (str e));
                  ("timestamp", VStr (CloudAnchorService.utcnow_isoformat env)) ] |}.

(** A service to run the handlers on: the anchor manager reports 1 for
    health and a dict with one of its two keys; the persistence engine
    returns [None] from both methods; the synchronization manager raises
    in both. *)
Definition sample_respond (t : Trace Call) (c : Call) : outcome value :=
  match c with
  | AnchorManagerHealthCheck => Return (VInt 1)
  | AnchorManagerGetMetrics => Return (VDict [("total_anchors", VInt 3)])
  | PersistenceEngineHealthCheck | PersistenceEngineGetMetrics => Return VNone
  | SyncManagerHealthCheck | SyncManagerGetMetrics =>
      Raise (Exception {| class_of := OtherError "ConnectionError";
                          str := "sync channel closed" |})
  end.

Definition started_world : World Call Globals :=
  {| globals := CloudAnchorLifespan.all_set; calls := []; logger := [] |}.

End CloudAnchorHandlers.

(** ** api_gateway/telemetry/__init__.py: the telemetry global *)

Module GatewayTelemetry.
Import Py.

(** The constructors of the two monitor classes, which the package
    imports from modules that are not in the source tree. *)
Inductive Call :=
| NewRoutePerformanceMonitor
| NewSecurityMonitor.

(** The global [_gateway_telemetry]: [None], or the dict
    [initialize_gateway_telemetry] has built (its items). *)
Definition Telemetry : Type := option (list (string * value)).

Section Package.

Variable respond : Trace Call -> Call -> result value.

Definition M := Py.M Call Telemetry.

(** [initialize_gateway_telemetry()]: the dict display evaluates its
    values in order, the global is assigned, the dict is returned. *)
Definition initialize_gateway_telemetry : M (list (string * value)) :=
  bind (call respond NewRoutePerformanceMonitor) (fun route_monitor =>
  bind (call respond NewSecurityMonitor) (fun security_monitor =>
  let telemetry :=
    [("route_monitor", route_monitor); ("security_monitor", security_monitor)] in
  bind (assign (fun _ => Some telemetry)) (fun _ =>
  ret telemetry))).

(** [get_gateway_telemetry()] *)
Definition get_gateway_telemetry : M Telemetry := read (fun g => g).

End Package.

(** [if gateway_telemetry:] on [None] or a dict. *)
Definition telemetry_truthy (t : Telemetry) : bool :=
  match t with
  | Some items => truthy (VDict items)
  | None => false
  end.

(** The global as a value. *)
Definition telemetry_value (t : Telemetry) : value :=
  match t with
  | Some items => VDict items
  | None => VNone
  end.

(** Two monitors to build the dict from. *)
Definition sample_respond (t : Trace Call) (c : Call) : result value :=
  match c with
  | NewRoutePerformanceMonitor => Return (VObject "RoutePerformanceMonitor")
  | NewSecurityMonitor => Return (VObject "SecurityMonitor")
  end.

Definition package_imported : World Call Telemetry :=
  {| globals := None; calls := []; logger := [] |}.

End GatewayTelemetry.

(** ** api_gateway/app.py: the handlers *)

Module GatewayApp.
Import Py Gateway GatewayTelemetry.

(** [path.split('/')[0]]: the path up to its first slash. *)
Fixpoint first_segment (path : string) : string :=
  match path with
  | EmptyString => EmptyString
  | String c rest =>
      if Ascii.eqb c "/" then EmptyString else String c (first_segment rest)
  end.

(** A string without a slash, as every prefix [route_api_request] tests. *)
Fixpoint no_slash (p : string) : bool :=
  match p with
  | EmptyString => true
  | String c rest => negb (Ascii.eqb c "/") && no_slash rest
  end.

(** [f"api.{path.split('/')[0]}"], the route name handed to the telemetry. *)
Definition route_name (path : string) : string := "api." ++ first_segment path.

(** What the handlers call on [service_registry], [request_router] and
    [framework], objects of classes that are not in the source tree. *)
Inductive Call :=
| GetStatusSummary
| RouteRequest (request : value) (full_path : string)
| ActiveSessions.

(** The handlers assign no global. *)
Definition Globals : Type := unit.

Section Handlers.

Variable respond : Trace Call -> Call -> result value.

(** [os.getenv], [time.time()] as the handlers print them. *)
Variable env : CloudAnchorService.Env.

(** The module global [gateway_telemetry], which the module binds to
    what [initialize_gateway_telemetry()] returns, and whether
    [framework] is true in an [if]. *)
Variable gateway_telemetry : Telemetry.
Variable framework : bool.

Definition M := Py.M Call Globals.

(** [gateway_telemetry.name(...)]: the attribute is looked up on the
    global before any argument is evaluated. The global holds a dict (or
    [None]), and none of the names the handlers look up
    ([trace_route_operation], [get_route_performance_summary],
    [get_service_health_summary]) is an attribute of [dict] or of
    [NoneType]: the lookup raises, so the call has no value. *)
Definition telemetry_method (name : string) : M Empty_set :=
  raise (attribute_error (telemetry_value gateway_telemetry) name).

(** *** route_api_request *)

Definition route_api_request (path : string) (request : value) : M value :=
  let full_path := Gateway.full_path path in
  let target_service := Gateway.target_service path in
  if telemetry_truthy gateway_telemetry then
    bind (telemetry_method "trace_route_operation")
      (fun context_manager => match context_manager with end)
  else
    call respond (RouteRequest request full_path).

(** *** GET /telemetry/performance *)

Definition get_performance_metrics : M value :=
  if negb (telemetry_truthy gateway_telemetry) then
    ret (VDict [("error", VStr "Enterprise telemetry not available")])
  else
    bind (telemetry_method "get_route_performance_summary")
      (fun route_performance => match route_performance with end).

(** *** GET /telemetry/health *)

Definition get_telemetry_health : M value :=
  if negb framework then
    ret (VDict [("status", VStr "error");
                ("message", VStr "Observability framework not initialized")])
  else if negb (telemetry_truthy gateway_telemetry) then
    ret (VDict [("status", VStr "warning");
                ("message", VStr "Gateway telemetry not available")])
  else
    bind (call respond ActiveSessions) (fun active_sessions =>
    bind (telemetry_method "get_service_health_summary")
      (fun service_health => match service_health with end)).

(** *** GET /metrics *)

(** [d.values()] and [d.items()] of what [get_status_summary()] returned. *)
Definition items (v : value) (method : string) : result (list (string * value)) :=
  match v with
  | VDict entries => Return entries
  | _ => Raise (attribute_error v method)
  end.

(** [s.get('status') == 'healthy'] *)
Definition is_healthy (s : value) : result bool :=
  match get s "status" VNone with
  | Return (VStr status) => Return (String.eqb status "healthy")
  | Return _ => Return false
  | Raise e => Raise e
  end.

(** [[s for s in gateway_stats.values() if s.get('status') == 'healthy']] *)
Fixpoint healthy_services (entries : list (string * value)) :
    result (list value) :=
  match entries with
  | [] => Return []
  | (_, s) :: rest =>
      match is_healthy s with
      | Raise e => Raise e
      | Return keep =>
          match healthy_services rest with
          | Raise e => Raise e
          | Return kept => Return (if keep then s :: kept else kept)
          end
      end
  end.

(** The three lines the last loop appends for one backend service. *)
Definition service_up_lines (service_name : string) (up : bool) : list string :=
  [ "# HELP spatial_backend_service_up Backend service health status";
    "# TYPE spatial_backend_service_up gauge";
    "spatial_backend_service_up{service=" ++ CloudAnchorService.dq
      ++ service_name ++ CloudAnchorService.dq ++ "} "
      ++ (if up then "1" else "0") ].

(** [for service_name, service_data in gateway_stats.items(): ...] *)
Fixpoint backend_lines (entries : list (string * value)) : result (list string) :=
  match entries with
  | [] => Return []
  | (service_name, service_data) :: rest =>
      match is_healthy service_data with
      | Raise e => Raise e
      | Return up =>
          match backend_lines rest with
          | Raise e => Raise e
          | Return lines => Return (service_up_lines service_name up ++ lines)%list
          end
      end
  end.

Definition prometheus_metrics_try : M string :=
  bind (call respond GetStatusSummary) (fun gateway_stats =>
  let current_time := CloudAnchorService.time_time env in
  let info :=
    [ "# HELP spatial_gateway_info Gateway service information";
      "# TYPE spatial_gateway_info gauge";
      "spatial_gateway_info{version=" ++ CloudAnchorService.dq ++ "1.0.0"
        ++ CloudAnchorService.dq ++ ",environment=" ++ CloudAnchorService.dq
        ++ default "development" (CloudAnchorService.getenv env "ENVIRONMENT")
        ++ CloudAnchorService.dq ++ "} 1" ] in
  bind (lift (items gateway_stats "values")) (fun services =>
  bind (lift (healthy_services services)) (fun healthy =>
  let active_services := length healthy in
  let active :=
    [ "# HELP spatial_gateway_active_services Number of healthy backend services";
      "# TYPE spatial_gateway_active_services gauge";
      "spatial_gateway_active_services " ++ pretty active_services ] in
  bind (if telemetry_truthy gateway_telemetry then
          bind (telemetry_method "get_route_performance_summary")
            (fun perf_data => match perf_data with end)
        else ret []) (fun route_lines : list string =>
  bind (lift (items gateway_stats "items")) (fun entries =>
  bind (lift (backend_lines entries)) (fun backends =>
  let stamp :=
    [ "# HELP spatial_gateway_last_update_timestamp Last metrics update timestamp";
      "# TYPE spatial_gateway_last_update_timestamp gauge";
      "spatial_gateway_last_update_timestamp " ++ current_time ] in
  ret (CloudAnchorService.join_lines
         (info ++ active ++ route_lines ++ backends ++ stamp)%list))))))).

(** The answer of the [except] clause. *)
Definition error_metrics (message : string) : string :=
  CloudAnchorService.join_lines
    [ "# HELP spatial_gateway_metrics_errors_total Metrics generation errors";
      "# TYPE spatial_gateway_metrics_errors_total counter";
      "spatial_gateway_metrics_errors_total 1";
      "# Error: " ++ message ].

Definition prometheus_metrics_except (e : exn) : M string :=
  bind (log ERROR ("Metrics generation failed: " ++ str e)) (fun _ =>
  ret (error_metrics (str e))).

Definition prometheus_metrics : M string :=
  try_except prometheus_metrics_try prometheus_metrics_except.

End Handlers.

(** A request and a router to run the handlers on. *)
Definition sample_respond (t : Trace Call) (c : Call) : result value :=
  match c with
  | GetStatusSummary =>
      Return (VDict [("localization", VDict [("status", VStr "healthy")]);
                     ("mapping", VDict [("status", VStr "unhealthy")])])
  | RouteRequest _ full_path => Return (VStr full_path)
  | ActiveSessions => Return (VInt 0)
  end.

Definition app_imported : World Call Globals :=
  {| globals := tt; calls := []; logger := [] |}.

End GatewayApp.

(** ** vps_engine/main.py: lifespan and the endpoints *)

Module VpsEngine.
Import Py Aio.

(** What the module calls outside itself: the constructor and the methods
    of [VPSEngine], [setup_metrics()], [settings.get_timestamp()], the
    attribute [vps_engine.gpu_count], and [Yield], the suspension at
    [yield] while the application runs. [initialize()], [shutdown()],
    [health_check()] and [get_metrics()] are awaited: the task may be
    cancelled while it waits for them, as it may at the [yield]. *)
Inductive Call :=
| NewVPSEngine
| Initialize
| SetupMetrics
| GpuCount
| Yield
| Shutdown
| HealthCheck
| GetMetrics
| GetTimestamp.

#[global] Instance Call_eq_dec : EqDecision Call.
Proof. solve_decision. Defined.

(** The module global [vps_engine]: whether it holds an engine (true in
    an [if]) or still [None]. *)
Definition Globals : Type := bool.

(** A JSON answer: the status code and the body, key by key. A returned
    dict is served with status 200. *)
Record Response := {
  status_code : nat;
  content : list (string * value)
}.

Section Module.

Variable respond : Trace Call -> Call -> outcome value.

(** The text an f-string gives for a value, [settings.ENVIRONMENT] and
    the text of [time.time()]. *)
Variable format : value -> string.
Variable environment : string.
Variable current_time : string.

Definition M := Aio.M Call Globals.

(** [await obj.method()] as a statement. *)
Definition await (c : Call) : M unit :=
  bind (call respond c) (fun _ => ret tt).

(** *** lifespan *)

Definition startup : M unit :=
  bind (call respond NewVPSEngine) (fun _ =>
  bind (assign (fun _ => true)) (fun _ =>
  bind (await Initialize) (fun _ =>
  bind (await SetupMetrics) (fun _ =>
  bind (call respond GpuCount) (fun gpu_count =>
  bind (log INFO ("VPS Engine ready - allocated " ++ format gpu_count
                  ++ " GPU nodes")) (fun _ =>
  await Yield)))))).

Definition startup_failed (e : exn) : M unit :=
  bind (log ERROR ("VPS initialization failed - GPU allocation issue: "
                   ++ str e)) (fun _ =>
  raise e).

Definition shutdown : M unit :=
  bind (log INFO "Releasing GPU resources and closing feature matchers") (fun _ =>
  bind (read (fun vps_engine : Globals => vps_engine)) (fun set : bool =>
  if set then await Shutdown else ret tt)).

Definition lifespan : M unit :=
  bind (log INFO "Starting VPS Engine with GPU node allocation") (fun _ =>
  try_finally (try_except startup startup_failed) shutdown).

(** *** GET /health *)

Definition health_check_try : M Response :=
  bind (read (fun vps_engine : Globals => vps_engine)) (fun set : bool =>
  bind (if set then bind (call respond HealthCheck) (fun ok => ret (truthy ok))
        else ret false) (fun ready =>
  if ready then
    bind (call respond GetTimestamp) (fun timestamp =>
    ret {| status_code := 200;
           content := [ ("status", VStr "healthy");
                        ("service", VStr "vps-engine");
                        ("version", VStr "1.0.0");
                        ("endpoint", VStr "health");
                        ("logging", VStr "enabled");
                        ("timestamp", timestamp);
                        ("engine_status", VStr "operational") ] |})
  else
    ret {| status_code := 503;
           content := [ ("status", VStr "unhealthy");
                        ("service", VStr "vps-engine");
                        ("endpoint", VStr "health");
                        ("logging", VStr "enabled");
                        ("error", VStr "VPS engine not ready") ] |})).

Definition health_check_except (e : exn) : M Response :=
  bind (log ERROR ("Health check failed: " ++ str e)) (fun _ =>
  ret {| status_code := 503;
         content := [ ("status", VStr "unhealthy");
                      ("service", VStr "vps-engine");
                      ("endpoint", VStr "health");
                      ("logging", VStr "enabled");
                      ("error", VStr (str e)) ] |}).

Definition health_check : M Response :=
  try_except health_check_try health_check_except.

(** *** GET /healthz *)

Definition healthz (healthy : bool) : Response :=
  {| status_code := if healthy then 200 else 503;
     content := [ ("status", VStr (if healthy then "healthy" else "unhealthy"));
                  ("service", VStr "vps-engine");
                  ("endpoint", VStr "healthz") ] |}.

Definition health_check_minimal : M Response :=
  try_except
    (bind (read (fun vps_engine : Globals => vps_engine)) (fun set : bool => ret (healthz set)))
    (fun _ => ret (healthz false)).

(** *** GET /metrics *)

(** The lines built from the dict of [vps_engine.get_metrics()]: four
    keys, each read with default 0. On a result that is no dict the first
    [.get] raises, before any line is appended. *)
Definition engine_metric_lines (vps_metrics : value) : result (list string) :=
  match vps_metrics with
  | VDict items =>
      let read key := format (default (VInt 0) (lookup_item key items)) in
      Py.Return
        (CloudAnchorService.metric_lines "spatial_vps_localization_requests_total"
           "Total localization requests" "counter"
           (read "localization_requests_total")
         ++ CloudAnchorService.metric_lines "spatial_vps_active_maps"
              "Active VPS maps" "gauge" (read "active_maps")
         ++ CloudAnchorService.metric_lines "spatial_vps_processing_time_ms"
              "Average processing time" "gauge" (read "avg_processing_time_ms")
         ++ CloudAnchorService.metric_lines "spatial_vps_success_rate"
              "Localization success rate" "gauge" (read "success_rate"))%list
  | _ => Py.Raise (attribute_error vps_metrics "get")
  end.

Definition info_lines : list string :=
  [ "# HELP spatial_vps_engine_info VPS engine service information";
    "# TYPE spatial_vps_engine_info gauge";
    "spatial_vps_engine_info{version=" ++ CloudAnchorService.dq ++ "1.0.0"
      ++ CloudAnchorService.dq ++ ",environment=" ++ CloudAnchorService.dq
      ++ environment ++ CloudAnchorService.dq ++ "} 1" ].

Definition up_lines (set : bool) : list string :=
  CloudAnchorService.metric_lines "spatial_vps_engine_up" "Service availability"
    "gauge" (if set then "1" else "0").

Definition stamp_lines : list string :=
  CloudAnchorService.metric_lines "spatial_vps_engine_last_update_timestamp"
    "Last metrics update" "gauge" current_time.

Definition prometheus_metrics_try : M string :=
  bind (read (fun vps_engine : Globals => vps_engine)) (fun set : bool =>
  bind (if set then
          try_except
            (bind (call respond GetMetrics) (fun vps_metrics =>
             lift (engine_metric_lines vps_metrics)))
            (fun e =>
               bind (log WARNING ("Metrics collection failed for VPS engine: "
                                  ++ str e)) (fun _ =>
               ret []))
        else ret []) (fun engine_lines =>
  ret (CloudAnchorService.join_lines
         (info_lines ++ up_lines set ++ engine_lines ++ stamp_lines)%list))).

Definition prometheus_metrics_except (e : exn) : M string :=
  bind (log ERROR ("Metrics endpoint failure - likely memory issue: " ++ str e))
    (fun _ =>
  ret (CloudAnchorService.join_lines
         [ "# HELP spatial_vps_engine_metrics_errors_total Metrics generation errors";
           "# TYPE spatial_vps_engine_metrics_errors_total counter";
           "spatial_vps_engine_metrics_errors_total 1" ])).

Definition prometheus_metrics : M string :=
  try_except prometheus_metrics_try prometheus_metrics_except.

(** *** GET / *)

Definition root : M (list (string * value)) :=
  bind (read (fun vps_engine : Globals => vps_engine)) (fun set : bool =>
  ret [ ("service", VStr "Spatial VPS Engine");
        ("description", VStr "Visual Positioning System for AR applications");
        ("version", VStr "1.0.0");
        ("status", VStr (if set then "operational" else "initializing"));
        ("docs", VStr (if String.eqb environment "development"
                       then "/docs" else "disabled"));
        ("health", VStr "/health");
        ("metrics", VStr "/metrics") ]).

End Module.

(** What [get_metrics()] adds to the output: the engine's lines when it
    returns a dict, nothing otherwise. *)
Definition engine_lines (format : value -> string) (answer : outcome value) :
    list string :=
  match answer with
  | Return vps_metrics =>
      match engine_metric_lines format vps_metrics with
      | Py.Return lines => lines
      | Py.Raise _ => []
      end
  | Raise _ => []
  end.

(** What [get_metrics()] adds to the log: the warning of the inner
    [except Exception], for an [Exception] it raised and for the
    [AttributeError] of a result that is no dict. *)
Definition engine_warning (format : value -> string) (answer : outcome value) :
    list (level * string) :=
  let warning e :=
    [(WARNING, "Metrics collection failed for VPS engine: " ++ str e)] in
  match answer with
  | Return vps_metrics =>
      match engine_metric_lines format vps_metrics with
      | Py.Return _ => []
      | Py.Raise e => warning e
      end
  | Raise (Exception e) => warning e
  | Raise (NotException _) => []
  end.

(** An engine to run the module on: healthy, with two of the four
    metrics; the clock of the settings is broken. *)
Definition sample_respond (t : Trace Call) (c : Call) : outcome value :=
  match c with
  | HealthCheck => Return (VBool true)
  | GetMetrics =>
      Return (VDict [("active_maps", VInt 3); ("success_rate", VStr "0.97")])
  | GetTimestamp =>
      Raise (Exception {| class_of := OtherError "OSError";
                          str := "clock unavailable" |})
  | GpuCount => Return (VInt 2)
  | _ => Return VNone
  end.

Definition sample_format (v : value) : string :=
  match v with
  | VInt 0 => "0"
  | VInt 2 => "2"
  | VInt 3 => "3"
  | VStr s => s
  | _ => "None"
  end.

Definition engine_unset : World Call Globals :=
  {| globals := false; calls := []; logger := [] |}.

Definition engine_set : World Call Globals :=
  {| globals := true; calls := []; logger := [] |}.

End VpsEngine.

(** ** infrastructure/observability/metrics/meter_setup.py: setup_metrics *)

Module MeterSetup.
Import Py.

(** The ways [setup_metrics] calls [metrics.get_meter]: with keyword
    arguments, with two positional arguments, with the name alone, and
    with [__name__] in the fallback. *)
Inductive Style := Modern | Positional | Legacy | Fallback.

(** The calls into OpenTelemetry: [MeterProvider(resource=...,
    metric_readers=...)] or, in the fallback, [MeterProvider(resource=...)];
    [metrics.set_meter_provider] on the provider just built;
    [metrics.get_meter]. *)
Inductive Call :=
| NewMeterProvider (with_readers : bool)
| SetMeterProvider
| GetMeter (style : Style).

#[global] Instance Style_eq_dec : EqDecision Style.
Proof. solve_decision. Defined.

#[global] Instance Call_eq_dec : EqDecision Call.
Proof. solve_decision. Defined.

Section SetupMetrics.

Variable respond : Trace Call -> Call -> result value.

(** The module assigns no global. *)
Definition M := Py.M Call unit.

Definition install_provider (with_readers : bool) : M unit :=
  bind (call respond (NewMeterProvider with_readers)) (fun _ =>
  bind (call respond SetMeterProvider) (fun _ => ret tt)).

(** The nested [try] statements that create the meter. An exception of
    the legacy call is raised inside an [except TypeError] clause, where
    the [except Exception] clause beside it does not apply. *)
Definition create_meter (meter_name : string) : M value :=
  try_except_if is_type_error
    (bind (call respond (GetMeter Modern)) (fun meter =>
     bind (log DEBUG ("Created meter using modern API: " ++ meter_name)) (fun _ =>
     ret meter)))
    (fun _ =>
       fun w =>
         match
           bind (call respond (GetMeter Positional)) (fun meter =>
           bind (log DEBUG ("Created meter using intermediate API: " ++ meter_name))
             (fun _ => ret meter)) w
         with
         | (Return meter, w') => (Return meter, w')
         | (Raise e, w') =>
             if is_type_error e then
               bind (call respond (GetMeter Legacy)) (fun meter =>
               bind (log WARNING ("Using legacy meter API without version: "
                                  ++ meter_name)) (fun _ =>
               ret meter)) w'
             else
               bind (log ERROR ("Failed to create meter with fallback API: "
                                ++ str e)) (fun _ =>
               raise e) w'
         end).

Definition setup_metrics_try (metric_readers : list value)
    (service_name : string) : M value :=
  bind (install_provider true) (fun _ =>
  let meter_name := "spatial." ++ service_name in
  bind (create_meter meter_name) (fun meter =>
  bind (log INFO ("Metrics collection configured for " ++ service_name
                  ++ " with " ++ pretty (length metric_readers) ++ " readers"))
    (fun _ =>
  ret meter))).

Definition setup_metrics_except (e : exn) : M value :=
  bind (log ERROR ("Failed to setup metrics: " ++ str e)) (fun _ =>
  bind (install_provider false) (fun _ =>
  call respond (GetMeter Fallback))).

Definition setup_metrics (metric_readers : list value)
    (service_name : string) : M value :=
  try_except (setup_metrics_try metric_readers service_name)
    setup_metrics_except.

End SetupMetrics.

(** A call of the fallback path. *)
Definition is_fallback_call (c : Call) : bool :=
  match c with
  | NewMeterProvider false | GetMeter Fallback => true
  | _ => false
  end.

(** The answer of a call was a [TypeError]. *)
Definition raised_type_error (c : Call) (t : Trace Call) : bool :=
  existsb (fun x => bool_decide (x.1 = c)
                    && match x.2 with
                       | Raise e => is_type_error e
                       | Return _ => false
                       end) t.

(** An OpenTelemetry of before 1.12: [get_meter] takes the name only. *)
Definition sample_legacy (t : Trace Call) (c : Call) : result value :=
  match c with
  | GetMeter Modern | GetMeter Positional =>
      Raise {| class_of := TypeError;
               str := "get_meter() got an unexpected argument" |}
  | GetMeter _ => Return (VObject "Meter")
  | _ => Return VNone
  end.

(** One where building a provider with readers fails. *)
Definition sample_broken_readers (t : Trace Call) (c : Call) : result value :=
  match c with
  | NewMeterProvider true =>
      Raise {| class_of := ValueError; str := "bad reader" |}
  | GetMeter _ => Return (VObject "Meter")
  | _ => Return VNone
  end.

Definition module_imported : World Call unit :=
  {| globals := tt; calls := []; logger := [] |}.

End MeterSetup.

(** ** localization_service/api/routes.py: the handlers of setup_routes *)

Module LocalizationRoutes.
Import Py.

(** The request models come from [api.models], which is not in the source
    tree; the handlers read these fields of them. *)
Record CameraConfig := {
  fx : value; fy : value; cx : value; cy : value;
  width : value; height : value; fps : value;
  k1 : value; k2 : value; p1 : value; p2 : value; k3 : value
}.

Record SlamInitRequest := {
  camera_config : CameraConfig;
  map_id : value
}.

Record TrackingFrame := {
  image_data : value;
  frame_timestamp : value
}.

Record ImuReading := {
  reading_timestamp : value;
  acceleration : value;
  gyroscope : value;
  magnetometer : value;
  temperature : value;
  is_valid : value
}.

Record VioDataRequest := {
  imu_readings : list ImuReading;
  camera_params : CameraConfig;
  camera_frame_base64 : value;
  timestamp : value
}.

(** What the handlers call on the injected [slam_tracker], [vio_tracker],
    [pose_manager] and [nakama_client], with the arguments they pass;
    [base64.b64decode]; and the constructors of the response models
    [PoseResponse] and [VioResponse], with their keyword arguments. *)
Inductive Call :=
| SlamGetTrackingStatus
| SlamInitialize (config : value)
| SlamLoadMap (map : value)
| SlamStartTracking
| SlamStopTracking
| SlamProcessFrame (image : value) (at_time : value)
| SlamSaveCurrentMap (map : string)
| VioGetStatus
| VioProcessSensorData (imu : value) (camera_frame : value)
    (params : value) (at_time : value)
| VioReset
| PoseGetTrackingQuality
| PoseGetStatusSummary
| PoseUpdateSlamPose (pose : value)
| PoseUpdateVioPose (result : value)
| PoseGetCurrentPose
| PoseGetPoseHistory (max_age_seconds : value)
| PoseResetTracking
| NakamaGetConnectionStatus
| NakamaSendPoseUpdate (user_id : string) (pose : value)
| B64Decode (data : value)
| NewPoseResponse (fields : list (string * value))
| NewVioResponse (fields : list (string * value))
| AddTask.

(** The kind of a call, without its arguments. *)
Inductive Kind :=
| KSlamGetTrackingStatus | KSlamInitialize | KSlamLoadMap | KSlamStartTracking
| KSlamStopTracking | KSlamProcessFrame | KSlamSaveCurrentMap | KVioGetStatus
| KVioProcessSensorData | KVioReset | KPoseGetTrackingQuality
| KPoseGetStatusSummary | KPoseUpdateSlamPose | KPoseUpdateVioPose
| KPoseGetCurrentPose | KPoseGetPoseHistory | KPoseResetTracking
| KNakamaGetConnectionStatus | KNakamaSendPoseUpdate | KB64Decode
| KNewPoseResponse | KNewVioResponse | KAddTask.

#[global] Instance Kind_eq_dec : EqDecision Kind.
Proof. solve_decision. Defined.

Definition kind_of (c : Call) : Kind :=
  match c with
  | SlamGetTrackingStatus => KSlamGetTrackingStatus
  | SlamInitialize _ => KSlamInitialize
  | SlamLoadMap _ => KSlamLoadMap
  | SlamStartTracking => KSlamStartTracking
  | SlamStopTracking => KSlamStopTracking
  | SlamProcessFrame _ _ => KSlamProcessFrame
  | SlamSaveCurrentMap _ => KSlamSaveCurrentMap
  | VioGetStatus => KVioGetStatus
  | VioProcessSensorData _ _ _ _ => KVioProcessSensorData
  | VioReset => KVioReset
  | PoseGetTrackingQuality => KPoseGetTrackingQuality
  | PoseGetStatusSummary => KPoseGetStatusSummary
  | PoseUpdateSlamPose _ => KPoseUpdateSlamPose
  | PoseUpdateVioPose _ => KPoseUpdateVioPose
  | PoseGetCurrentPose => KPoseGetCurrentPose
  | PoseGetPoseHistory _ => KPoseGetPoseHistory
  | PoseResetTracking => KPoseResetTracking
  | NakamaGetConnectionStatus => KNakamaGetConnectionStatus
  | NakamaSendPoseUpdate _ _ => KNakamaSendPoseUpdate
  | B64Decode _ => KB64Decode
  | NewPoseResponse _ => KNewPoseResponse
  | NewVioResponse _ => KNewVioResponse
  | AddTask => KAddTask
  end.

Section Routes.

Variable respond : Trace Call -> Call -> result value.

(** What the libraries and the language give and the model leaves open:
    [str(e)] of an [HTTPException]; the text an f-string gives for a
    value; the text of the [TypeError] of a subscript on a value that is
    no dict; [os.getenv] and [time.time()];
    [hasattr(nakama_client, 'get_connection_status')]; and, on whatever
    the tracker reports as [last_processing_time], the text of
    [processing_time/1000.0] and the test [processing_time <= 16.67],
    either of which raises on a value that is no number. *)
Variable http_str : nat -> string -> string.
Variable format : value -> string.
Variable subscript_message : value -> string.
Variable env : CloudAnchorService.Env.
Variable nakama_has_connection_status : bool.
Variable seconds_text : value -> result string.
Variable within_60fps : value -> result bool.

(** The handlers assign no global. *)
Definition M := Py.M Call unit.

(** [HTTPException(status_code, detail)] *)
Definition http_exception (status_code : nat) (detail : string) : exn :=
  {| class_of := HTTPException status_code detail;
     str := http_str status_code detail |}.

(** The dict the handlers build from a camera configuration. For
    [/slam/init] it has the twelve keys in this order. *)
Definition camera_config_dict (c : CameraConfig) : value :=
  VDict [ ("fx", fx c); ("fy", fy c); ("cx", cx c); ("cy", cy c);
          ("width", width c); ("height", height c); ("fps", fps c);
          ("k1", k1 c); ("k2", k2 c); ("p1", p1 c); ("p2", p2 c);
          ("k3", k3 c) ].

(** For [/vio/process]: eleven keys, without [fps]. *)
Definition camera_params_dict (c : CameraConfig) : value :=
  VDict [ ("fx", fx c); ("fy", fy c); ("cx", cx c); ("cy", cy c);
          ("k1", k1 c); ("k2", k2 c); ("p1", p1 c); ("p2", p2 c);
          ("k3", k3 c); ("width", width c); ("height", height c) ].

Definition imu_reading_dict (r : ImuReading) : value :=
  VDict [ ("timestamp", reading_timestamp r);
          ("acceleration", acceleration r);
          ("gyroscope", gyroscope r);
          ("magnetometer", magnetometer r);
          ("temperature", temperature r);
          ("is_valid", is_valid r) ].

(** *** POST /slam/init *)

Definition initialize_slam_try (request : SlamInitRequest) : M value :=
  bind (call respond (SlamInitialize (camera_config_dict (camera_config request))))
    (fun success =>
  bind (if negb (truthy success)
        then raise (http_exception 500 "SLAM initialization failed")
        else ret tt) (fun _ =>
  bind (if truthy (map_id request) then
          bind (call respond (SlamLoadMap (map_id request))) (fun map_loaded =>
          if negb (truthy map_loaded)
          then log WARNING ("Could not load map: " ++ format (map_id request))
          else ret tt)
        else ret tt) (fun _ =>
  ret (VDict [ ("success", VBool true);
               ("message", VStr "SLAM initialized");
               ("map_loaded",
                if truthy (map_id request) then map_id request else VNone) ])))).

Definition initialize_slam_except (e : exn) : M value :=
  bind (log ERROR ("SLAM init error: " ++ str e)) (fun _ =>
  raise (http_exception 500 ("Initialization failed: " ++ str e))).

Definition initialize_slam (request : SlamInitRequest) : M value :=
  try_except (initialize_slam_try request) initialize_slam_except.

(** *** POST /slam/start, POST /slam/stop *)

Definition start_slam_tracking : M value :=
  bind (call respond SlamStartTracking) (fun success =>
  if negb (truthy success)
  then raise (http_exception 400 "SLAM not initialized or failed to start")
  else ret (VDict [ ("success", VBool true);
                    ("message", VStr "SLAM tracking started") ])).

Definition stop_slam_tracking : M value :=
  bind (call respond SlamStopTracking) (fun _ =>
  ret (VDict [ ("success", VBool true);
               ("message", VStr "SLAM tracking stopped") ])).

(** *** POST /vio/process *)

(** The keyword arguments of the [VioResponse] of the [except] clause. *)
Definition vio_error_fields (e : exn) : list (string * value) :=
  [ ("success", VBool false);
    ("message", VStr ("VIO error: " ++ str e));
    ("pose", VNone);
    ("confidence", VFloat 0%float);
    ("tracking_state", VStr "error");
    ("processing_time_ms", VFloat 0%float);
    ("sequence_number", VInt 0) ].

Definition process_vio_data_try (request : VioDataRequest) : M value :=
  let imu_data := VList (imu_reading_dict <$> imu_readings request) in
  let camera_params := camera_params_dict (camera_params request) in
  bind (call respond
          (VioProcessSensorData imu_data (camera_frame_base64 request)
             camera_params (timestamp request))) (fun result =>
  bind (lift (get result "success" VNone)) (fun succeeded =>
  bind (if truthy succeeded
        then bind (call respond (PoseUpdateVioPose result)) (fun _ => ret tt)
        else ret tt) (fun _ =>
  bind (lift (getitem subscript_message result "success")) (fun success =>
  bind (lift (getitem subscript_message result "success")) (fun success' =>
  bind (if truthy success' then ret (VStr "VIO processing complete")
        else lift (get result "error" (VStr "Processing failed"))) (fun message =>
  bind (lift (get result "pose" VNone)) (fun pose =>
  bind (lift (get result "confidence" (VFloat 0%float))) (fun confidence =>
  bind (lift (get result "tracking_state" (VStr "unknown"))) (fun tracking_state =>
  bind (lift (get result "processing_time_ms" (VFloat 0%float)))
    (fun processing_time_ms =>
  bind (lift (get result "sequence_number" (VInt 0))) (fun sequence_number =>
  call respond
    (NewVioResponse [ ("success", success);
                      ("message", message);
                      ("pose", pose);
                      ("confidence", confidence);
                      ("tracking_state", tracking_state);
                      ("processing_time_ms", processing_time_ms);
                      ("sequence_number", sequence_number) ])))))))))))).

Definition process_vio_data_except (e : exn) : M value :=
  bind (log ERROR ("VIO processing error: " ++ str e)) (fun _ =>
  call respond (NewVioResponse (vio_error_fields e))).

Definition process_vio_data (request : VioDataRequest) : M value :=
  try_except (process_vio_data_try request) process_vio_data_except.

(** *** POST /vio/reset, POST /pose/reset, GET /pose/current *)

Definition reset_vio : M value :=
  bind (call respond VioReset) (fun success =>
  if negb (truthy success)
  then raise (http_exception 500 "VIO reset failed")
  else ret (VDict [ ("success", VBool true);
                    ("message", VStr "VIO reset complete") ])).

Definition reset_tracking : M value :=
  bind (call respond PoseResetTracking) (fun _ =>
  bind (call respond SlamStopTracking) (fun _ =>
  bind (call respond VioReset) (fun _ =>
  ret (VDict [ ("success", VBool true);
               ("message", VStr "All tracking reset") ])))).

Definition get_current_pose : M value :=
  bind (call respond PoseGetCurrentPose) (fun pose =>
  if negb (truthy pose)
  then raise (http_exception 404 "No pose available")
  else ret pose).

(** *** POST /slam/save_map *)

(** The task handed to [background_tasks.add_task]: it runs after the
    answer has been sent. *)
Definition save_map_task (map : string) : M unit :=
  bind (call respond (SlamSaveCurrentMap map)) (fun success =>
  if truthy success
  then log INFO ("Map saved: " ++ map)
  else log ERROR ("Failed to save map: " ++ map)).

Definition save_slam_map (map : string) : M value :=
  bind (call respond AddTask) (fun _ =>
  ret (VDict [ ("success", VBool true);
               ("message", VStr ("Map save started: " ++ map)) ])).

(** *** GET /metrics *)

(** [1 if v else 0], as printed. *)
Definition flag (v : value) : string := if truthy v then "1" else "0".

(** The items of a value on which [get] has returned. *)
Definition items_of (v : value) : list (string * value) :=
  match v with VDict items => items | _ => [] end.

Definition info_lines : list string :=
  [ "# HELP spatial_localization_info AR localization service information";
    "# TYPE spatial_localization_info gauge";
    "spatial_localization_info{version=" ++ CloudAnchorService.dq ++ "1.0.0"
      ++ CloudAnchorService.dq ++ ",performance_tier=" ++ CloudAnchorService.dq
      ++ "critical_60fps" ++ CloudAnchorService.dq ++ ",environment="
      ++ CloudAnchorService.dq
      ++ default "development" (CloudAnchorService.getenv env "ENVIRONMENT")
      ++ CloudAnchorService.dq ++ "} 1" ].

(** The lines up to the Nakama block. *)
Definition tracking_lines : M (list string) :=
  bind (call respond SlamGetTrackingStatus) (fun slam_status =>
  bind (lift (get slam_status "tracking_active" (VBool false))) (fun tracking_active =>
  let slam :=
    CloudAnchorService.metric_lines "spatial_slam_tracking_active"
      "SLAM tracking system status" "gauge" (flag tracking_active) in
  let map :=
    if contains (items_of slam_status) "map_loaded" then
      CloudAnchorService.metric_lines "spatial_slam_map_loaded"
        "SLAM map loading status" "gauge"
        (flag (default VNone (lookup_item "map_loaded" (items_of slam_status))))
    else [] in
  bind (call respond VioGetStatus) (fun vio_status =>
  bind (lift (get vio_status "active" (VBool false))) (fun active =>
  let vio :=
    CloudAnchorService.metric_lines "spatial_vio_tracking_active"
      "VIO tracking system status" "gauge" (flag active) in
  bind (call respond PoseGetTrackingQuality) (fun pose_quality =>
  let quality :=
    CloudAnchorService.metric_lines "spatial_pose_tracking_quality"
      "Current pose tracking quality score" "gauge" (format pose_quality) in
  bind (call respond PoseGetStatusSummary) (fun pose_status =>
  bind (lift (get pose_status "pose_available" (VBool false))) (fun pose_available =>
  let available :=
    CloudAnchorService.metric_lines "spatial_pose_available"
      "Pose data availability status" "gauge" (flag pose_available) in
  bind (if contains (items_of slam_status) "last_processing_time" then
          let processing_time :=
            default VNone (lookup_item "last_processing_time" (items_of slam_status)) in
          bind (lift (seconds_text processing_time)) (fun seconds =>
          bind (lift (within_60fps processing_time)) (fun within =>
          ret (CloudAnchorService.metric_lines
                 "spatial_slam_processing_time_seconds"
                 "SLAM frame processing time" "gauge" seconds
               ++ CloudAnchorService.metric_lines
                    "spatial_slam_60fps_compliance"
                    "Frame processing within 60fps target" "gauge"
                    (if within then "1" else "0"))%list))
        else ret []) (fun performance =>
  ret (info_lines ++ slam ++ map ++ vio ++ quality ++ available
       ++ performance)%list)))))))).

(** The Nakama block: its own [try] with a bare [except]. *)
Definition nakama_lines : M (list string) :=
  try_except
    (bind (if nakama_has_connection_status
           then call respond NakamaGetConnectionStatus
           else ret (VDict [("connected", VBool true)])) (fun nakama_status =>
     bind (lift (get nakama_status "connected" (VBool false))) (fun connected =>
     ret (CloudAnchorService.metric_lines "spatial_nakama_connected"
            "Nakama multiplayer connection status" "gauge" (flag connected)))))
    (fun _ => ret ["spatial_nakama_connected 0"]).

Definition stamp_lines : list string :=
  [ "# HELP spatial_localization_last_update_timestamp Last metrics update timestamp";
    "# TYPE spatial_localization_last_update_timestamp gauge";
    "spatial_localization_last_update_timestamp "
      ++ CloudAnchorService.time_time env ].

Definition prometheus_metrics_try : M string :=
  bind tracking_lines (fun tracking =>
  bind nakama_lines (fun nakama =>
  ret (CloudAnchorService.join_lines (tracking ++ nakama ++ stamp_lines)%list))).

Definition error_metrics (message : string) : string :=
  CloudAnchorService.join_lines
    [ "# HELP spatial_localization_metrics_errors_total Metrics generation errors";
      "# TYPE spatial_localization_metrics_errors_total counter";
      "spatial_localization_metrics_errors_total 1";
      "# Error: " ++ message ].

Definition prometheus_metrics_except (e : exn) : M string :=
  bind (log ERROR ("Metrics generation failed: " ++ str e)) (fun _ =>
  ret (error_metrics (str e))).

Definition prometheus_metrics : M string :=
  try_except prometheus_metrics_try prometheus_metrics_except.

End Routes.

(** *** POST /slam/track *)

(** The handler awaits [nakama_client.send_pose_update] inside its [try]
    block: the task may be cancelled there, and what a call raises need
    not be an [Exception]. *)
Section Tracking.
Import Aio.

Variable respond : Aio.Trace Call -> Call -> outcome value.
Variable http_str : nat -> string -> string.
Variable subscript_message : value -> string.




End Tracking.


(** The kinds of the calls of a trace. *)
Definition kinds_of (t : Trace Call) : list Kind := kind_of <$> t.*1.


(** Trackers to run the handlers on: SLAM initializes but cannot load a
    map; VIO fails to reset; a frame gives a pose, which Nakama refuses. *)
Definition sample_pose : value :=
  VDict [ ("timestamp", VInt 17); ("position", VList [VInt 0; VInt 0; VInt 1]);
          ("rotation", VList [VInt 0; VInt 0; VInt 0; VInt 1]);
          ("confidence", VInt 1); ("tracking_state", VStr "tracking") ].

Definition sample_respond (t : Trace Call) (c : Call) : result value :=
  match c with
  | SlamInitialize _ => Return (VBool true)
  | SlamLoadMap _ => Return (VBool false)
  | SlamProcessFrame _ _ => Return sample_pose
  | NakamaSendPoseUpdate _ _ =>
      Raise {| class_of := OtherError "ConnectionError"; str := "no match" |}
  | VioReset => Return (VBool false)
  | VioProcessSensorData _ _ _ _ => Return (VDict [("pose", VNone)])
  | NewVioResponse fields => Return (VDict fields)
  | NewPoseResponse fields => Return (VDict fields)
  | _ => Return VNone
  end.

Definition sample_format (v : value) : string :=
  match v with VStr s => s | _ => "None" end.

Definition sample_http_str (status_code : nat) (detail : string) : string :=
  detail.

Definition sample_camera : CameraConfig :=
  {| fx := VInt 500; fy := VInt 500; cx := VInt 320; cy := VInt 240;
     width := VInt 640; height := VInt 480; fps := VInt 30;
     k1 := VInt 0; k2 := VInt 0; p1 := VInt 0; p2 := VInt 0; k3 := VInt 0 |}.

Definition sample_init_request : SlamInitRequest :=
  {| camera_config := sample_camera; map_id := VStr "atrium" |}.

Definition sample_frame : TrackingFrame :=
  {| image_data := VStr "aGVsbG8="; frame_timestamp := VInt 17 |}.

Definition sample_vio_request : VioDataRequest :=
  {| imu_readings := []; camera_params := sample_camera;
     camera_frame_base64 := VNone; timestamp := VInt 17 |}.

Definition routes_set_up : World Call unit :=
  {| globals := tt; calls := []; logger := [] |}.

End LocalizationRoutes.

(** ** mapping_pipeline/src/spatial_mapping/main.py *)

Module MappingPipeline.
Import Py.

(** The seven collectors of the module, by the variable they are bound
    to, in the order of the source. *)
Inductive Metric :=
| request_count
| request_duration
| active_reconstructions
| reconstruction_success_count
| reconstruction_failure_count
| memory_usage
| cpu_usage.

#[global] Instance Metric_eq_dec : EqDecision Metric.
Proof. solve_decision. Defined.

(** The name each is registered under. *)
Definition metric_name (m : Metric) : string :=
  match m with
  | request_count => "mapping_requests_total"
  | request_duration => "mapping_request_duration_seconds"
  | active_reconstructions => "mapping_active_reconstructions"
  | reconstruction_success_count => "mapping_reconstruction_success_total"
  | reconstruction_failure_count => "mapping_reconstruction_failure_total"
  | memory_usage => "mapping_memory_usage_bytes"
  | cpu_usage => "mapping_cpu_usage_percent"
  end.

Definition metrics_in_order : list Metric :=
  [ request_count; request_duration; active_reconstructions;
    reconstruction_success_count; reconstruction_failure_count;
    memory_usage; cpu_usage ].

(** The calls into [prometheus_client] and [psutil]: the constructor of a
    collector ([Counter], [Histogram] or [Gauge]) under a name, the
    lookup [REGISTRY._names_to_collectors[name]],
    [psutil.Process().memory_info().rss], [psutil.cpu_percent(interval=0.1)],
    [memory_usage.set(...)] and [cpu_usage.set(...)] (of the values just
    read), and [generate_latest(REGISTRY)]. *)
Inductive Call :=
| NewCollector (name : string)
| RegisteredCollector (name : string)
| MemoryRss
| CpuPercent
| SetMemoryUsage
| SetCpuUsage
| GenerateLatest.

#[global] Instance Call_eq_dec : EqDecision Call.
Proof. solve_decision. Defined.

(** The module variables bound so far. *)
Definition Globals : Type := list (Metric * value).

Section Module.

Variable respond : Trace Call -> Call -> result value.

Definition M := Py.M Call Globals.

(** One [try: m = Collector(name, ...) / except ValueError:
    m = REGISTRY._names_to_collectors[name]] statement. *)
Definition register (m : Metric) : M unit :=
  bind (try_except_if is_value_error
          (call respond (NewCollector (metric_name m)))
          (fun _ => call respond (RegisteredCollector (metric_name m))))
    (fun collector =>
  assign (fun bound => bound ++ [(m, collector)])%list).

(** The seven statements at the top of the module. *)
Definition register_metrics : M unit :=
  bind (register request_count) (fun _ =>
  bind (register request_duration) (fun _ =>
  bind (register active_reconstructions) (fun _ =>
  bind (register reconstruction_success_count) (fun _ =>
  bind (register reconstruction_failure_count) (fun _ =>
  bind (register memory_usage) (fun _ =>
  register cpu_usage)))))).

(** The statements for a list of collectors, one after the other. *)
Fixpoint register_all (ms : list Metric) : M unit :=
  match ms with
  | [] => ret tt
  | m :: rest => bind (register m) (fun _ => register_all rest)
  end.

(** [memory_usage.set(psutil.Process().memory_info().rss)] and
    [cpu_usage.set(psutil.cpu_percent(interval=0.1))] *)
Definition update_system_metrics : M unit :=
  bind (call respond MemoryRss) (fun _ =>
  bind (call respond SetMemoryUsage) (fun _ =>
  bind (call respond CpuPercent) (fun _ =>
  bind (call respond SetCpuUsage) (fun _ =>
  ret tt)))).

(** GET /health *)
Definition health_check : M value :=
  bind update_system_metrics (fun _ =>
  ret (VDict [ ("status", VStr "healthy");
               ("service", VStr "mapping-pipeline");
               ("version", VStr "1.0.0");
               ("endpoint", VStr "health");
               ("logging", VStr "enabled") ])).

(** GET /healthz *)
Definition health_check_minimal : M value :=
  ret (VDict [ ("status", VStr "healthy");
               ("service", VStr "mapping-pipeline");
               ("endpoint", VStr "healthz") ]).

(** GET /metrics *)
Definition metrics : M value :=
  bind update_system_metrics (fun _ =>
  call respond GenerateLatest).

End Module.

(** The answer of a call was a [ValueError]. *)
Definition raised_value_error (c : Call) (t : Trace Call) : bool :=
  existsb (fun x => bool_decide (x.1 = c)
                    && match x.2 with
                       | Raise e => is_value_error e
                       | Return _ => false
                       end) t.

(** A second import of the module in one process: every name is taken. *)
Definition sample_reimport (t : Trace Call) (c : Call) : result value :=
  match c with
  | NewCollector name =>
      Raise {| class_of := ValueError;
               str := "Duplicated timeseries in CollectorRegistry" |}
  | RegisteredCollector name => Return (VObject name)
  | CpuPercent =>
      Raise {| class_of := OtherError "PermissionError"; str := "/proc/stat" |}
  | _ => Return VNone
  end.

Definition before_import : World Call Globals :=
  {| globals := []; calls := []; logger := [] |}.

End MappingPipeline.

(* ===================================================================== *)
(** * Part II. Theorems                                                   *)
(* ===================================================================== *)

(** ** The tracing decorators *)

Section TelemetryFacts.
Import Telemetry.
Context {Fn : Type} (run : Fn -> value Fn -> Outcome (value Fn)).

(** Used bare ([@trace_api_route] above [def f]) the decorator receives
    [f] alone and hands it back. *)
Lemma trace_api_route_bare (f : Fn) kwargs :
  trace_api_route [VFunc f] kwargs = VFunc f.
Proof. reflexivity. Qed.

Lemma trace_backend_call_bare (f : Fn) kwargs :
  trace_backend_call [VFunc f] kwargs = VFunc f.
Proof. reflexivity. Qed.

Lemma trace_backend_call_parametrised (args : list (value Fn)) kwargs :
  called_with_function args = false ->
  trace_backend_call args kwargs = VDecorator.
Proof.
  intros Hargs. unfold trace_backend_call.
  destruct args as [|a [|b rest]]; try reflexivity.
  simpl in Hargs. now rewrite Hargs.
Qed.

(** Unless the call looks like a bare use, the inner [decorator] comes back. *)
Lemma trace_api_route_parametrised (args : list (value Fn)) kwargs :
  called_with_function args = false ->
  trace_api_route args kwargs = VDecorator.
Proof.
  intros Hargs. unfold trace_api_route.
  destruct args as [|a [|b rest]]; try reflexivity.
  simpl in Hargs. now rewrite Hargs.
Qed.

(** With a single callable argument it is that argument which comes back. *)
Lemma trace_api_route_single_callable (g : value Fn) kwargs :
  callable g = true -> trace_api_route [g] kwargs = g.
Proof. intros Hg. unfold trace_api_route. now rewrite Hg. Qed.

End TelemetryFacts.

(** C8, as the code has it. Used bare, [trace_api_route] and
    [trace_backend_call] return the function they are given; called with
    any argument list that is not one single callable, they return a
    decorator that returns the function it wraps unchanged. In particular
    [route_api_request], decorated with
    [trace_api_route("api_routing", "dynamic")], is bound to the undecorated
    function. *)
Theorem tracing_decorators_return_wrapped_function
    {Fn : Type} (run : Fn -> Telemetry.value Fn -> Outcome (Telemetry.value Fn))
    (args : list (Telemetry.value Fn)) (kwargs : list (string * Telemetry.value Fn))
    (f : Fn) :
  Telemetry.called_with_function args = false ->
  Telemetry.trace_api_route [Telemetry.VFunc f] kwargs = Telemetry.VFunc f
  /\ Telemetry.trace_backend_call [Telemetry.VFunc f] kwargs = Telemetry.VFunc f
  /\ Telemetry.decorate run (Telemetry.trace_api_route args kwargs) f
     = Returned (Telemetry.VFunc f)
  /\ Telemetry.decorate run (Telemetry.trace_backend_call args kwargs) f
     = Returned (Telemetry.VFunc f)
  /\ Telemetry.decorate run Telemetry.gateway_route_decorator f
     = Returned (Telemetry.VFunc f).
Proof.
  intros Hargs.
  split; [apply trace_api_route_bare|].
  split; [apply trace_backend_call_bare|].
  rewrite (trace_backend_call_parametrised args kwargs Hargs).
  rewrite (trace_api_route_parametrised args kwargs Hargs).
  repeat split; reflexivity.
Qed.

(** The theorem at the gateway's own call: two strings, no keyword. *)
Lemma tracing_decorators_return_wrapped_function_witness :
  @Telemetry.called_with_function Telemetry.sample_fn
    [Telemetry.VStr "api_routing"; Telemetry.VStr "dynamic"] = false
  /\ Telemetry.decorate Telemetry.run_sample
       (Telemetry.trace_api_route
          [Telemetry.VStr "api_routing"; Telemetry.VStr "dynamic"] [])
       Telemetry.route_handler
     = Returned (Telemetry.VFunc Telemetry.route_handler).
Proof.
  split; [reflexivity|].
  apply (tracing_decorators_return_wrapped_function Telemetry.run_sample
           [Telemetry.VStr "api_routing"; Telemetry.VStr "dynamic"] []
           Telemetry.route_handler).
  reflexivity.
Defined.

(** C8 as stated fails for one argument list: a single callable. The call
    [trace_api_route(drop_function)] returns [drop_function] itself, so a
    function decorated with it is bound to what [drop_function] returns
    ([None]), not to the function. *)
Lemma tracing_decorator_single_callable_not_identity :
  Telemetry.decorate Telemetry.run_sample
    (Telemetry.trace_api_route [Telemetry.VFunc Telemetry.drop_function] [])
    Telemetry.route_handler
  = Returned Telemetry.VNone
  /\ Telemetry.decorate Telemetry.run_sample
       (Telemetry.trace_api_route [Telemetry.VFunc Telemetry.drop_function] [])
       Telemetry.route_handler
     <> Returned (Telemetry.VFunc Telemetry.route_handler).
Proof. split; [reflexivity | discriminate]. Qed.

(** ** The gateway's classification *)

Section GatewayFacts.
Import Gateway.

(** The if/elif chain is the first-match reading of [routing_table]. *)
Lemma target_service_first_match (path : string) :
  target_service path = first_match path routing_table "unknown".
Proof.
  unfold target_service, routing_table, first_match, group_matches, existsb.
  repeat match goal with
         | |- context [startswith path ?p] => destruct (startswith path p)
         end; reflexivity.
Qed.

Lemma first_match_in (path : string) table dflt :
  In (first_match path table dflt) (dflt :: map snd table).
Proof.
  induction table as [|[prefixes svc] rest IH]; simpl; [now left|].
  destruct (group_matches path prefixes); [right; now left|].
  destruct IH as [IH|IH]; [now left | right; now right].
Qed.

Lemma first_match_none (path : string) table dflt :
  (forall row, In row table -> group_matches path (fst row) = false) ->
  first_match path table dflt = dflt.
Proof.
  induction table as [|[prefixes svc] rest IH]; simpl; intros Hnone; [reflexivity|].
  pose proof (Hnone (prefixes, svc) (or_introl eq_refl)) as Hhead.
  simpl in Hhead. rewrite Hhead.
  apply IH. intros row Hrow. apply Hnone. now right.
Qed.

(** A row is selected exactly when it matches and no earlier row does. *)
Lemma first_match_split (path : string) before prefixes svc after dflt :
  (forall row, In row before -> group_matches path (fst row) = false) ->
  group_matches path prefixes = true ->
  first_match path (before ++ (prefixes, svc) :: after)%list dflt = svc.
Proof.
  induction before as [|[p s] rest IH]; simpl; intros Hnone Hhit.
  - now rewrite Hhit.
  - pose proof (Hnone (p, s) (or_introl eq_refl)) as Hhead.
    simpl in Hhead. rewrite Hhead.
    apply IH; [|exact Hhit]. intros row Hrow. apply Hnone. now right.
Qed.

End GatewayFacts.

(** C9. For every path, [route_api_request] computes one target service:
    it is one of the six names, it is the service of the first group of
    [routing_table] (the chain's order) one of whose prefixes starts the
    path, whatever later groups match, and it is "unknown" when no group
    matches. *)
Theorem target_service_total_first_match (path : string) :
  (exists! s, In s Gateway.services /\ Gateway.target_service path = s)
  /\ Gateway.target_service path
     = Gateway.first_match path Gateway.routing_table "unknown"
  /\ (forall before prefixes svc after,
        Gateway.routing_table = (before ++ (prefixes, svc) :: after)%list ->
        (forall row, In row before -> Gateway.group_matches path (fst row) = false) ->
        Gateway.group_matches path prefixes = true ->
        Gateway.target_service path = svc)
  /\ ((forall row, In row Gateway.routing_table ->
         Gateway.group_matches path (fst row) = false) ->
      Gateway.target_service path = "unknown").
Proof.
  split.
  - exists (Gateway.target_service path). split.
    + split; [|reflexivity].
      rewrite target_service_first_match.
      pose proof (first_match_in path Gateway.routing_table "unknown") as Hin.
      simpl in Hin. unfold Gateway.services. simpl.
      intuition.
    + now intros s [_ Hs].
  - split; [apply target_service_first_match|]. split.
    + intros before prefixes svc after Htable Hnone Hhit.
      rewrite target_service_first_match, Htable.
      now apply first_match_split.
    + intros Hnone. rewrite target_service_first_match.
      now apply first_match_none.
Qed.

(** ** The cloud anchor service endpoints *)

Section EndpointFacts.
Import CloudAnchorService.
Context {AM PE SM : Type}.

Abbreviation World := (World AM PE SM).

(** The try block of [/healthz] never raises. *)
Lemma health_check_minimal_try_returns (w : World) :
  health_check_minimal_try _ _ _ w
  = (Returned (if basic_health _ _ _ w then healthz_healthy else healthz_unhealthy), w).
Proof.
  unfold health_check_minimal_try, bind, read, ret.
  now destruct (basic_health _ _ _ w).
Qed.

Lemma basic_health_spec (w : World) :
  basic_health _ _ _ w = true <->
  anchor_manager _ _ _ w <> None /\ persistence_engine _ _ _ w <> None.
Proof.
  unfold basic_health. rewrite andb_true_iff, !bool_decide_eq_true. tauto.
Qed.

End EndpointFacts.

(** C10. [/healthz] always returns and never raises. Its answer is the
    "healthy" one exactly when [anchor_manager] and [persistence_engine]
    are both set, whatever [sync_manager] is; in every other case, and
    whenever its try block raises, it is the 503 answer with status
    "unhealthy". *)
Theorem healthz_healthy_iff_managers_set
    {AM PE SM : Type} (w : CloudAnchorService.World AM PE SM) :
  (exists r,
      CloudAnchorService.health_check_minimal _ _ _ w = (Returned r, w)
      /\ (CloudAnchorService.status (CloudAnchorService.content r) = "healthy"
          <-> CloudAnchorService.anchor_manager _ _ _ w <> None
              /\ CloudAnchorService.persistence_engine _ _ _ w <> None)
      /\ (~ (CloudAnchorService.anchor_manager _ _ _ w <> None
             /\ CloudAnchorService.persistence_engine _ _ _ w <> None)
          -> r = CloudAnchorService.healthz_unhealthy)
      /\ (forall sm,
             fst (CloudAnchorService.health_check_minimal _ _ _
                    (CloudAnchorService.with_sync_manager _ _ _ w sm))
             = Returned r))
  /\ (forall (body : CloudAnchorService.M AM PE SM CloudAnchorService.Response) e w',
         body w = (Raised e, w') ->
         CloudAnchorService.try_catch _ _ _ body
           (CloudAnchorService.health_check_minimal_except _ _ _) w
         = (Returned CloudAnchorService.healthz_unhealthy, w'))
  /\ CloudAnchorService.status_code CloudAnchorService.healthz_unhealthy = 503
  /\ CloudAnchorService.status
       (CloudAnchorService.content CloudAnchorService.healthz_unhealthy)
     = "unhealthy".
Proof.
  split; [|split; [|split; reflexivity]].
  - exists (if CloudAnchorService.basic_health _ _ _ w
            then CloudAnchorService.healthz_healthy
            else CloudAnchorService.healthz_unhealthy).
    pose proof (basic_health_spec w) as Hspec.
    split; [|split; [|split]].
    + unfold CloudAnchorService.health_check_minimal, CloudAnchorService.try_catch.
      now rewrite health_check_minimal_try_returns.
    + destruct (CloudAnchorService.basic_health _ _ _ w); simpl.
      * split; [intros _; now apply Hspec | reflexivity].
      * split; [discriminate|]. intros Hset. apply Hspec in Hset. discriminate.
    + intros Hunset.
      destruct (CloudAnchorService.basic_health _ _ _ w); [|reflexivity].
      exfalso. apply Hunset. now apply Hspec.
    + intros sm.
      unfold CloudAnchorService.health_check_minimal, CloudAnchorService.try_catch.
      rewrite health_check_minimal_try_returns. reflexivity.
  - intros body e w' Hbody.
    unfold CloudAnchorService.try_catch. rewrite Hbody. reflexivity.
Qed.
(** ** The anchor store *)

Local Open Scope list_scope.

Section StoreFacts.
Import Core.
Context (pol : Policy).

(** *** The table as a list *)

Lemma elem_of_anchors (t : gmap AnchorId Anchor) a :
  a ∈ anchors t <-> exists i, t !! i = Some a.
Proof.
  unfold anchors. rewrite list_elem_of_fmap. split.
  - intros [[i b] [-> Hin]]. exists i. now apply elem_of_map_to_list.
  - intros [i Hi]. exists (i, a). split; [reflexivity|].
    now apply elem_of_map_to_list.
Qed.

Lemma anchors_ids (t : gmap AnchorId Anchor) :
  (forall i a, t !! i = Some a -> aid a = i) ->
  aid <$> anchors t = (map_to_list t).*1.
Proof.
  intros Hkeys. unfold anchors. rewrite <- list_fmap_compose.
  apply Forall_fmap_ext_1, Forall_forall. intros [i a] Hin. simpl.
  apply elem_of_map_to_list in Hin. now apply Hkeys.
Qed.

Lemma anchors_NoDup (t : gmap AnchorId Anchor) :
  (forall i a, t !! i = Some a -> aid a = i) ->
  NoDup (aid <$> anchors t).
Proof.
  intros Hkeys. rewrite (anchors_ids t Hkeys). apply NoDup_fst_map_to_list.
Qed.

Lemma filter_bool_sublist {A} (f : A -> bool) (l : list A) :
  List.filter f l `sublist_of` l.
Proof.
  induction l as [|x l IH]; simpl; [constructor|].
  destruct (f x); now constructor.
Qed.

Lemma elem_of_filter_bool {A} (f : A -> bool) (l : list A) x :
  x ∈ List.filter f l <-> x ∈ l /\ f x = true.
Proof. rewrite !list_elem_of_In. apply filter_In. Qed.

Lemma filter_none {A} (f : A -> bool) (l : list A) :
  (forall x, x ∈ l -> f x = false) -> List.filter f l = [].
Proof.
  induction l as [|x l IH]; intros Hall; simpl; [reflexivity|].
  rewrite (Hall x) by apply list_elem_of_here.
  apply IH. intros y Hy. apply Hall. now apply list_elem_of_further.
Qed.

Lemma elem_of_query_region (t : gmap AnchorId Anchor) center r vis a :
  a ∈ query_region t center r vis <->
  a ∈ anchors t
  /\ within r (position (pose a)) center = true /\ visible vis a = true.
Proof.
  unfold query_region. rewrite merge_sort_Permutation, elem_of_filter_bool.
  now rewrite andb_true_iff.
Qed.

Lemma query_region_NoDup (t : gmap AnchorId Anchor) center r vis :
  (forall i a, t !! i = Some a -> aid a = i) ->
  NoDup (aid <$> query_region t center r vis).
Proof.
  intros Hkeys. unfold query_region. rewrite merge_sort_Permutation.
  eapply sublist_NoDup; [apply (anchors_NoDup t Hkeys)|].
  apply fmap_sublist, filter_bool_sublist.
Qed.

(** The merge candidates are anchors of the table: shared, pending or
    confirmed, within the merge radius. *)
Lemma elem_of_merge_candidates (t : gmap AnchorId Anchor) p a :
  a ∈ merge_candidates pol t p <->
  (exists i, t !! i = Some a)
  /\ within (merge_radius pol) (position (pose a)) p = true
  /\ visibility a = shared /\ live a = true.
Proof.
  unfold merge_candidates.
  rewrite elem_of_filter_bool, elem_of_query_region, elem_of_anchors.
  unfold visible. rewrite bool_decide_eq_true. tauto.
Qed.

Lemma merge_candidates_NoDup (t : gmap AnchorId Anchor) p :
  (forall i a, t !! i = Some a -> aid a = i) ->
  NoDup (aid <$> merge_candidates pol t p).
Proof.
  intros Hkeys. unfold merge_candidates.
  eapply sublist_NoDup; [apply query_region_NoDup, Hkeys|].
  apply fmap_sublist, filter_bool_sublist.
Qed.

(** *** The tie-break *)

Lemma lowest_id_elem a rest : lowest_id a rest ∈ a :: rest.
Proof.
  induction rest as [|b rest IH]; simpl; [apply list_elem_of_here|].
  destruct (aid b <? aid (lowest_id a rest))%nat.
  - apply list_elem_of_further, list_elem_of_here.
  - apply elem_of_cons in IH as [->|IH]; [apply list_elem_of_here|].
    now do 2 apply list_elem_of_further.
Qed.

Lemma lowest_id_le a rest b :
  b ∈ a :: rest -> aid (lowest_id a rest) <= aid b.
Proof.
  induction rest as [|c rest IH]; simpl.
  - intros Hb. apply list_elem_of_singleton in Hb as ->. lia.
  - intros Hb.
    assert (b = c \/ b ∈ a :: rest) as [->|Hin].
    { apply elem_of_cons in Hb as [->|Hb]; [right; apply list_elem_of_here|].
      apply elem_of_cons in Hb as [->|Hb]; [now left|].
      right. now apply list_elem_of_further. }
    + destruct (Nat.ltb_spec (aid c) (aid (lowest_id a rest))); lia.
    + specialize (IH Hin).
      destruct (Nat.ltb_spec (aid c) (aid (lowest_id a rest))); lia.
Qed.


(** *** Staging and committing a plan *)

Lemma stage_lookup_unchanged (t : gmap AnchorId Anchor) changes i :
  i ∉ (aid ∘ change_anchor <$> changes) -> stage t changes !! i = t !! i.
Proof.
  revert t. induction changes as [|ch rest IH]; intros t Hi; [reflexivity|].
  simpl in *. apply not_elem_of_cons in Hi as [Hne Hrest].
  unfold stage in *. simpl. rewrite IH by exact Hrest.
  now apply lookup_insert_ne.
Qed.

Lemma stage_lookup_changed (t : gmap AnchorId Anchor) changes ch :
  NoDup (aid ∘ change_anchor <$> changes) -> ch ∈ changes ->
  stage t changes !! aid (change_anchor ch) = Some (change_anchor ch).
Proof.
  revert t. induction changes as [|c rest IH]; intros t Hnd Hin.
  - now apply elem_of_nil in Hin.
  - simpl in Hnd. apply NoDup_cons in Hnd as [Hfirst Hnd].
    apply elem_of_cons in Hin as [->|Hin].
    + unfold stage. simpl. fold (stage (<[aid (change_anchor c) := change_anchor c]> t) rest).
      rewrite stage_lookup_unchanged by exact Hfirst.
      apply lookup_insert_eq.
    + unfold stage. simpl. now apply IH.
Qed.

(** What the staged table holds at an id: the plan's change of it, or what
    the table held. *)
Lemma stage_lookup (t : gmap AnchorId Anchor) changes i a' :
  stage t changes !! i = Some a' ->
  (exists ch, ch ∈ changes /\ change_anchor ch = a' /\ aid a' = i)
  \/ (t !! i = Some a' /\ i ∉ (aid ∘ change_anchor <$> changes)).
Proof.
  revert t. induction changes as [|c rest IH]; intros t Hl.
  - right. split; [exact Hl | apply not_elem_of_nil].
  - unfold stage in Hl. simpl in Hl.
    destruct (IH _ Hl) as [(ch & Hin & Hch & Hid)|[Hl' Hnot]].
    + left. exists ch. split; [now apply list_elem_of_further | easy].
    + destruct (decide (aid (change_anchor c) = i)) as [Heq|Hne].
      * left. exists c. rewrite <- Heq, lookup_insert_eq in Hl'.
        injection Hl' as <-. split; [apply list_elem_of_here | easy].
      * right. rewrite lookup_insert_ne in Hl' by exact Hne.
        split; [exact Hl'|]. simpl. now apply not_elem_of_cons.
Qed.

Lemma stage_is_Some (t : gmap AnchorId Anchor) changes i :
  is_Some (t !! i) -> is_Some (stage t changes !! i).
Proof.
  revert t. induction changes as [|c rest IH]; intros t Hi; [exact Hi|].
  unfold stage. simpl. apply IH.
  destruct (decide (aid (change_anchor c) = i)) as [<-|Hne].
  - rewrite lookup_insert_eq. eauto.
  - now rewrite lookup_insert_ne.
Qed.

Lemma log_records_length n changes :
  length (log_records pol n changes) = length changes.
Proof.
  revert n. induction changes as [|c rest IH]; intros n; simpl; [reflexivity|].
  now rewrite IH.
Qed.

Lemma log_records_sequences n changes :
  sequence <$> log_records pol n changes = seq n (length changes).
Proof.
  revert n. induction changes as [|c rest IH]; intros n; simpl; [reflexivity|].
  now rewrite IH.
Qed.

Lemma elem_of_log_records n changes r :
  r ∈ log_records pol n changes ->
  exists ch, ch ∈ changes /\ after r = change_anchor ch
             /\ log_anchor_id r = aid (change_anchor ch) /\ n <= sequence r.
Proof.
  revert n. induction changes as [|c rest IH]; intros n; simpl.
  - intros Hr. now apply elem_of_nil in Hr.
  - intros Hr. apply elem_of_cons in Hr as [->|Hr].
    + exists c. simpl. split; [apply list_elem_of_here | auto].
    + destruct (IH _ Hr) as (ch & Hin & Hafter & Hid & Hseq).
      exists ch. split; [now apply list_elem_of_further|].
      repeat split; auto. lia.
Qed.

Lemma commit_table st changes :
  table (commit pol st changes).1 = stage (table st) changes.
Proof.
  revert st. induction changes as [|c rest IH]; intros st; [reflexivity|].
  simpl. specialize (IH (apply_change pol st c).1).
  destruct (commit pol (apply_change pol st c).1 rest) as [st2 es] eqn:Hc.
  simpl in *. unfold apply_change in Hc. simpl in Hc. rewrite Hc. simpl.
  exact IH.
Qed.

Lemma commit_engine st changes :
  engine (commit pol st changes).1
  = {| snapshots := snapshots (engine st);
       wal := wal (engine st)
              ++ log_records pol (next_sequence (engine st)) changes;
       next_sequence := next_sequence (engine st) + length changes |}.
Proof.
  revert st. induction changes as [|c rest IH]; intros st.
  - simpl. rewrite app_nil_r, Nat.add_0_r. now destruct (engine st).
  - simpl. specialize (IH (apply_change pol st c).1).
    destruct (commit pol (apply_change pol st c).1 rest) as [st2 es] eqn:Hc.
    simpl in *. unfold apply_change in Hc. simpl in Hc. rewrite Hc. simpl.
    rewrite IH. simpl. rewrite <- app_assoc. simpl.
    f_equal. lia.
Qed.

Lemma commit_events st changes :
  Forall2 event_of (commit pol st changes).2
    (log_records pol (next_sequence (engine st)) changes).
Proof.
  revert st. induction changes as [|c rest IH]; intros st; [constructor|].
  simpl. specialize (IH (apply_change pol st c).1).
  destruct (commit pol (apply_change pol st c).1 rest) as [st2 es] eqn:Hc.
  simpl in *. unfold apply_change in Hc. simpl in Hc. rewrite Hc. simpl.
  constructor; [now repeat split | exact IH].
Qed.


Lemma lookup_log_records n changes j r :
  log_records pol n changes !! j = Some r ->
  exists ch, changes !! j = Some ch /\ r = log_record pol (n + j) (change_anchor ch).
Proof.
  revert n j. induction changes as [|c rest IH]; intros n j; simpl; [easy|].
  destruct j as [|j]; simpl.
  - intros [= <-]. exists c. now rewrite Nat.add_0_r.
  - intros Hr. destruct (IH _ _ Hr) as (ch & Hch & ->).
    exists ch. split; [exact Hch|]. f_equal. lia.
Qed.

Lemma merged_into_ok_mono (t t' : gmap AnchorId Anchor) i a :
  merged_into_ok t i a ->
  (forall c, is_Some (t !! c) -> is_Some (t' !! c)) ->
  merged_into_ok t' i a.
Proof.
  unfold merged_into_ok. destruct (merged_into a) as [c|]; [|easy].
  intros (Hs & Hlt & Hc) Hmono. auto.
Qed.

Lemma live_not_merged a : live a = true -> state a <> merged.
Proof. unfold live. now destruct (state a). Qed.

Lemma live_merged_into_none (t : gmap AnchorId Anchor) i a :
  merged_into_ok t i a -> live a = true -> merged_into a = None.
Proof.
  unfold merged_into_ok. intros Hok Hlive.
  destruct (merged_into a) as [c|]; [|reflexivity].
  destruct Hok as [Hs _]. now apply live_not_merged in Hlive.
Qed.

(** A committed plan keeps the store well-formed. *)
Lemma commit_store_ok st changes :
  store_ok st -> plan_ok (table st) changes ->
  store_ok (commit pol st changes).1.
Proof.
  intros Hok [Hnd Hall].
  rewrite Forall_forall in Hall.
  pose proof (commit_table st changes) as Ht.
  pose proof (commit_engine st changes) as He.
  destruct (commit pol st changes) as [st' es]. simpl in *.
  assert (Hchanged : forall ch, ch ∈ changes ->
            table st' !! aid (change_anchor ch) = Some (change_anchor ch)).
  { intros ch Hin. rewrite Ht. now apply stage_lookup_changed. }
  split.
  - intros i a Hl. rewrite Ht in Hl.
    destruct (stage_lookup _ _ _ _ Hl) as [(ch & _ & _ & Hid)|[Hl' _]];
      [exact Hid | now apply (ok_keys st Hok)].
  - intros i a Hl. rewrite Ht in Hl |- *.
    destruct (stage_lookup _ _ _ _ Hl) as [(ch & Hin & <- & <-)|[Hl' _]].
    + eapply merged_into_ok_mono; [apply (Hall ch Hin)|].
      intros c. apply stage_is_Some.
    + eapply merged_into_ok_mono; [now apply (ok_merged st Hok)|].
      intros c. apply stage_is_Some.
  - rewrite He. simpl. rewrite fmap_app, (ok_sequences st Hok).
    rewrite log_records_sequences, (ok_next st Hok).
    rewrite length_app, log_records_length.
    now rewrite seq_app.
  - rewrite He. simpl. rewrite (ok_next st Hok), length_app, log_records_length.
    lia.
  - intros r Hr. rewrite He in Hr. simpl in Hr.
    apply elem_of_app in Hr as [Hr|Hr].
    + destruct (ok_logged st Hok r Hr) as (Hid & a & Hl & Hv).
      split; [exact Hid|].
      destruct (decide (log_anchor_id r ∈ (aid ∘ change_anchor <$> changes)))
        as [Hin|Hnot].
      * apply list_elem_of_fmap in Hin as (ch & Hch & Hin). simpl in Hch.
        exists (change_anchor ch). rewrite Hch. split; [now apply Hchanged|].
        destruct (Hall ch Hin) as [Hstep _].
        rewrite <- Hch, Hl in Hstep. destruct Hstep as [_ Hstep]. lia.
      * exists a. split; [|exact Hv].
        rewrite Ht. now rewrite stage_lookup_unchanged.
    + destruct (elem_of_log_records _ _ _ Hr) as (ch & Hin & Hafter & Hid & _).
      split; [now rewrite Hid, Hafter|].
      exists (change_anchor ch). rewrite Hid, Hafter.
      split; [now apply Hchanged | lia].
  - intros j k rj rk Hj Hk Hlt Hsame. rewrite He in Hj, Hk. simpl in Hj, Hk.
    apply lookup_app_Some in Hj as [Hj|[Hjlen Hj]];
      apply lookup_app_Some in Hk as [Hk|[Hklen Hk]].
    + now apply (ok_order st Hok j k).
    + apply list_elem_of_lookup_2 in Hj.
      destruct (ok_logged st Hok rj Hj) as (_ & a & Hl & Hv).
      apply list_elem_of_lookup_2 in Hk.
      destruct (elem_of_log_records _ _ _ Hk) as (ch & Hin & Hafter & Hid & _).
      destruct (Hall ch Hin) as [Hstep _].
      rewrite <- Hid, <- Hsame, Hl in Hstep. destruct Hstep as [_ Hstep].
      rewrite Hafter. lia.
    + apply lookup_lt_Some in Hk. lia.
    + destruct (lookup_log_records _ _ _ _ Hj) as (cj & Hcj & ->).
      destruct (lookup_log_records _ _ _ _ Hk) as (ck & Hck & ->).
      simpl in Hsame. exfalso.
      assert (j - length (wal (engine st)) = k - length (wal (engine st))); [|lia].
      eapply NoDup_lookup; [exact Hnd| |].
      * rewrite list_lookup_fmap, Hcj. reflexivity.
      * rewrite list_lookup_fmap, Hck. simpl. now rewrite Hsame.
Qed.


(** *** Every plan of the store is a legal one *)

Lemma absorb_live canon others ob :
  live canon = true -> live (absorb pol canon others ob) = true.
Proof.
  unfold live, absorb. simpl. destruct (state canon); try easy.
  now destruct (_ && _).
Qed.

Lemma absorb_change_ok (t : gmap AnchorId Anchor) i a others ob :
  t !! i = Some a -> aid a = i -> merged_into_ok t i a -> live a = true ->
  change_ok t (absorb pol a others ob).
Proof.
  intros Hl Hid Hm Hlive. unfold change_ok. split.
  - simpl. now rewrite Hid, Hl.
  - unfold merged_into_ok.
    change (merged_into (absorb pol a others ob)) with (merged_into a).
    rewrite (live_merged_into_none t i a Hm Hlive).
    apply live_not_merged. now apply absorb_live.
Qed.

Lemma merge_into_change_ok (t : gmap AnchorId Anchor) i a c :
  t !! i = Some a -> aid a = i -> live a = true ->
  c < i -> is_Some (t !! c) ->
  change_ok t (merge_into c a).
Proof.
  intros Hl Hid Hlive Hlt Hc. unfold change_ok. simpl. rewrite Hid, Hl.
  split; [easy|]. unfold merged_into_ok. simpl. easy.
Qed.

Lemma tombstone_change_ok (t : gmap AnchorId Anchor) i a :
  t !! i = Some a -> aid a = i -> merged_into_ok t i a -> live a = true ->
  change_ok t (tombstone a).
Proof.
  intros Hl Hid Hm Hlive. unfold change_ok. simpl. rewrite Hid, Hl.
  split; [easy|]. unfold merged_into_ok. simpl.
  now rewrite (live_merged_into_none t i a Hm Hlive).
Qed.

Lemma decay_change_ok (t : gmap AnchorId Anchor) now i a :
  t !! i = Some a -> aid a = i -> merged_into_ok t i a -> live a = true ->
  change_ok t (decay_anchor pol now a).
Proof.
  intros Hl Hid Hm Hlive. unfold change_ok. simpl. rewrite Hid, Hl.
  split; [easy|]. unfold merged_into_ok. simpl.
  rewrite (live_merged_into_none t i a Hm Hlive).
  destruct (_ && _); [easy | now apply live_not_merged].
Qed.

Lemma new_anchor_change_ok (t : gmap AnchorId Anchor) ob :
  change_ok t (new_anchor pol t ob).
Proof.
  unfold change_ok. simpl.
  assert (t !! fresh (dom t) = None) as ->.
  { apply not_elem_of_dom, is_fresh. }
  split; [easy|]. unfold merged_into_ok. simpl. easy.
Qed.

Lemma plan_spatial_ok st ob changes reported :
  store_ok st ->
  plan_spatial pol (table st) ob = Accept changes reported ->
  plan_ok (table st) changes.
Proof.
  intros Hok. unfold plan_spatial.
  destruct (merge_candidates pol (table st) (position (obs_pose ob)))
    as [|first rest] eqn:Hc.
  - intros [= <- _]. split.
    + simpl. apply NoDup_singleton.
    + constructor; [apply new_anchor_change_ok | constructor].
  - set (canon := lowest_id first rest).
    set (others := List.filter (fun o => negb (aid o =? aid canon)%nat) (first :: rest)).
    intros [= <- _].
    assert (Hcand : forall o, o ∈ first :: rest ->
              table st !! aid o = Some o /\ live o = true).
    { intros o Ho. rewrite <- Hc in Ho.
      apply elem_of_merge_candidates in Ho as ([i Hi] & _ & _ & Hlive).
      now rewrite (ok_keys st Hok i o Hi). }
    assert (Hcanon : canon ∈ first :: rest) by apply lowest_id_elem.
    assert (Hothers : forall o, o ∈ others ->
              o ∈ first :: rest /\ aid canon < aid o).
    { intros o Ho. apply elem_of_filter_bool in Ho as [Ho Hne].
      split; [exact Ho|].
      pose proof (lowest_id_le first rest o Ho) as Hle. fold canon in Hle.
      apply negb_true_iff, Nat.eqb_neq in Hne. lia. }
    assert (Hids : aid ∘ change_anchor
                   <$> (change_of ob op_merge ∘ merge_into (aid canon) <$> others)
                   = aid <$> others).
    { rewrite <- list_fmap_compose. now apply list_fmap_ext. }
    split.
    + rewrite fmap_cons, Hids. apply NoDup_cons. split.
      * intros Hin. apply list_elem_of_fmap in Hin as (o & Ho & Hin).
        apply Hothers in Hin as [_ Hlt]. simpl in Ho. lia.
      * apply (sublist_NoDup _
                 (aid <$> merge_candidates pol (table st) (position (obs_pose ob)))).
        -- apply merge_candidates_NoDup, (ok_keys st Hok).
        -- rewrite Hc. apply fmap_sublist, filter_bool_sublist.
    + constructor.
      * destruct (Hcand canon Hcanon) as [Hl Hlive]. simpl.
        eapply absorb_change_ok; eauto. now apply (ok_merged st Hok).
      * apply Forall_forall. intros ch Hch.
        apply list_elem_of_fmap in Hch as (o & -> & Ho). simpl.
        destruct (Hothers o Ho) as [Hin Hlt].
        destruct (Hcand o Hin) as [Hl Hlive].
        eapply merge_into_change_ok; eauto.
        destruct (Hcand canon Hcanon) as [Hlc _]. eauto.
Qed.

Lemma plan_ok_of st c changes reported :
  store_ok st ->
  plan pol (table st) c = Accept changes reported ->
  plan_ok (table st) changes.
Proof.
  intros Hok. destruct c as [ob|i s e now|now]; simpl.
  - unfold plan_submit_observation.
    destruct (negb (valid_pose (obs_pose ob))); [easy|].
    destruct (usable_candidate (table st) ob) as [a|] eqn:Hcand;
      [|apply plan_spatial_ok, Hok].
    intros [= <- _].
    unfold usable_candidate in Hcand.
    destruct (candidate_id ob) as [i|]; [|easy]. simpl in Hcand.
    destruct (table st !! i) as [b|] eqn:Hb; [|easy]. simpl in Hcand.
    destruct (live b) eqn:Hlive; [|easy]. injection Hcand as ->.
    split; [apply NoDup_singleton|].
    constructor; [|constructor]. simpl.
    eapply absorb_change_ok; eauto.
    + now apply (ok_keys st Hok).
    + now apply (ok_merged st Hok).
  - unfold plan_delete. destruct (table st !! i) as [a|] eqn:Hl; [|easy].
    destruct (negb _); [easy|].
    destruct (live a) eqn:Hlive; [|easy].
    intros [= <- _]. split; [apply NoDup_singleton|].
    constructor; [|constructor]. simpl.
    eapply tombstone_change_ok; eauto.
    + now apply (ok_keys st Hok).
    + now apply (ok_merged st Hok).
  - unfold plan_decay_tick. intros [= <- _]. split.
    + rewrite <- list_fmap_compose.
      eapply sublist_NoDup; [apply (anchors_NoDup (table st)), (ok_keys st Hok)|].
      erewrite list_fmap_ext; [apply fmap_sublist, filter_bool_sublist|].
      now intros a.
    + apply Forall_forall. intros ch Hch.
      apply list_elem_of_fmap in Hch as (a & -> & Ha). simpl.
      apply elem_of_filter_bool in Ha as [Ha Hlive].
      apply elem_of_anchors in Ha as [i Hi].
      eapply decay_change_ok; eauto.
      * now apply (ok_keys st Hok).
      * now apply (ok_merged st Hok).
Qed.

Lemma initial_store_ok : store_ok initial_store.
Proof.
  split; simpl; try easy.
Qed.

Lemma execute_store_ok st c :
  store_ok st -> store_ok (execute pol st c).1.1.
Proof.
  intros Hok. unfold execute.
  destruct (plan pol (table st) c) as [changes reported|e] eqn:Hplan; [|exact Hok].
  pose proof (commit_store_ok st changes Hok (plan_ok_of _ _ _ _ Hok Hplan)) as H.
  now destruct (commit pol st changes).
Qed.

Lemma run_store_snoc cmds c :
  run_store pol (cmds ++ [c]) = (execute pol (run_store pol cmds) c).1.1.
Proof. unfold run_store. now rewrite foldl_snoc. Qed.

Lemma run_store_ok cmds : store_ok (run_store pol cmds).
Proof.
  induction cmds as [|c cmds IH] using rev_ind; [apply initial_store_ok|].
  rewrite run_store_snoc. now apply execute_store_ok.
Qed.

End StoreFacts.

Section VersionFacts.
Import Core.
Context (pol : Policy).

Lemma seq_strictly_sorted start len : StronglySorted lt (seq start len).
Proof.
  revert start. induction len as [|len IH]; intros start; simpl; constructor.
  - apply IH.
  - apply Forall_forall. intros x Hx. apply elem_of_seq in Hx. lia.
Qed.

Lemma store_ok_sorted st :
  store_ok st -> StronglySorted lt (sequence <$> wal (engine st)).
Proof. intros Hok. rewrite (ok_sequences st Hok). apply seq_strictly_sorted. Qed.

Lemma log_records_complete n changes ch :
  ch ∈ changes ->
  exists r, r ∈ log_records pol n changes
            /\ after r = change_anchor ch
            /\ log_anchor_id r = aid (change_anchor ch).
Proof.
  revert n. induction changes as [|c rest IH]; intros n Hin.
  - now apply elem_of_nil in Hin.
  - apply elem_of_cons in Hin as [->|Hin]; simpl.
    + eexists. split; [apply list_elem_of_here | easy].
    + destruct (IH (S n) Hin) as (r & Hr & Hafter & Hid).
      exists r. split; [now apply list_elem_of_further | easy].
Qed.

(** What one operation does to a well-formed store. *)
Lemma execute_versions st c :
  store_ok st ->
  let st' := (execute pol st c).1.1 in
  (forall i a, table st !! i = Some a ->
     exists a', table st' !! i = Some a'
                /\ (a' = a \/ version a' = S (version a)))
  /\ (forall i a', table st' !! i = Some a' -> table st !! i = None ->
        version a' = 0)
  /\ exists new,
       wal (engine st') = (wal (engine st) ++ new)%list
       /\ (forall r, r ∈ new ->
             table st' !! log_anchor_id r = Some (after r)
             /\ version (after r)
                = match table st !! log_anchor_id r with
                  | Some a => S (version a)
                  | None => 0
                  end)
       /\ (forall i a a', table st !! i = Some a -> table st' !! i = Some a' ->
             a' <> a -> exists r, r ∈ new /\ log_anchor_id r = i /\ after r = a').
Proof.
  intros Hok. unfold execute.
  destruct (plan pol (table st) c) as [changes reported|e] eqn:Hplan; simpl.
  2:{ split; [eauto|]. split; [congruence|].
      exists []. rewrite app_nil_r. split; [reflexivity|].
      split; [intros r Hr; now apply elem_of_nil in Hr|].
      intros i a a' Ha Ha' Hne. congruence. }
  destruct (plan_ok_of pol _ _ _ _ Hok Hplan) as [Hnd Hall].
  rewrite Forall_forall in Hall.
  pose proof (commit_table pol st changes) as Ht.
  pose proof (commit_engine pol st changes) as He.
  destruct (commit pol st changes) as [st' es]. simpl in *.
  assert (Hstep : forall ch a, ch ∈ changes ->
            table st !! aid (change_anchor ch) = Some a ->
            version (change_anchor ch) = S (version a)).
  { intros ch a Hin Hl. destruct (Hall ch Hin) as [Hs _].
    rewrite Hl in Hs. tauto. }
  split; [|split].
  - intros i a Hl.
    destruct (decide (i ∈ (aid ∘ change_anchor <$> changes))) as [Hin|Hnot].
    + apply list_elem_of_fmap in Hin as (ch & -> & Hin). simpl in *.
      exists (change_anchor ch). rewrite Ht.
      split; [now apply stage_lookup_changed|].
      right. now apply Hstep.
    + exists a. rewrite Ht, stage_lookup_unchanged by exact Hnot. auto.
  - intros i a' Hl Hnone. rewrite Ht in Hl.
    destruct (stage_lookup _ _ _ _ Hl) as [(ch & Hin & <- & <-)|[Hl' _]];
      [|congruence].
    destruct (Hall ch Hin) as [Hs _]. rewrite Hnone in Hs. tauto.
  - exists (log_records pol (next_sequence (engine st)) changes).
    split; [now rewrite He|]. split.
    + intros r Hr.
      destruct (elem_of_log_records pol _ _ _ Hr) as (ch & Hin & -> & -> & _).
      rewrite Ht. split; [now apply stage_lookup_changed|].
      destruct (Hall ch Hin) as [Hs _].
      destruct (table st !! aid (change_anchor ch)); tauto.
    + intros i a a' Hl Hl' Hne. rewrite Ht in Hl'.
      destruct (stage_lookup _ _ _ _ Hl') as [(ch & Hin & <- & <-)|[Hl2 _]];
        [|congruence].
      destruct (log_records_complete (next_sequence (engine st)) changes ch Hin)
        as (r & Hr & Hafter & Hid).
      exists r. auto.
Qed.

End VersionFacts.

(** C1. Along every sequence of operations from the empty store, one more
    operation leaves every anchor either as it was or with its version one
    higher, and creates anchors at version 0; each record it appends to the
    log holds the anchor as the table now has it, at the version following
    the one before, and every anchor it changed has such a record. The
    sequence numbers of the whole log are strictly increasing, and along
    the log the versions recorded for one anchor are strictly increasing
    too. *)
Theorem version_and_sequence_strictly_increase
    (pol : Core.Policy) (cmds : list Core.Command) (c : Core.Command) :
  let st := Core.run_store pol cmds in
  let st' := (Core.execute pol st c).1.1 in
  (forall i a, Core.table st !! i = Some a ->
     exists a', Core.table st' !! i = Some a'
                /\ (a' = a \/ Core.version a' = S (Core.version a)))
  /\ (forall i a', Core.table st' !! i = Some a' -> Core.table st !! i = None ->
        Core.version a' = 0)
  /\ (exists new,
        Core.wal (Core.engine st') = (Core.wal (Core.engine st) ++ new)%list
        /\ (forall r, r ∈ new ->
              Core.table st' !! Core.log_anchor_id r = Some (Core.after r)
              /\ Core.version (Core.after r)
                 = match Core.table st !! Core.log_anchor_id r with
                   | Some a => S (Core.version a)
                   | None => 0
                   end)
        /\ (forall i a a',
              Core.table st !! i = Some a -> Core.table st' !! i = Some a' ->
              a' <> a ->
              exists r, r ∈ new /\ Core.log_anchor_id r = i /\ Core.after r = a'))
  /\ StronglySorted lt (Core.sequence <$> Core.wal (Core.engine st'))
  /\ (forall j k rj rk,
        Core.wal (Core.engine st') !! j = Some rj ->
        Core.wal (Core.engine st') !! k = Some rk ->
        j < k -> Core.log_anchor_id rj = Core.log_anchor_id rk ->
        Core.version (Core.after rj) < Core.version (Core.after rk)).
Proof.
  intros st st'.
  pose proof (run_store_ok pol cmds) as Hok. fold st in Hok.
  pose proof (execute_store_ok pol st c Hok) as Hok'. fold st' in Hok'.
  destruct (execute_versions pol st c Hok) as (H1 & H2 & H3).
  split; [exact H1|]. split; [exact H2|]. split; [exact H3|].
  split; [now apply store_ok_sorted | apply (Core.ok_order st' Hok')].
Qed.

(** ** Merging *)

Section MergeFacts.
Import Core.
Context (pol : Policy).

(** What a submit does when the spatial query finds matches. *)
Lemma submit_merges st ob first rest :
  store_ok st ->
  valid_pose (obs_pose ob) = true ->
  usable_candidate (table st) ob = None ->
  merge_candidates pol (table st) (position (obs_pose ob)) = first :: rest ->
  let canon := lowest_id first rest in
  let others :=
    List.filter (fun o => negb (aid o =? aid canon)%nat) (first :: rest) in
  let st' := (submit_observation pol st ob).1.1 in
  table st' !! aid canon = Some (absorb pol canon others ob)
  /\ forall o, o ∈ first :: rest -> aid o <> aid canon ->
       table st' !! aid o = Some (merge_into (aid canon) o).
Proof.
  intros Hok Hvalid Hcand Hmatch canon others st'.
  assert (Hplan : plan pol (table st) (SubmitObservation ob)
                  = Accept
                      (change_of ob (match others with [] => op_update | _ => op_merge end)
                         (absorb pol canon others ob)
                       :: (change_of ob op_merge ∘ merge_into (aid canon) <$> others))
                      (Some (aid canon, S (version canon)))).
  { simpl. unfold plan_submit_observation. rewrite Hvalid, Hcand. simpl.
    unfold plan_spatial. rewrite Hmatch. reflexivity. }
  destruct (plan_ok_of pol st _ _ _ Hok Hplan) as [Hnd _].
  subst st'. unfold submit_observation, execute. rewrite Hplan.
  pose proof (commit_table pol st
                (change_of ob (match others with [] => op_update | _ => op_merge end)
                   (absorb pol canon others ob)
                 :: (change_of ob op_merge ∘ merge_into (aid canon) <$> others))) as Ht.
  destruct (commit pol st _) as [st2 es]. simpl in Ht |- *. rewrite Ht.
  split.
  - apply (stage_lookup_changed (table st) _
             (change_of ob (match others with [] => op_update | _ => op_merge end)
                (absorb pol canon others ob)) Hnd).
    apply list_elem_of_here.
  - intros o Ho Hne.
    apply (stage_lookup_changed (table st) _
             (change_of ob op_merge (merge_into (aid canon) o)) Hnd).
    apply list_elem_of_further, list_elem_of_fmap.
    exists o. split; [reflexivity|].
    apply elem_of_filter_bool. split; [exact Ho|].
    now apply negb_true_iff, Nat.eqb_neq.
Qed.

End MergeFacts.

(** Merging, as the model of section 4.1 has it. In every state the
    operations reach, [merged_into] is set on merged anchors only and
    names an anchor of the table with a lower id. When the spatial query
    of a [submit_observation] on such a state finds matches within the
    merge radius, the match with the lowest id is the canonical one: in
    the resulting state it is still pending or confirmed, one version up,
    and every other match is merged, with [merged_into] naming it. *)
Theorem lowest_id_match_becomes_canonical
    (pol : Core.Policy) (cmds : list Core.Command) :
  let st := Core.run_store pol cmds in
  (forall i a, Core.table st !! i = Some a ->
     Core.merged_into_ok (Core.table st) i a)
  /\ forall ob first rest,
       Core.valid_pose (Core.obs_pose ob) = true ->
       Core.usable_candidate (Core.table st) ob = None ->
       Core.merge_candidates pol (Core.table st)
         (Core.position (Core.obs_pose ob)) = first :: rest ->
       let canon := Core.lowest_id first rest in
       let st' := (Core.submit_observation pol st ob).1.1 in
       canon ∈ first :: rest
       /\ (forall o, o ∈ first :: rest -> Core.aid canon <= Core.aid o)
       /\ (exists c', Core.table st' !! Core.aid canon = Some c'
                      /\ Core.live c' = true
                      /\ Core.version c' = S (Core.version canon))
       /\ (forall o, o ∈ first :: rest -> Core.aid o <> Core.aid canon ->
             exists o', Core.table st' !! Core.aid o = Some o'
                        /\ Core.state o' = Core.merged
                        /\ Core.merged_into o' = Some (Core.aid canon)).
Proof.
  intros st.
  pose proof (run_store_ok pol cmds) as Hok. fold st in Hok.
  split; [apply (Core.ok_merged st Hok)|].
  intros ob first rest Hvalid Hcand Hmatch canon st'.
  destruct (submit_merges pol st ob first rest Hok Hvalid Hcand Hmatch)
    as [Hcanon Hothers].
  fold canon st' in Hcanon, Hothers.
  assert (Hin : canon ∈ first :: rest) by apply lowest_id_elem.
  split; [exact Hin|]. split; [apply lowest_id_le|]. split.
  - eexists. split; [exact Hcanon|]. split; [|reflexivity].
    apply absorb_live.
    rewrite <- Hmatch in Hin. now apply elem_of_merge_candidates in Hin.
  - intros o Ho Hne. eexists. split; [now apply Hothers|]. now split.
Qed.

(** The theorem on two anchors 0.75 apart and an observation between them,
    within the merge radius 0.5 of both. *)
Lemma lowest_id_match_becomes_canonical_witness :
  exists first rest,
    Core.merge_candidates Core.sample_policy
      (Core.table (Core.run_store Core.sample_policy Core.bridge_commands))
      (Core.position (Core.obs_pose Core.bridge_observation))
    = first :: rest
    /\ Core.aid (Core.lowest_id first rest) = 0
    /\ forall o, o ∈ first :: rest ->
         Core.aid o <> Core.aid (Core.lowest_id first rest) ->
         exists o',
           Core.table
             (Core.submit_observation Core.sample_policy
                (Core.run_store Core.sample_policy Core.bridge_commands)
                Core.bridge_observation).1.1 !! Core.aid o = Some o'
           /\ Core.state o' = Core.merged
           /\ Core.merged_into o' = Some (Core.aid (Core.lowest_id first rest)).
Proof.
  destruct (Core.merge_candidates Core.sample_policy
              (Core.table (Core.run_store Core.sample_policy Core.bridge_commands))
              (Core.position (Core.obs_pose Core.bridge_observation)))
    as [|first rest] eqn:Hmatch; [vm_compute in Hmatch; discriminate|].
  exists first, rest. split; [reflexivity|]. split.
  - vm_compute in Hmatch. injection Hmatch as <- <-. reflexivity.
  - destruct (lowest_id_match_becomes_canonical Core.sample_policy
                Core.bridge_commands) as [_ Hmerge].
    apply (Hmerge Core.bridge_observation first rest).
    + vm_compute. reflexivity.
    + vm_compute. reflexivity.
    + exact Hmatch.
Defined.

(** The operations of section 4.1, taken by their words, do not keep the
    cluster property of sections 3 and 8: after [drift_commands] the
    anchors 0 and 1 are both shared, within the merge radius of each
    other, and both pending or confirmed; neither is merged. The third
    observation matched anchor 1 alone, and the weighted average moved it
    to within 0.4375 of anchor 0. Whether the anchor manager of [core.*]
    guards against this is not to be seen from the source tree. *)
Lemma near_anchors_both_live :
  (exists a b,
      Core.table (Core.run_store Core.sample_policy Core.drift_commands) !! 0 = Some a
      /\ Core.table (Core.run_store Core.sample_policy Core.drift_commands) !! 1 = Some b
      /\ Core.is_shared a = true /\ Core.is_shared b = true
      /\ Core.within (Core.merge_radius Core.sample_policy)
           (Core.position (Core.pose a)) (Core.position (Core.pose b)) = true
      /\ Core.state a = Core.pending /\ Core.state b = Core.confirmed)
  /\ ~ Core.single_live_per_cluster Core.sample_policy
         (Core.table (Core.run_store Core.sample_policy Core.drift_commands)).
Proof.
  assert (Hfacts : exists a b,
      Core.table (Core.run_store Core.sample_policy Core.drift_commands) !! 0 = Some a
      /\ Core.table (Core.run_store Core.sample_policy Core.drift_commands) !! 1 = Some b
      /\ Core.is_shared a = true /\ Core.is_shared b = true
      /\ Core.within (Core.merge_radius Core.sample_policy)
           (Core.position (Core.pose a)) (Core.position (Core.pose b)) = true
      /\ Core.state a = Core.pending /\ Core.state b = Core.confirmed).
  { destruct (Core.table (Core.run_store Core.sample_policy Core.drift_commands) !! 0)
      as [a|] eqn:Ha; [|vm_compute in Ha; discriminate].
    destruct (Core.table (Core.run_store Core.sample_policy Core.drift_commands) !! 1)
      as [b|] eqn:Hb; [|vm_compute in Hb; discriminate].
    exists a, b. vm_compute in Ha, Hb.
    injection Ha as <-. injection Hb as <-.
    repeat split; vm_compute; reflexivity. }
  split; [exact Hfacts|].
  destruct Hfacts as (a & b & Ha & Hb & Hsa & Hsb & Hnear & Hpa & Hpb).
  intros Hclaim.
  assert (Hlive : Core.live a = true).
  { unfold Core.live. rewrite Hpa. reflexivity. }
  assert (Hne : 0 <> 1) by lia.
  destruct (Hclaim 0 1 a b Hne Ha Hb Hsa Hsb Hnear Hlive) as [Hmerged _].
  rewrite Hpb in Hmerged. discriminate Hmerged.
Qed.

(** ** Synchronization *)

Section SyncFacts.
Import Core.
Context (pol : Policy).

Lemma strongly_sorted_lookup {A} (R : relation A) (l : list A) i j x y :
  StronglySorted R l -> l !! i = Some x -> l !! j = Some y -> i < j -> R x y.
Proof.
  intros Hs. revert i j. induction Hs as [|a l Hs IH Hall]; intros i j Hi Hj Hlt.
  - easy.
  - destruct j as [|j]; [lia|]. destruct i as [|i]; simpl in *.
    + injection Hi as ->. rewrite Forall_forall in Hall.
      apply Hall. eapply list_elem_of_lookup_2, Hj.
    + apply (IH i j Hi Hj). lia.
Qed.

Lemma strongly_sorted_sublist {A} (R : relation A) (l1 l2 : list A) :
  l1 `sublist_of` l2 -> StronglySorted R l2 -> StronglySorted R l1.
Proof.
  induction 1 as [|x l1 l2 Hsub IH|x l1 l2 Hsub IH]; intros Hs.
  - constructor.
  - apply StronglySorted_inv in Hs as [Hs Hall]. constructor; [now apply IH|].
    rewrite Forall_forall in Hall |- *. intros y Hy. apply Hall.
    eapply elem_of_sublist; eauto.
  - apply StronglySorted_inv in Hs as [Hs _]. now apply IH.
Qed.

Lemma sorted_snoc (l : list Published) p :
  StronglySorted lt (pub_sequence <$> l) ->
  (forall q, q ∈ l -> pub_sequence q < pub_sequence p) ->
  StronglySorted lt (pub_sequence <$> l ++ [p]).
Proof.
  intros Hs Hlt. rewrite fmap_app. apply StronglySorted_app_2; [|exact Hs|].
  - intros x1 x2 Hx1 Hx2. apply list_elem_of_fmap in Hx1 as (q & -> & Hq).
    simpl in Hx2. apply list_elem_of_singleton in Hx2 as ->. now apply Hlt.
  - simpl. repeat constructor.
Qed.

(** *** Events and the log *)

Lemma logged_bound st p :
  store_ok st -> logged st p -> pub_sequence p < next_sequence (engine st).
Proof.
  intros Hok (r & Hr & Hseq & _). rewrite Hseq, (ok_next st Hok).
  assert (sequence r ∈ seq 1 (length (wal (engine st)))) as Hin.
  { rewrite <- (ok_sequences st Hok). now apply list_elem_of_fmap_2. }
  apply elem_of_seq in Hin. lia.
Qed.

Lemma wal_lookup_sequence st k r :
  store_ok st -> wal (engine st) !! k = Some r -> sequence r = S k.
Proof.
  intros Hok Hk.
  assert ((sequence <$> wal (engine st)) !! k = Some (sequence r)) as Hs.
  { now rewrite list_lookup_fmap, Hk. }
  rewrite (ok_sequences st Hok) in Hs.
  apply lookup_seq in Hs. lia.
Qed.

Lemma execute_events st c :
  store_ok st ->
  pub_sequence <$> (execute pol st c).2
  = seq (next_sequence (engine st)) (length (execute pol st c).2)
  /\ (forall p, p ∈ (execute pol st c).2 -> logged (execute pol st c).1.1 p)
  /\ (forall q, logged st q -> logged (execute pol st c).1.1 q).
Proof.
  intros Hok. unfold execute.
  destruct (plan pol (table st) c) as [changes reported|e]; simpl.
  2:{ split; [reflexivity|]. split; [|easy].
      intros p Hp. now apply elem_of_nil in Hp. }
  pose proof (commit_engine pol st changes) as He.
  pose proof (commit_events pol st changes) as Hev.
  destruct (commit pol st changes) as [st' es]. simpl in *.
  split; [|split].
  - rewrite (Forall2_length _ _ _ Hev), log_records_length.
    rewrite <- (log_records_sequences pol).
    apply list_eq_Forall2, Forall2_fmap, Forall2_impl with (1 := Hev).
    now intros p r [Hseq _].
  - intros p Hp.
    apply list_elem_of_lookup in Hp as [k Hk].
    destruct (Forall2_lookup_l _ _ _ _ _ Hev Hk) as (r & Hr & Hpr).
    exists r. split; [|exact Hpr]. rewrite He. simpl.
    apply elem_of_app. right. eapply list_elem_of_lookup_2, Hr.
  - intros q (r & Hr & Hqr). exists r. split; [|exact Hqr].
    rewrite He. simpl. apply elem_of_app. now left.
Qed.

(** *** Fan-out *)

Lemma enqueue_holds s p q :
  q ∈ delivered (enqueue pol s p) ++ queue (enqueue pol s p) ->
  q ∈ delivered s ++ queue s \/ q = p.
Proof.
  unfold enqueue. destruct (_ <? _)%nat; simpl.
  - rewrite app_assoc, elem_of_app, list_elem_of_singleton. tauto.
  - rewrite app_nil_r. intros Hq. left. apply elem_of_app. now left.
Qed.

Lemma enqueue_sorted s p :
  StronglySorted lt (pub_sequence <$> delivered s ++ queue s) ->
  (forall q, q ∈ delivered s ++ queue s -> pub_sequence q < pub_sequence p) ->
  StronglySorted lt
    (pub_sequence <$> delivered (enqueue pol s p) ++ queue (enqueue pol s p)).
Proof.
  intros Hs Hlt. unfold enqueue. destruct (_ <? _)%nat; simpl.
  - rewrite app_assoc. now apply sorted_snoc.
  - rewrite app_nil_r. rewrite fmap_app in Hs.
    now apply StronglySorted_app_1_l in Hs.
Qed.

Lemma publish_session sm p sid s' :
  sessions (publish pol sm p) !! sid = Some s' ->
  exists s, sessions sm !! sid = Some s
            /\ (s' = enqueue pol s p \/ s' = s).
Proof.
  unfold publish. simpl. rewrite map_lookup_imap.
  destruct (sessions sm !! sid) as [s|]; simpl; [|easy].
  intros [= <-]. exists s. split; [reflexivity|].
  destruct (affected pol sid s p); auto.
Qed.

Lemma held_publish sm p q :
  held (publish pol sm p) q -> held sm q \/ q = p.
Proof.
  intros [Hb|(sid & s' & Hs & Hq)].
  - unfold publish, retain in Hb. simpl in Hb.
    eapply elem_of_sublist in Hb; [|apply sublist_drop].
    apply elem_of_app in Hb as [Hb|Hb]; [left; now left|].
    right. now apply list_elem_of_singleton in Hb.
  - destruct (publish_session _ _ _ _ Hs) as (s & Hl & [->| ->]).
    + apply enqueue_holds in Hq as [Hq| ->]; [|now right].
      left. right. eauto.
    + left. right. eauto.
Qed.

Lemma publish_order sm p :
  in_sequence_order sm ->
  (forall q, held sm q -> pub_sequence q < pub_sequence p) ->
  in_sequence_order (publish pol sm p).
Proof.
  intros [Hb Hsess] Hlt. split.
  - unfold publish, retain. simpl.
    eapply strongly_sorted_sublist; [apply fmap_sublist, sublist_drop|].
    apply sorted_snoc; [exact Hb|]. intros q Hq. apply Hlt. now left.
  - intros sid s' Hs.
    destruct (publish_session _ _ _ _ Hs) as (s & Hl & [->| ->]).
    + apply enqueue_sorted; [now apply (Hsess sid)|].
      intros q Hq. apply Hlt. right. eauto.
    + now apply (Hsess sid).
Qed.

(** Publishing the events of one operation, in their order. *)
Lemma publish_all events : forall sm b,
  in_sequence_order sm ->
  (forall q, held sm q -> pub_sequence q < b) ->
  pub_sequence <$> events = seq b (length events) ->
  in_sequence_order (foldl (publish pol) sm events)
  /\ forall q, held (foldl (publish pol) sm events) q -> held sm q \/ q ∈ events.
Proof.
  induction events as [|p rest IH]; intros sm b Hord Hlt Hseq; simpl.
  - split; [exact Hord | auto].
  - rewrite fmap_cons in Hseq. simpl in Hseq.
    injection Hseq as Hp Hrest.
    destruct (IH (publish pol sm p) (S b)) as [Hord' Hheld'].
    + apply publish_order; [exact Hord|]. intros q Hq. rewrite Hp. now apply Hlt.
    + intros q Hq. apply held_publish in Hq as [Hq| ->]; [|lia].
      specialize (Hlt q Hq). lia.
    + exact Hrest.
    + split; [exact Hord'|]. intros q Hq.
      destruct (Hheld' q Hq) as [Hq'|Hq'].
      * apply held_publish in Hq' as [Hq'| ->]; [now left|].
        right. apply list_elem_of_here.
      * right. now apply list_elem_of_further.
Qed.

(** *** The moves of a session *)

(** A change of one session that adds no event and keeps the order. *)
Lemma update_session_ok st sm sid f :
  (forall s q, q ∈ delivered (f s) ++ queue (f s) -> q ∈ delivered s ++ queue s) ->
  (forall s, StronglySorted lt (pub_sequence <$> delivered s ++ queue s) ->
             StronglySorted lt (pub_sequence <$> delivered (f s) ++ queue (f s))) ->
  (forall p, held sm p -> logged st p) -> in_sequence_order sm ->
  (forall p, held (update_session sm sid f) p -> logged st p)
  /\ in_sequence_order (update_session sm sid f).
Proof.
  intros Hsub Hsort Hlog [Hb Hsess]. split.
  - intros p [Hp|(sid' & s' & Hs & Hp)]; [apply Hlog; now left|].
    unfold update_session in Hs. simpl in Hs.
    apply lookup_alter_Some in Hs as [(-> & s & Hl & ->)|[_ Hl]].
    + apply Hlog. right. exists sid', s. split; [exact Hl | now apply Hsub].
    + apply Hlog. right. eauto.
  - split; [exact Hb|]. intros sid' s' Hs.
    unfold update_session in Hs. simpl in Hs.
    apply lookup_alter_Some in Hs as [(-> & s & Hl & ->)|[_ Hl]].
    + apply Hsort. now apply (Hsess sid').
    + now apply (Hsess sid').
Qed.

(** A session put in place that holds backlog events only, in their order. *)
Lemma insert_session_ok st sm sid s' :
  (forall q, q ∈ delivered s' ++ queue s' -> q ∈ backlog sm) ->
  StronglySorted lt (pub_sequence <$> delivered s' ++ queue s') ->
  (forall p, held sm p -> logged st p) -> in_sequence_order sm ->
  let sm' := {| sessions := <[sid := s']> (sessions sm);
                backlog := backlog sm;
                latest_sequence := latest_sequence sm;
                sync_operations_total := sync_operations_total sm |} in
  (forall p, held sm' p -> logged st p) /\ in_sequence_order sm'.
Proof.
  intros Hsub Hsort Hlog [Hb Hsess] sm'. split.
  - intros p [Hp|(sid' & s & Hs & Hp)]; [apply Hlog; now left|].
    simpl in Hs. destruct (decide (sid = sid')) as [<-|Hne].
    + rewrite lookup_insert_eq in Hs. injection Hs as <-.
      apply Hlog. left. now apply Hsub.
    + rewrite lookup_insert_ne in Hs by exact Hne. apply Hlog. right. eauto.
  - split; [exact Hb|]. intros sid' s Hs.
    simpl in Hs. destruct (decide (sid = sid')) as [<-|Hne].
    + rewrite lookup_insert_eq in Hs. now injection Hs as <-.
    + rewrite lookup_insert_ne in Hs by exact Hne. now apply (Hsess sid').
Qed.


Lemma connect_ok st sm sid :
  (forall p, held sm p -> logged st p) -> in_sequence_order sm ->
  (forall p, held (connect sm sid) p -> logged st p)
  /\ in_sequence_order (connect sm sid).
Proof.
  intros Hlog Hord. unfold connect.
  assert (Hnew : forall r,
            let s' := {| phase := connecting; region := r; cursor := 0;
                         queue := []; resync := false; delivered := [] |} in
            (forall q, q ∈ delivered s' ++ queue s' -> q ∈ backlog sm)
            /\ StronglySorted lt (pub_sequence <$> delivered s' ++ queue s')).
  { intros r s'. simpl. split; [|constructor].
    intros q Hq. now apply elem_of_nil in Hq. }
  destruct (sessions sm !! sid) as [s|].
  - destruct (bool_decide (phase s = closed)); [|easy].
    apply insert_session_ok; [apply Hnew|apply Hnew|exact Hlog|exact Hord].
  - apply insert_session_ok; [apply Hnew|apply Hnew|exact Hlog|exact Hord].
Qed.

Lemma subscribe_ok st sm sid r start :
  (forall p, held sm p -> logged st p) -> in_sequence_order sm ->
  (forall p, held (subscribe pol sm sid r start) p -> logged st p)
  /\ in_sequence_order (subscribe pol sm sid r start).
Proof.
  intros Hlog Hord. unfold subscribe.
  destruct (sessions sm !! sid) as [s|]; [|easy].
  destruct (bool_decide (phase s = connecting)); [|easy].
  destruct (covered sm start && _).
  - apply insert_session_ok; [| |exact Hlog|exact Hord]; simpl.
    + intros q Hq. now apply elem_of_filter_bool in Hq as [Hq _].
    + eapply strongly_sorted_sublist; [apply fmap_sublist, filter_bool_sublist|].
      apply Hord.
  - apply insert_session_ok; [| |exact Hlog|exact Hord]; simpl.
    + intros q Hq. now apply elem_of_nil in Hq.
    + constructor.
Qed.

Lemma deliver_ok st sm sid :
  (forall p, held sm p -> logged st p) -> in_sequence_order sm ->
  (forall p, held (deliver sm sid) p -> logged st p)
  /\ in_sequence_order (deliver sm sid).
Proof.
  apply update_session_ok.
  - intros s q. destruct (phase s), (queue s) as [|p rest] eqn:Hq; try easy;
      simpl; rewrite ?Hq, <- ?app_assoc; easy.
  - intros s. destruct (phase s), (queue s) as [|p rest] eqn:Hq; try easy;
      simpl; rewrite ?Hq, <- ?app_assoc; easy.
Qed.

Lemma disconnect_ok st sm sid :
  (forall p, held sm p -> logged st p) -> in_sequence_order sm ->
  (forall p, held (disconnect sm sid) p -> logged st p)
  /\ in_sequence_order (disconnect sm sid).
Proof.
  apply update_session_ok.
  - intros s q. destruct (phase s); try easy; simpl;
      rewrite app_nil_r; intros Hq; apply elem_of_app; now left.
  - intros s. destruct (phase s); try easy; simpl;
      rewrite app_nil_r, fmap_app; apply StronglySorted_app_1_l.
Qed.

Lemma close_ok st sm sid :
  (forall p, held sm p -> logged st p) -> in_sequence_order sm ->
  (forall p, held (close sm sid) p -> logged st p)
  /\ in_sequence_order (close sm sid).
Proof.
  apply update_session_ok; intros s; now destruct (phase s).
Qed.

Lemma snapshot_store_ok st :
  store_ok st ->
  store_ok {| table := table st; engine := snapshot pol (engine st) (table st) |}.
Proof. intros [H1 H2 H3 H4 H5 H6]. now split. Qed.

(** Every step of the service keeps it well-formed. *)
Lemma step_ok sys a : system_ok sys -> system_ok (step pol sys a).
Proof.
  intros [Hstore Hlog Hord].
  destruct a as [c|sid|sid r start|sid|sid seq|sid r|sid|sid|]; simpl.
  - pose proof (execute_store_ok pol (store sys) c Hstore) as Hstore'.
    destruct (execute_events (store sys) c Hstore) as (Hseq & Hnew & Hold).
    destruct (execute pol (store sys) c) as [[st' reply] events]. simpl in *.
    destruct (publish_all events (sync sys) (next_sequence (engine (store sys)))
                Hord) as [Hord' Hheld]; [|exact Hseq|].
    { intros q Hq. apply logged_bound; auto. }
    split; simpl; [exact Hstore'| |exact Hord'].
    intros p Hp. destruct (Hheld p Hp) as [Hp'|Hp']; auto.
  - destruct (connect_ok (store sys) (sync sys) sid Hlog Hord). now split.
  - destruct (subscribe_ok (store sys) (sync sys) sid r start Hlog Hord). now split.
  - destruct (deliver_ok (store sys) (sync sys) sid Hlog Hord). now split.
  - destruct (update_session_ok (store sys) (sync sys) sid
                (fun s => {| phase := phase s; region := region s;
                             cursor := cursor s `max` seq; queue := queue s;
                             resync := resync s; delivered := delivered s |}))
      as [H1 H2]; [easy|easy|exact Hlog|exact Hord|].
    now split.
  - destruct (update_session_ok (store sys) (sync sys) sid
                (fun s => {| phase := phase s; region := r;
                             cursor := cursor s; queue := queue s;
                             resync := resync s; delivered := delivered s |}))
      as [H1 H2]; [easy|easy|exact Hlog|exact Hord|].
    now split.
  - destruct (disconnect_ok (store sys) (sync sys) sid Hlog Hord). now split.
  - destruct (close_ok (store sys) (sync sys) sid Hlog Hord). now split.
  - split; simpl; [now apply snapshot_store_ok | exact Hlog | exact Hord].
Qed.

Lemma initial_system_ok : system_ok initial_system.
Proof.
  split; simpl.
  - apply initial_store_ok.
  - intros p [Hp|(sid & s & Hs & _)]; [now apply elem_of_nil in Hp|].
    unfold initial_sync in Hs. simpl in Hs. now rewrite lookup_empty in Hs.
  - split; [constructor|]. intros sid s Hs.
    unfold initial_sync in Hs. simpl in Hs. now rewrite lookup_empty in Hs.
Qed.

Lemma run_ok actions : system_ok (run pol actions).
Proof.
  induction actions as [|a actions IH] using rev_ind; [apply initial_system_ok|].
  unfold run. rewrite foldl_snoc. now apply step_ok.
Qed.

(** For events of the log, the order of sequence numbers is the order of
    the versions of each anchor. *)
Lemma logged_versions st p q :
  store_ok st -> logged st p -> logged st q ->
  anchor_id (pub_event p) = anchor_id (pub_event q) ->
  pub_sequence p < pub_sequence q ->
  event_version (pub_event p) < event_version (pub_event q).
Proof.
  intros Hok (rp & Hrp & Hsp & Hip & Hvp) (rq & Hrq & Hsq & Hiq & Hvq) Hid Hlt.
  apply list_elem_of_lookup in Hrp as [j Hj].
  apply list_elem_of_lookup in Hrq as [k Hk].
  rewrite Hvp, Hvq. apply (ok_order st Hok j k); auto.
  - rewrite (wal_lookup_sequence st j rp Hok Hj) in Hsp.
    rewrite (wal_lookup_sequence st k rq Hok Hk) in Hsq. lia.
  - congruence.
Qed.

End SyncFacts.

(** C4. In every run of the service, what a session has been delivered is
    in strictly increasing order of sequence number, and of two delivered
    events of one anchor the one with the lower version was delivered
    first: no version of an anchor is seen before an earlier one. *)
Theorem delivery_follows_sequence_and_version
    (pol : Core.Policy) (actions : list Core.Action)
    (sid : nat) (s : Core.AnchorSession) :
  Core.sessions (Core.sync (Core.run pol actions)) !! sid = Some s ->
  StronglySorted lt (Core.pub_sequence <$> Core.delivered s)
  /\ forall i j p q,
       Core.delivered s !! i = Some p -> Core.delivered s !! j = Some q ->
       Core.anchor_id (Core.pub_event p) = Core.anchor_id (Core.pub_event q) ->
       Core.event_version (Core.pub_event p) < Core.event_version (Core.pub_event q) ->
       i < j.
Proof.
  intros Hs.
  destruct (run_ok pol actions) as [Hstore Hlog [_ Hsess]].
  specialize (Hsess sid s Hs). rewrite fmap_app in Hsess.
  apply StronglySorted_app_1_l in Hsess.
  split; [exact Hsess|].
  intros i j p q Hi Hj Hid Hv.
  assert (Hheld : forall k e, Core.delivered s !! k = Some e ->
            Core.logged (Core.store (Core.run pol actions)) e).
  { intros k e Hk. apply Hlog. right. exists sid, s. split; [exact Hs|].
    apply elem_of_app. left. eapply list_elem_of_lookup_2, Hk. }
  destruct (Nat.lt_trichotomy i j) as [Hlt|[Heq|Hgt]]; [exact Hlt| |].
  - subst j. rewrite Hi in Hj. injection Hj as <-. lia.
  - exfalso.
    assert (Core.pub_sequence q < Core.pub_sequence p) as Hseq.
    { apply (strongly_sorted_lookup lt (Core.pub_sequence <$> Core.delivered s) j i);
        [exact Hsess | | | exact Hgt].
      - now rewrite list_lookup_fmap, Hj.
      - now rewrite list_lookup_fmap, Hi. }
    pose proof (logged_versions (Core.store (Core.run pol actions)) q p Hstore
                  (Hheld j q Hj) (Hheld i p Hi) (eq_sym Hid) Hseq).
    lia.
Qed.

(** The theorem on a session that was delivered two versions of one
    anchor: sequence 1 carries version 0 of anchor 0, sequence 2 version 1. *)
Lemma delivery_follows_sequence_and_version_witness :
  exists s,
    Core.sessions (Core.sync (Core.run Core.sample_policy Core.sample_actions)) !! 7
    = Some s
    /\ (fun p => (Core.pub_sequence p, Core.anchor_id (Core.pub_event p),
                  Core.event_version (Core.pub_event p))) <$> Core.delivered s
       = [(1, 0, 0); (2, 0, 1)]
    /\ StronglySorted lt (Core.pub_sequence <$> Core.delivered s)
    /\ forall i j p q,
         Core.delivered s !! i = Some p -> Core.delivered s !! j = Some q ->
         Core.anchor_id (Core.pub_event p) = Core.anchor_id (Core.pub_event q) ->
         Core.event_version (Core.pub_event p)
         < Core.event_version (Core.pub_event q) ->
         i < j.
Proof.
  destruct (Core.sessions
              (Core.sync (Core.run Core.sample_policy Core.sample_actions)) !! 7)
    as [s|] eqn:Hs; [|vm_compute in Hs; discriminate].
  exists s. split; [reflexivity|]. split.
  - vm_compute in Hs. injection Hs as <-. reflexivity.
  - exact (delivery_follows_sequence_and_version Core.sample_policy
             Core.sample_actions 7 s Hs).
Defined.

(** ** Recovery *)

Section RecoverableFacts.
Import Core.
Context (pol : Policy).

Lemma replay_app expected t l1 l2 :
  replay pol expected t (l1 ++ l2)
  = match replay pol expected t l1 with
    | inr (t', e') => replay pol e' t' l2
    | inl err => inl err
    end.
Proof.
  revert expected t. induction l1 as [|r l1 IH]; intros expected t; simpl;
    [reflexivity|].
  destruct (_ && _); [apply IH | reflexivity].
Qed.

Lemma filter_app_bool {A} (f : A -> bool) (l1 l2 : list A) :
  List.filter f (l1 ++ l2) = List.filter f l1 ++ List.filter f l2.
Proof. apply List.filter_app. Qed.

Lemma log_record_intact n a : record_intact pol (log_record pol n a) = true.
Proof.
  unfold record_intact, log_record. simpl.
  now rewrite Z.eqb_refl, Nat.eqb_refl.
Qed.

(** One more change keeps the persisted state in step with the table. *)
Lemma apply_change_recoverable st ch :
  recoverable pol st -> recoverable pol (apply_change pol st ch).1.
Proof.
  intros [Hrec Hlog Hsnap]. unfold apply_change. simpl.
  set (a := change_anchor ch).
  set (r := log_record pol (next_sequence (engine st)) a).
  assert (Hr : forall e t,
            e = next_sequence (engine st) ->
            replay pol e t [r]
            = inr (<[aid a := a]> t, S (next_sequence (engine st)))).
  { intros e t ->. unfold r. cbn [replay].
    rewrite (log_record_intact (next_sequence (engine st)) a).
    change (sequence (log_record pol (next_sequence (engine st)) a))
      with (next_sequence (engine st)).
    now rewrite Nat.eqb_refl. }
  split; simpl.
  - intros r' Hr'. apply elem_of_app in Hr' as [Hr'|Hr']; [now apply Hrec|].
    apply list_elem_of_singleton in Hr' as ->. apply log_record_intact.
  - rewrite replay_app, Hlog. now apply Hr.
  - intros s Hs. destruct (Hsnap s Hs) as (Hi & Hlt & Hre).
    split; [exact Hi|]. split; [lia|].
    rewrite filter_app_bool, replay_app, Hre. simpl.
    apply Nat.ltb_lt in Hlt. rewrite Hlt. now apply Hr.
Qed.

Lemma commit_recoverable st changes :
  recoverable pol st -> recoverable pol (commit pol st changes).1.
Proof.
  revert st. induction changes as [|ch rest IH]; intros st Hrec; [exact Hrec|].
  simpl. specialize (IH _ (apply_change_recoverable st ch Hrec)).
  unfold apply_change in IH. simpl in IH.
  now destruct (commit pol _ rest).
Qed.

Lemma execute_recoverable st c :
  recoverable pol st -> recoverable pol (execute pol st c).1.1.
Proof.
  intros Hrec. unfold execute.
  destruct (plan pol (table st) c) as [changes reported|e]; [|exact Hrec].
  pose proof (commit_recoverable st changes Hrec).
  now destruct (commit pol st changes).
Qed.

(** A snapshot of the table keeps it so. *)
Lemma snapshot_recoverable st :
  store_ok st -> recoverable pol st ->
  recoverable pol
    {| table := table st; engine := snapshot pol (engine st) (table st) |}.
Proof.
  intros Hok [Hrec Hlog Hsnap]. split; simpl; [exact Hrec|exact Hlog|].
  intros s Hs. apply elem_of_cons in Hs as [->|Hs]; [|now apply Hsnap].
  simpl. pose proof (ok_next st Hok) as Hnext.
  split; [unfold snapshot_intact; simpl; apply Z.eqb_refl|].
  split; [lia|].
  rewrite filter_none.
  - simpl. now rewrite Hnext.
  - intros r Hr. apply Nat.ltb_ge.
    assert (sequence r ∈ seq 1 (length (wal (engine st)))) as Hin.
    { rewrite <- (ok_sequences st Hok). now apply list_elem_of_fmap_2. }
    apply elem_of_seq in Hin. lia.
Qed.

Lemma initial_store_recoverable : recoverable pol initial_store.
Proof.
  split; simpl; [|reflexivity|]; intros x Hx; now apply elem_of_nil in Hx.
Qed.

Lemma run_recoverable actions : recoverable pol (store (run pol actions)).
Proof.
  induction actions as [|a actions IH] using rev_ind;
    [apply initial_store_recoverable|].
  unfold run. rewrite foldl_snoc. fold (run pol actions).
  pose proof (sys_store _ (run_ok pol actions)) as Hok.
  destruct a; simpl; try exact IH.
  - pose proof (execute_recoverable (store (run pol actions)) c IH) as H.
    now destruct (execute pol (store (run pol actions)) c) as [[st' reply] events].
  - now apply snapshot_recoverable.
Qed.

(** Recovery is correct: in every state the service reaches, [load] of what
    the persistence engine holds gives the table and the next sequence. *)
Lemma load_after_run actions :
  let st := store (run pol actions) in
  load pol (snapshots (engine st)) (wal (engine st))
  = inr (table st, next_sequence (engine st)).
Proof.
  intros st. destruct (run_recoverable actions) as [_ Hlog Hsnap]. fold st in Hlog, Hsnap.
  unfold load. destruct (snapshots (engine st)) as [|s older] eqn:Hs; [exact Hlog|].
  destruct (Hsnap s) as (Hi & _ & Hre); [apply list_elem_of_here|].
  simpl. rewrite Hi. exact Hre.
Qed.

End RecoverableFacts.

Section RecoveryFacts.
Import Core.
Context (pol : Policy).

(** A replay that succeeds has seen consecutive sequence numbers, starting
    at the expected one. *)
Lemma replay_sequences expected t records t' n :
  replay pol expected t records = inr (t', n) ->
  n = expected + length records
  /\ sequence <$> records = seq expected (length records).
Proof.
  revert expected t. induction records as [|r rest IH]; intros expected t Hre;
    simpl in Hre.
  - injection Hre as <- <-. split; [simpl; lia | reflexivity].
  - destruct (Nat.eqb_spec (sequence r) expected) as [Heq|]; [|easy].
    simpl in Hre. destruct (record_intact pol r); [|easy].
    destruct (IH _ _ Hre) as [-> Hseq].
    split; [simpl; lia|]. rewrite fmap_cons, Hseq, Heq. reflexivity.
Qed.

Lemma latest_intact_elem snaps s :
  latest_intact pol snaps = Some s -> s ∈ snaps /\ snapshot_intact pol s = true.
Proof.
  induction snaps as [|s0 older IH]; simpl; [easy|].
  destruct (snapshot_intact pol s0) eqn:Hs0.
  - intros [= <-]. split; [apply list_elem_of_here | exact Hs0].
  - intros Hs. destruct (IH Hs). split; [now apply list_elem_of_further | easy].
Qed.

(** After a load, the next sequence is past every record of the log. *)
Lemma load_bounds snaps records t n :
  load pol snaps records = inr (t, n) ->
  1 <= n /\ forall r, r ∈ records -> sequence r < n.
Proof.
  unfold load. destruct snaps as [|s0 older].
  - intros Hre. destruct (replay_sequences _ _ _ _ _ Hre) as [-> Hseq].
    split; [lia|]. intros r Hr.
    assert (sequence r ∈ seq 1 (length records)) as Hin.
    { rewrite <- Hseq. now apply list_elem_of_fmap_2. }
    apply elem_of_seq in Hin. lia.
  - destruct (latest_intact pol (s0 :: older)) as [s|]; [|easy].
    set (kept := List.filter (fun r => (snapshot_sequence s <? sequence r)%nat) records).
    intros Hre. destruct (replay_sequences _ _ _ _ _ Hre) as [-> Hseq].
    split; [lia|]. intros r Hr.
    destruct (Nat.ltb_spec (snapshot_sequence s) (sequence r)) as [Hlt|Hle]; [|lia].
    assert (r ∈ kept) as Hkept.
    { apply elem_of_filter_bool. split; [exact Hr|]. now apply Nat.ltb_lt. }
    assert (sequence r ∈ seq (S (snapshot_sequence s)) (length kept)) as Hin.
    { rewrite <- Hseq. now apply list_elem_of_fmap_2. }
    apply elem_of_seq in Hin. lia.
Qed.

End RecoveryFacts.

(** C3. When [load] of the persisted snapshots and log gives a table and a
    next sequence, taking a snapshot of that table in the recovered engine
    and loading again gives the same table and the same next sequence. *)
Theorem recovery_idempotent
    (pol : Core.Policy) (snaps : list Core.Snapshot)
    (records : list Core.LogRecord)
    (t : gmap nat Core.Anchor) (n : nat) :
  Core.load pol snaps records = inr (t, n) ->
  let recovered :=
    {| Core.snapshots := snaps; Core.wal := records; Core.next_sequence := n |} in
  let snapshotted := Core.snapshot pol recovered t in
  Core.load pol (Core.snapshots snapshotted) (Core.wal snapshotted) = inr (t, n).
Proof.
  intros Hload recovered snapshotted.
  destruct (load_bounds pol snaps records t n Hload) as [Hn Hbound].
  unfold Core.load.
  change (Core.snapshots snapshotted)
    with ({| Core.snapshot_sequence := pred n;
             Core.snapshot_table := t;
             Core.snapshot_checksum := Core.table_checksum pol t |} :: snaps).
  simpl Core.latest_intact.
  unfold Core.snapshot_intact at 1. simpl. rewrite Z.eqb_refl.
  rewrite filter_none.
  - destruct n as [|m]; [lia | reflexivity].
  - intros r Hr. apply Nat.ltb_ge. specialize (Hbound r Hr).
    destruct n as [|m]; simpl; lia.
Qed.

(** The theorem on the sample run: the service has taken a snapshot and
    committed one more observation; it is recovered, snapshotted and
    recovered again. *)
Lemma recovery_idempotent_witness :
  let st := Core.store (Core.run Core.sample_policy Core.sample_actions_with_snapshot) in
  let recovered :=
    {| Core.snapshots := Core.snapshots (Core.engine st);
       Core.wal := Core.wal (Core.engine st);
       Core.next_sequence := Core.next_sequence (Core.engine st) |} in
  let snapshotted := Core.snapshot Core.sample_policy recovered (Core.table st) in
  Core.load Core.sample_policy (Core.snapshots (Core.engine st))
    (Core.wal (Core.engine st))
  = inr (Core.table st, Core.next_sequence (Core.engine st))
  /\ Core.load Core.sample_policy (Core.snapshots snapshotted) (Core.wal snapshotted)
     = inr (Core.table st, Core.next_sequence (Core.engine st)).
Proof.
  intros st recovered snapshotted.
  assert (Hload : Core.load Core.sample_policy (Core.snapshots (Core.engine st))
                    (Core.wal (Core.engine st))
                  = inr (Core.table st, Core.next_sequence (Core.engine st))).
  { vm_compute. reflexivity. }
  split; [exact Hload|].
  exact (recovery_idempotent Core.sample_policy _ _ _ _ Hload).
Defined.

(** ** The cloud anchor service: the probes of [/health] *)

Section CloudAnswerFacts.
Import CloudAnchorService CloudAnchorAnswers.
Context {AM PE SM : Type}.
Context (am_health_check : AM -> Outcome bool * AM)
        (pe_health_check : PE -> Outcome bool * PE)
        (sm_health_check : SM -> Outcome bool * SM).




End CloudAnswerFacts.



(** ** The cloud anchor service: [/health] and [/metrics], call by call *)

Section CloudHandlerFacts.
Import Py Aio CloudAnchorHandlers.
Context (respond : Trace Call -> Call -> outcome value)
        (format : value -> string) (env : CloudAnchorService.Env).

(** One case per answer of the next call: it returns, it raises an
    [Exception], it raises something else. *)
Ltac answer :=
  match goal with
  | |- context [respond ?t ?c] =>
      let r := fresh "r" in
      let H := fresh "H" in
      destruct (respond t c) as [r|[r|r]] eqn:H;
      cbn -[made returned raised last_raised calls_of truthy]
  end.

(** One case per truth value of what a [health_check()] returned. *)
Ltac truth :=
  match goal with
  | |- context [truthy ?v] =>
      let H := fresh "Htruthy" in
      destruct (truthy v) eqn:H;
      cbn -[made returned raised last_raised calls_of truthy]
  end.

(** Every run of [/health]. *)
Lemma health_check_runs (w : World Call Globals) :
  exists r new w',
    health_check respond env w = (r, w')
    /\ calls w' = calls w ++ new
    /\ globals w' = globals w
    /\ calls_of new `prefix_of` List.filter (present (globals w)) health_checks
    /\ (forall b, r = Raise b <-> last_raised new = Some b /\ as_exception b = None)
    /\ (forall b, r = Raise b -> logger w' = logger w)
    /\ (forall e, last_raised new = Some (Exception e) ->
          r = Return (health_error_response env e)
          /\ logger w'
             = logger w ++ [(ERROR, ("Health check failed: " ++ str e)%string)])
    /\ (forall answer, r = Return answer ->
          (status_code answer = 200 \/ status_code answer = 503)
          /\ (status_code answer = 200 <->
              globals w = CloudAnchorLifespan.all_set
              /\ calls_of new = health_checks
              /\ forallb (fun x => reports_healthy x.2) new = true)
          /\ (status_code answer = 200 ->
              lookup_item "status" (content answer) = Some (VStr "healthy")
              /\ logger w' = logger w)
          /\ (status_code answer = 503 ->
              lookup_item "status" (content answer) = Some (VStr "unhealthy"))).
Proof.
  destruct w as [[a p s] t l].
  unfold health_check, try_except, health_check_try, health_check_except,
    probe, bind, call, log, read, ret.
  destruct a, p, s.
  all: cbn -[made returned raised last_raised calls_of truthy].
  all: repeat answer.
  all: repeat truth.
  all: eexists _, _, _; split; [reflexivity|]; split;
    [cbn; rewrite <- ?app_assoc;
     first [reflexivity | symmetry; apply app_nil_r]|].
  all: cbn -[truthy].
  all: repeat match goal with |- _ /\ _ => split end.
  all: try reflexivity.
  all: try (apply (bool_decide_unpack _); vm_compute; exact I).
  all: intros.
  all: repeat match goal with
              | H : _ /\ _ |- _ => destruct H
              | H : Return _ = Return _ |- _ => injection H as H; subst
              | H : Raise _ = Raise _ |- _ => injection H as H; subst
              | H : Some _ = Some _ |- _ => injection H as H; subst
              | |- _ /\ _ => split
              | |- _ <-> _ => split; intros
              end.
  all: try discriminate; try reflexivity; try congruence.
  all: cbn -[truthy] in *; rewrite ?Htruthy, ?Htruthy0, ?Htruthy1 in *.
  all: try discriminate; try reflexivity; try congruence; auto.
  all: repeat match goal with
              | H : _ && _ = true |- _ => apply andb_prop in H; destruct H
              end.
  all: try discriminate; try congruence.
Qed.

(** One case per value of a global that is tested. *)
Ltac held :=
  match goal with
  | |- context [if ?b then _ else _] =>
      is_var b; destruct b;
      cbn -[made returned raised last_raised calls_of
            anchor_metric_lines persistence_metric_lines sync_metric_lines]
  end.

(** One case per answer of the next [get_metrics()]. *)
Ltac metrics_answer :=
  match goal with
  | |- context [respond ?t ?c] =>
      let r := fresh "r" in
      let H := fresh "H" in
      destruct (respond t c) as [r|[r|r]] eqn:H;
      cbn -[made returned raised last_raised calls_of
            anchor_metric_lines persistence_metric_lines sync_metric_lines]
  end.

(** One case per outcome of reading the result of a [get_metrics()]. *)
Ltac rendered :=
  match goal with
  | |- context [anchor_metric_lines format ?v] =>
      let H := fresh "Hlines" in
      destruct (anchor_metric_lines format v) eqn:H
  | |- context [persistence_metric_lines format ?v] =>
      let H := fresh "Hlines" in
      destruct (persistence_metric_lines format v) eqn:H
  | |- context [sync_metric_lines format ?v] =>
      let H := fresh "Hlines" in
      destruct (sync_metric_lines format v) eqn:H
  end;
  cbn -[made returned raised last_raised calls_of
        anchor_metric_lines persistence_metric_lines sync_metric_lines].

(** X4. The [/metrics] handler never gives the error answer of its outer
    [except], and it raises exactly when a [get_metrics()] it awaits
    raises something that is no [Exception] (a [CancelledError]): that
    passes both [except Exception] clauses. Otherwise the text is the
    service information, the availability gauge (1 exactly when the three
    managers are set), the lines of each manager and the timestamp, in
    that order. The handler calls [get_metrics()] on the managers that are
    set, in the order anchor manager, persistence engine, synchronization
    manager, and nothing else; it leaves the globals as they were. A
    manager adds its lines exactly when its [get_metrics()] returns a
    dict; one that raises an [Exception], or returns something that is no
    dict ([None], say), costs its own lines only and leaves a warning in
    the log. *)
Theorem metrics_answers_and_drops_only_failing_managers
    (w : World Call Globals) :
  exists r new w',
    prometheus_metrics respond format env w = (r, w')
    /\ calls w' = calls w ++ new
    /\ globals w' = globals w
    /\ logger w' = logger w ++ flat_map (added_warning format) new
    /\ r = match last_raised new with
           | Some (NotException class_name) => Raise (NotException class_name)
           | _ =>
               Return
                 (CloudAnchorService.join_lines
                    (info_lines env
                     ++ up_lines (service_up (globals w))
                     ++ flat_map (added_lines format) new
                     ++ stamp_lines env))
           end
    /\ calls_of new `prefix_of` List.filter (present (globals w)) metrics_calls
    /\ (is_return r = true ->
        calls_of new = List.filter (present (globals w)) metrics_calls).
Proof.
  destruct w as [[a p s] t l].
  unfold prometheus_metrics, prometheus_metrics_try,
    prometheus_metrics_except, metrics_block, try_except, bind, call, log, read,
    ret, lift, of_result.
  cbn -[made returned raised last_raised calls_of
        anchor_metric_lines persistence_metric_lines sync_metric_lines].
  repeat first [metrics_answer | rendered | held].
  all: eexists _, _, _; split; [reflexivity|]; split;
    [cbn; rewrite <- ?app_assoc;
     first [reflexivity | symmetry; apply app_nil_r]|].
  all: cbn -[anchor_metric_lines persistence_metric_lines sync_metric_lines].
  all: unfold added_lines, added_warning; cbn -[anchor_metric_lines persistence_metric_lines sync_metric_lines].
  all: rewrite ?Hlines, ?Hlines0, ?Hlines1.
  all: repeat match goal with |- _ /\ _ => split end.
  all: try reflexivity.
  all: try (rewrite <- ?app_assoc, ?app_nil_r; reflexivity).
  all: try (intros; discriminate).
  all: repeat match goal with b : bool |- _ => destruct b end.
  all: apply (bool_decide_unpack _); vm_compute; exact I.
Qed.

End CloudHandlerFacts.


(** X2. When a [health_check()] of a manager raises an [Exception] (and
    those of the managers probed before it returned), the [/health]
    handler does not raise: it answers 503 with the body of the [except]
    branch, whose [error] is [str(e)], and logs one error record, "Health
    check failed: " followed by the message. *)
Theorem health_answers_503_with_the_message_of_a_raising_check
    (respond : Aio.Trace CloudAnchorHandlers.Call -> CloudAnchorHandlers.Call
               -> Aio.outcome Py.value)
    (env : CloudAnchorService.Env)
    (w w' : Aio.World CloudAnchorHandlers.Call CloudAnchorHandlers.Globals)
    (r : Aio.outcome CloudAnchorHandlers.Response)
    (new : Aio.Trace CloudAnchorHandlers.Call) (e : Py.exn) :
  CloudAnchorHandlers.health_check respond env w = (r, w') ->
  Aio.calls w' = Aio.calls w ++ new ->
  Aio.last_raised new = Some (Aio.Exception e) ->
  r = Aio.Return (CloudAnchorHandlers.health_error_response env e)
  /\ Aio.logger w'
     = Aio.logger w ++ [(Py.ERROR, ("Health check failed: " ++ Py.str e)%string)]
  /\ CloudAnchorHandlers.status_code
       (CloudAnchorHandlers.health_error_response env e) = 503
  /\ Py.lookup_item "error"
       (CloudAnchorHandlers.content
          (CloudAnchorHandlers.health_error_response env e))
     = Some (Py.VStr (Py.str e)).
Proof.
  intros Hrun Hcalls Hlast.
  destruct (health_check_runs respond env w)
    as (r1 & new1 & w1 & Hrun1 & Hcalls1 & _ & _ & _ & _ & Hexn & _).
  rewrite Hrun in Hrun1. injection Hrun1 as <- <-.
  rewrite Hcalls in Hcalls1. apply app_inv_head in Hcalls1. subst new1.
  destruct (Hexn e Hlast) as [Hr Hlog].
  repeat split; assumption || reflexivity.
Qed.

(** The theorem on the sample service, whose synchronization manager
    raises in [health_check()] after the other two have returned. *)
Lemma health_answers_503_with_the_message_of_a_raising_check_witness :
  (CloudAnchorHandlers.health_check CloudAnchorHandlers.sample_respond
     CloudAnchorService.sample_env CloudAnchorHandlers.started_world).1
  = Aio.Return
      (CloudAnchorHandlers.health_error_response CloudAnchorService.sample_env
         {| Py.class_of := Py.OtherError "ConnectionError";
            Py.str := "sync channel closed" |})
  /\ Aio.logger
       (CloudAnchorHandlers.health_check CloudAnchorHandlers.sample_respond
          CloudAnchorService.sample_env CloudAnchorHandlers.started_world).2
     = [(Py.ERROR, "Health check failed: sync channel closed"%string)].
Proof.
  let run := eval vm_compute in
      (CloudAnchorHandlers.health_check CloudAnchorHandlers.sample_respond
         CloudAnchorService.sample_env CloudAnchorHandlers.started_world) in
  match run with
  | (?r, ?w') =>
      assert (CloudAnchorHandlers.health_check CloudAnchorHandlers.sample_respond
                CloudAnchorService.sample_env CloudAnchorHandlers.started_world
              = (r, w')) as Hrun by (vm_compute; reflexivity);
      destruct (health_answers_503_with_the_message_of_a_raising_check
                  CloudAnchorHandlers.sample_respond
                  CloudAnchorService.sample_env
                  CloudAnchorHandlers.started_world w' r (Aio.calls w')
                  {| Py.class_of := Py.OtherError "ConnectionError";
                     Py.str := "sync channel closed" |}
                  Hrun eq_refl eq_refl) as (Hr & Hlog & _)
  end.
  rewrite Hrun. split.
  - cbn [fst]. exact Hr.
  - cbn [snd]. rewrite Hlog. reflexivity.
Defined.

(** ** The cloud anchor service: [/health], [/healthz] and the getters *)

Section HealthyServiceFacts.
Import CloudAnchorService.
Context {AM PE SM : Type}.
Context (am_health_check : AM -> Outcome bool * AM)
        (pe_health_check : PE -> Outcome bool * PE)
        (sm_health_check : SM -> Outcome bool * SM).


End HealthyServiceFacts.



(** ** The cloud anchor service: lifespan *)

Section LifespanFacts.
Import Py Aio CloudAnchorLifespan.
Context (respond : Trace Call -> Call -> outcome value) (format : value -> string).

(** One case per answer of the next call: it returns, it raises an
    [Exception], it raises something else. *)
Ltac answer :=
  match goal with
  | |- context [respond ?t ?c] =>
      let r := fresh "r" in
      let H := fresh "H" in
      destruct (respond t c) as [r|[r|r]] eqn:H;
      cbn -[made returned raised last_raised startup_error calls_of errors]
  end.

(** One case per value of a global that is tested. *)
Ltac held :=
  match goal with
  | |- context [if ?b then _ else _] =>
      is_var b; destruct b;
      cbn -[made returned raised last_raised startup_error calls_of errors]
  end.

(** Every run of [lifespan], by what the globals hold on entry and by the
    answers of the calls it makes. *)
Lemma lifespan_runs (w : World Call Globals) :
  exists r new lines w',
    lifespan respond format w = (r, w')
    /\ calls w' = calls w ++ new
    /\ logger w' = logger w ++ lines
    /\ (* what leaves is what was raised last *)
       r = match last_raised new with Some b => Raise b | None => Return tt end
    /\ (* the application runs on a started service only *)
       (made Yield new = true ->
        take 10 (calls_of new) = startup_sequence
        /\ forallb (fun x => is_return x.2) (take 9 new) = true
        /\ globals w' = all_set)
    /\ (* the calls: a start, as far as it got, then the shutdowns *)
       (List.filter (fun c => negb (is_shutdown c)) (calls_of new)
          `prefix_of` startup_sequence
        /\ List.filter is_shutdown (calls_of new) `sublist_of` shutdown_sequence
        /\ calls_of new
           = List.filter (fun c => negb (is_shutdown c)) (calls_of new)
             ++ List.filter is_shutdown (calls_of new))
    /\ (* what is shut down *)
       ((made ShutdownSynchronizationManager new
         = returned NewSynchronizationManager new || sync_manager (globals w))
        /\ (made ShutdownAnchorManager new
            = negb (raised ShutdownSynchronizationManager new)
              && (returned NewAnchorManager new || anchor_manager (globals w)))
        /\ (made ShutdownPersistenceEngine new
            = negb (raised ShutdownSynchronizationManager new)
              && negb (raised ShutdownAnchorManager new)
              && (returned NewPersistenceEngine new
                  || persistence_engine (globals w))))
    /\ (* what is logged as an error *)
       errors lines
       = match startup_error new with
         | Some (Exception e) =>
             [("Anchor service startup failed - persistence layer error: "
               ++ str e)%string]
         | _ => []
         end.
Proof.
  destruct w as [[a p s] t l].
  unfold lifespan, try_finally, try_except, startup, shutdown, startup_failed,
    shutdown_if, construct, await, bind, call, log, read, assign, ret, raise.
  cbn -[made returned raised last_raised startup_error calls_of errors].
  repeat first [answer | held].
  all: eexists _, _, _, _; split; [reflexivity|]; split; [|split];
    [ cbn; rewrite <- ?app_assoc; reflexivity
    | cbn; rewrite <- ?app_assoc; reflexivity | ].
  all: repeat match goal with |- _ /\ _ => split end.
  all: try (vm_compute; reflexivity).
  all: try (apply (bool_decide_unpack _); vm_compute; exact I).
  all: try (intros Hy; vm_compute in Hy; discriminate).
  all: try (intros _; vm_compute; repeat split; reflexivity).
  all: match goal with
       | |- ?a `sublist_of` ?b =>
           let a' := eval vm_compute in a in
           let b' := eval vm_compute in b in
           change (a' `sublist_of` b')
       end;
       repeat first [apply sublist_nil | apply sublist_skip | apply sublist_cons].
Qed.

End LifespanFacts.

(** X5. [lifespan], run from the module as imported, makes its calls in one
    order whatever they answer: the start of the [try] block as far as it
    gets, then the [shutdown()] calls of the [finally] clause, the
    synchronization manager first, the persistence engine last. The
    application runs (the [yield] is reached) only when the nine steps
    before it have all returned, and then the three globals are set. *)
Theorem lifespan_serves_only_a_started_service
    (respond : Aio.Trace CloudAnchorLifespan.Call -> CloudAnchorLifespan.Call
               -> Aio.outcome Py.value)
    (format : Py.value -> string)
    (w w' : Aio.World CloudAnchorLifespan.Call CloudAnchorLifespan.Globals)
    (r : Aio.outcome unit) (new : Aio.Trace CloudAnchorLifespan.Call) :
  Aio.globals w = CloudAnchorLifespan.unset ->
  CloudAnchorLifespan.lifespan respond format w = (r, w') ->
  Aio.calls w' = Aio.calls w ++ new ->
  List.filter (fun c => negb (CloudAnchorLifespan.is_shutdown c))
    (Aio.calls_of new)
    `prefix_of` CloudAnchorLifespan.startup_sequence
  /\ List.filter CloudAnchorLifespan.is_shutdown (Aio.calls_of new)
       `sublist_of` CloudAnchorLifespan.shutdown_sequence
  /\ Aio.calls_of new
     = List.filter (fun c => negb (CloudAnchorLifespan.is_shutdown c))
         (Aio.calls_of new)
       ++ List.filter CloudAnchorLifespan.is_shutdown
            (Aio.calls_of new)
  /\ (Aio.made CloudAnchorLifespan.Yield new = true ->
      take 10 (Aio.calls_of new)
      = CloudAnchorLifespan.startup_sequence
      /\ forallb (fun x => Aio.is_return x.2) (take 9 new) = true
      /\ Aio.globals w' = CloudAnchorLifespan.all_set).
Proof.
  intros _ Hrun Hcalls.
  destruct (lifespan_runs respond format w)
    as (r1 & new1 & lines & w1 & Hrun1 & Hcalls1 & _ & _ & Hserve & Horder & _).
  rewrite Hrun in Hrun1. injection Hrun1 as <- <-.
  rewrite Hcalls in Hcalls1. apply app_inv_head in Hcalls1. subst new1.
  destruct Horder as (Hp & Hs & Heq). auto.
Qed.

(** The theorem on a start that goes through and a clean stop: the
    thirteen calls, in order. *)
Lemma lifespan_serves_only_a_started_service_witness :
  Aio.calls_of
    (Aio.calls
       (CloudAnchorLifespan.lifespan CloudAnchorLifespan.sample_respond_ok
          CloudAnchorLifespan.sample_format CloudAnchorLifespan.fresh_world).2)
  = CloudAnchorLifespan.startup_sequence ++ CloudAnchorLifespan.shutdown_sequence
  /\ Aio.globals
       (CloudAnchorLifespan.lifespan CloudAnchorLifespan.sample_respond_ok
          CloudAnchorLifespan.sample_format CloudAnchorLifespan.fresh_world).2
     = CloudAnchorLifespan.all_set.
Proof.
  let run := eval vm_compute in
      (CloudAnchorLifespan.lifespan CloudAnchorLifespan.sample_respond_ok
         CloudAnchorLifespan.sample_format CloudAnchorLifespan.fresh_world) in
  match run with
  | (?r, ?w') =>
      assert (CloudAnchorLifespan.lifespan CloudAnchorLifespan.sample_respond_ok
                CloudAnchorLifespan.sample_format CloudAnchorLifespan.fresh_world
              = (r, w')) as Hrun by (vm_compute; reflexivity);
      destruct (lifespan_serves_only_a_started_service
                  CloudAnchorLifespan.sample_respond_ok
                  CloudAnchorLifespan.sample_format
                  CloudAnchorLifespan.fresh_world w' r (Aio.calls w')
                  eq_refl Hrun eq_refl) as (_ & _ & _ & Hserve)
  end.
  rewrite Hrun. split; [vm_compute; reflexivity|].
  apply Hserve. vm_compute. reflexivity.
Defined.

(** X6. On the way out, with or without an exception, [lifespan] calls
    [shutdown()] on the managers whose global is set by then: those
    whose constructor returned in this run, also one whose [initialize()]
    raised, and those an earlier run has left in the globals, which the
    module never resets. It calls it on no other, and a [shutdown()] that
    raises keeps the ones after it from being called. *)
Theorem lifespan_shuts_down_what_the_globals_hold
    (respond : Aio.Trace CloudAnchorLifespan.Call -> CloudAnchorLifespan.Call
               -> Aio.outcome Py.value)
    (format : Py.value -> string)
    (w w' : Aio.World CloudAnchorLifespan.Call CloudAnchorLifespan.Globals)
    (r : Aio.outcome unit) (new : Aio.Trace CloudAnchorLifespan.Call) :
  CloudAnchorLifespan.lifespan respond format w = (r, w') ->
  Aio.calls w' = Aio.calls w ++ new ->
  Aio.made CloudAnchorLifespan.ShutdownSynchronizationManager new
  = (CloudAnchorLifespan.sync_manager (Aio.globals w)
     || Aio.returned CloudAnchorLifespan.NewSynchronizationManager new)
  /\ Aio.made CloudAnchorLifespan.ShutdownAnchorManager new
     = (CloudAnchorLifespan.anchor_manager (Aio.globals w)
        || Aio.returned CloudAnchorLifespan.NewAnchorManager new)
       && negb (Aio.raised
                  CloudAnchorLifespan.ShutdownSynchronizationManager new)
  /\ Aio.made CloudAnchorLifespan.ShutdownPersistenceEngine new
     = (CloudAnchorLifespan.persistence_engine (Aio.globals w)
        || Aio.returned CloudAnchorLifespan.NewPersistenceEngine new)
       && negb (Aio.raised
                  CloudAnchorLifespan.ShutdownSynchronizationManager new)
       && negb (Aio.raised
                  CloudAnchorLifespan.ShutdownAnchorManager new).
Proof.
  intros Hrun Hcalls.
  destruct (lifespan_runs respond format w)
    as (r1 & new1 & lines & w1 & Hrun1 & Hcalls1 & _ & _ & _ & _ & Hstop & _).
  rewrite Hrun in Hrun1. injection Hrun1 as <- <-.
  rewrite Hcalls in Hcalls1. apply app_inv_head in Hcalls1. subst new1.
  destruct Hstop as (-> & -> & ->).
  repeat split.
  - apply orb_comm.
  - rewrite andb_comm. f_equal. apply orb_comm.
  - rewrite (orb_comm (Aio.returned _ new)).
    destruct (CloudAnchorLifespan.persistence_engine (Aio.globals w)
              || Aio.returned CloudAnchorLifespan.NewPersistenceEngine new),
      (Aio.raised CloudAnchorLifespan.ShutdownSynchronizationManager new),
      (Aio.raised CloudAnchorLifespan.ShutdownAnchorManager new);
      reflexivity.
Qed.

(** The theorem on a module whose earlier run left a persistence engine in
    its global, and a start whose first constructor raises: the engine
    of the earlier run is shut down. *)
Lemma lifespan_shuts_down_what_the_globals_hold_witness :
  Aio.calls_of
    (Aio.calls
       (CloudAnchorLifespan.lifespan CloudAnchorLifespan.sample_respond_no_engine
          CloudAnchorLifespan.sample_format CloudAnchorLifespan.stale_world).2)
  = [ CloudAnchorLifespan.NewPersistenceEngine;
      CloudAnchorLifespan.ShutdownPersistenceEngine ]
  /\ Aio.made CloudAnchorLifespan.ShutdownPersistenceEngine
       (Aio.calls
          (CloudAnchorLifespan.lifespan CloudAnchorLifespan.sample_respond_no_engine
             CloudAnchorLifespan.sample_format CloudAnchorLifespan.stale_world).2)
     = true.
Proof.
  let run := eval vm_compute in
      (CloudAnchorLifespan.lifespan CloudAnchorLifespan.sample_respond_no_engine
         CloudAnchorLifespan.sample_format CloudAnchorLifespan.stale_world) in
  match run with
  | (?r, ?w') =>
      assert (CloudAnchorLifespan.lifespan CloudAnchorLifespan.sample_respond_no_engine
                CloudAnchorLifespan.sample_format CloudAnchorLifespan.stale_world
              = (r, w')) as Hrun by (vm_compute; reflexivity);
      destruct (lifespan_shuts_down_what_the_globals_hold
                  CloudAnchorLifespan.sample_respond_no_engine
                  CloudAnchorLifespan.sample_format
                  CloudAnchorLifespan.stale_world w' r (Aio.calls w')
                  Hrun eq_refl) as (_ & _ & Hpe)
  end.
  rewrite Hrun. split; [vm_compute; reflexivity|].
  cbn [snd]. rewrite Hpe. vm_compute. reflexivity.
Defined.

(** X7. [lifespan] returns exactly when none of its calls raised;
    otherwise what leaves it is what was raised last, so a [shutdown()]
    that raises replaces the exception of a failed start. An [Exception]
    of the [try] block, one thrown in at the [yield] included, is logged
    once as a startup failure, with its message. What the [try] block
    raises outside [Exception] (a [CancelledError] at an [await] or thrown
    in at the [yield]) passes the [except] clause and is not logged; nor
    is what a [shutdown()] raises. Nothing else is logged as an error. *)
Theorem lifespan_raises_what_was_raised_last
    (respond : Aio.Trace CloudAnchorLifespan.Call -> CloudAnchorLifespan.Call
               -> Aio.outcome Py.value)
    (format : Py.value -> string)
    (w w' : Aio.World CloudAnchorLifespan.Call CloudAnchorLifespan.Globals)
    (r : Aio.outcome unit) (new : Aio.Trace CloudAnchorLifespan.Call) :
  CloudAnchorLifespan.lifespan respond format w = (r, w') ->
  Aio.calls w' = Aio.calls w ++ new ->
  r = match Aio.last_raised new with
      | Some b => Aio.Raise b
      | None => Aio.Return tt
      end
  /\ exists lines,
       Aio.logger w' = Aio.logger w ++ lines
       /\ CloudAnchorLifespan.errors lines
          = match CloudAnchorLifespan.startup_error new with
            | Some (Aio.Exception e) =>
                [("Anchor service startup failed - persistence layer error: "
                  ++ Py.str e)%string]
            | _ => []
            end.
Proof.
  intros Hrun Hcalls.
  destruct (lifespan_runs respond format w)
    as (r1 & new1 & lines & w1 & Hrun1 & Hcalls1 & Hlog & Hout & _ & _ & _ & Herr).
  rewrite Hrun in Hrun1. injection Hrun1 as <- <-.
  rewrite Hcalls in Hcalls1. apply app_inv_head in Hcalls1. subst new1.
  split; [exact Hout|]. exists lines. auto.
Qed.

(** The theorem on a start that goes through, with the task cancelled
    while the application runs: the [CancelledError] leaves [lifespan]
    after the three managers were shut down, and no error is logged. *)
Lemma lifespan_raises_what_was_raised_last_witness :
  (CloudAnchorLifespan.lifespan CloudAnchorLifespan.sample_respond_cancelled
     CloudAnchorLifespan.sample_format CloudAnchorLifespan.fresh_world).1
  = Aio.Raise Aio.CancelledError
  /\ CloudAnchorLifespan.errors
       (Aio.logger
          (CloudAnchorLifespan.lifespan CloudAnchorLifespan.sample_respond_cancelled
             CloudAnchorLifespan.sample_format CloudAnchorLifespan.fresh_world).2)
     = []
  /\ Aio.calls_of
       (Aio.calls
          (CloudAnchorLifespan.lifespan CloudAnchorLifespan.sample_respond_cancelled
             CloudAnchorLifespan.sample_format CloudAnchorLifespan.fresh_world).2)
     = CloudAnchorLifespan.startup_sequence ++ CloudAnchorLifespan.shutdown_sequence.
Proof.
  let run := eval vm_compute in
      (CloudAnchorLifespan.lifespan CloudAnchorLifespan.sample_respond_cancelled
         CloudAnchorLifespan.sample_format CloudAnchorLifespan.fresh_world) in
  match run with
  | (?r, ?w') =>
      assert (CloudAnchorLifespan.lifespan CloudAnchorLifespan.sample_respond_cancelled
                CloudAnchorLifespan.sample_format CloudAnchorLifespan.fresh_world
              = (r, w')) as Hrun by (vm_compute; reflexivity);
      destruct (lifespan_raises_what_was_raised_last
                  CloudAnchorLifespan.sample_respond_cancelled
                  CloudAnchorLifespan.sample_format
                  CloudAnchorLifespan.fresh_world w' r (Aio.calls w')
                  Hrun eq_refl) as (Hout & lines & Hlog & Herr)
  end.
  rewrite Hrun. split; [|split].
  - cbn [fst]. rewrite Hout. vm_compute. reflexivity.
  - vm_compute. reflexivity.
  - vm_compute. reflexivity.
Defined.

(** ** The gateway: route names, and the handlers that use the telemetry *)

Section RouteNameFacts.
Import Gateway GatewayApp.

(** A prefix without a slash starts a path exactly when it starts the
    first segment of the path. *)
Lemma startswith_first_segment (p path : string) :
  no_slash p = true ->
  startswith (first_segment path) p = startswith path p.
Proof.
  unfold startswith. revert path.
  induction p as [|a p IH]; intros path Hp.
  - destruct (first_segment path); destruct path; reflexivity.
  - simpl in Hp. apply andb_true_iff in Hp as [Ha Hp].
    destruct path as [|b path]; [reflexivity|]. simpl.
    destruct (Ascii.eqb b "/") eqn:Hb.
    + apply Ascii.eqb_eq in Hb. subst b. simpl.
      destruct (ascii_dec a "/") as [->|Hne]; [discriminate|reflexivity].
    + simpl. destruct (ascii_dec a b); [now apply IH|reflexivity].
Qed.

(** A prefix that starts a path starts every extension of the path. *)
Lemma startswith_app (p path rest : string) :
  startswith path p = true -> startswith (path ++ rest) p = true.
Proof.
  unfold startswith. revert path.
  induction p as [|a p IH]; intros path H.
  - now destruct (path ++ rest)%string.
  - destruct path as [|b path]; [discriminate|]. simpl in *.
    destruct (ascii_dec a b); [now apply IH|discriminate].
Qed.

(** Of two prefixes, one that starts the path and one that starts only an
    extension of it, the first starts the second. *)
Lemma startswith_extension (p q path rest : string) :
  startswith path p = true -> startswith path q = false ->
  startswith (path ++ rest) q = true -> startswith q p = true.
Proof.
  unfold startswith. revert q path.
  induction p as [|a p IH]; intros q path Hp Hq Hext.
  - now destruct q.
  - destruct path as [|b path]; [discriminate|]. simpl in Hp.
    destruct (ascii_dec a b) as [->|]; [|discriminate].
    destruct q as [|c q]; [discriminate|]. simpl in *.
    destruct (ascii_dec c b) as [->|]; [|discriminate].
    destruct (ascii_dec b b) as [_|Hne]; [|now destruct Hne].
    now apply (IH q path).
Qed.

(** The first segment has no slash and starts the path; what follows it
    is empty or begins with a slash. *)
Lemma first_segment_split (path : string) :
  no_slash (first_segment path) = true
  /\ exists rest,
       path = (first_segment path ++ rest)%string
       /\ (rest = EmptyString \/ exists more, rest = String "/" more).
Proof.
  induction path as [|c path IH]; simpl.
  - split; [reflexivity|]. exists EmptyString. auto.
  - destruct IH as (IHno & rest & IHeq & IHrest).
    destruct (Ascii.eqb c "/") eqn:Hc; simpl.
    + apply Ascii.eqb_eq in Hc. subst c.
      split; [reflexivity|]. exists (String "/" path). split; eauto.
    + rewrite Hc. split; [exact IHno|].
      exists rest. split; [|exact IHrest].
      change (String c path = String c (first_segment path ++ rest)%string).
      f_equal. exact IHeq.
Qed.

End RouteNameFacts.

(** X9. The two labels [route_api_request] hands to the telemetry agree:
    the target service depends on the first segment of the path only, the
    one the route name is built from. A path that is attributed to a
    service keeps that service however it is extended. *)
Theorem target_service_is_decided_by_the_route_name (path rest : string) :
  Gateway.target_service (GatewayApp.first_segment path)
  = Gateway.target_service path
  /\ (Gateway.target_service path <> "unknown" ->
      Gateway.target_service (path ++ rest) = Gateway.target_service path)
  /\ GatewayApp.route_name path = ("api." ++ GatewayApp.first_segment path)%string
  /\ exists tail,
       path = (GatewayApp.first_segment path ++ tail)%string
       /\ (tail = EmptyString \/ exists more, tail = String "/" more).
Proof.
  split; [|split; [|split]].
  - unfold Gateway.target_service.
    rewrite !startswith_first_segment by reflexivity. reflexivity.
  - intros Hknown. unfold Gateway.target_service in *.
    repeat lazymatch goal with
    | |- context [Gateway.startswith path ?p] =>
        let Hp := fresh "Hp" in
        destruct (Gateway.startswith path p) eqn:Hp; cbn [orb] in *;
        [ rewrite (startswith_app p path rest Hp);
          repeat match goal with
          | Hq : Gateway.startswith path ?q = false |- _ =>
              let Hext := fresh "Hext" in
              destruct (Gateway.startswith (path ++ rest) q) eqn:Hext;
              [ pose proof (startswith_extension p q path rest Hp Hq Hext) as Hc;
                vm_compute in Hc; discriminate
              | clear Hq ]
          end;
          rewrite ?orb_true_r; reflexivity
        | ]
    end.
    now destruct Hknown.
  - reflexivity.
  - apply first_segment_split.
Qed.

Section TelemetryDictFacts.
Import Py GatewayTelemetry GatewayApp.

(** What [initialize_gateway_telemetry()] returns is a dict of two
    entries, which the global then holds; it is true in an [if]. *)
Lemma initialize_gateway_telemetry_returns
    (respond : Trace GatewayTelemetry.Call -> GatewayTelemetry.Call -> result value)
    (w w' : World GatewayTelemetry.Call Telemetry) (d : list (string * value)) :
  initialize_gateway_telemetry respond w = (Return d, w') ->
  (exists route_monitor security_monitor,
      d = [("route_monitor", route_monitor);
           ("security_monitor", security_monitor)])
  /\ globals w' = Some d
  /\ telemetry_truthy (Some d) = true.
Proof.
  unfold initialize_gateway_telemetry, bind, call, assign, ret. cbn.
  match goal with
  | |- context [respond ?t NewRoutePerformanceMonitor] =>
      destruct (respond t NewRoutePerformanceMonitor) as [r|e]; cbn;
        [|intros H; discriminate H]
  end.
  match goal with
  | |- context [respond ?t NewSecurityMonitor] =>
      destruct (respond t NewSecurityMonitor) as [s|e]; cbn;
        [|intros H; discriminate H]
  end.
  intros [= <- <-]. cbn. eauto.
Qed.

(** With a global that is true in an [if], the [try] block of [/metrics]
    raises: the exception of [get_status_summary()] or of reading its
    result, or else the failed lookup on the telemetry. *)
Lemma prometheus_metrics_try_raises
    (respond : Trace GatewayApp.Call -> GatewayApp.Call -> result value)
    (env : CloudAnchorService.Env) (t : Telemetry)
    (w : World GatewayApp.Call Globals) :
  telemetry_truthy t = true ->
  exists e,
    prometheus_metrics_try respond env t w
    = (Raise e,
       {| globals := globals w;
          calls := calls w ++ [(GetStatusSummary, respond (calls w) GetStatusSummary)];
          logger := logger w |}).
Proof.
  intros Ht. unfold prometheus_metrics_try, bind, call, lift, telemetry_method, raise.
  rewrite Ht. cbn.
  destruct (respond (calls w) GetStatusSummary) as [stats|e];
    [|eexists; reflexivity].
  cbn. destruct (items stats "values") as [services|e];
    [|eexists; reflexivity].
  destruct (healthy_services services) as [healthy|e]; eexists; reflexivity.
Qed.

End TelemetryDictFacts.

(** X10. The module binds [gateway_telemetry] to the dict that
    [initialize_gateway_telemetry()] returns (the same one
    [get_gateway_telemetry()] gives afterwards). With it,
    [route_api_request] raises [AttributeError] for every path and
    request, at the lookup of [trace_route_operation] on the dict, and the
    request router is not called. Only with [None] for the telemetry
    would the handler be the router's [route_request] on [/api/] and the
    path. *)
Theorem route_api_request_fails_on_the_telemetry_dict
    (init : Py.Trace GatewayTelemetry.Call -> GatewayTelemetry.Call
            -> Py.result Py.value)
    (p p' : Py.World GatewayTelemetry.Call GatewayTelemetry.Telemetry)
    (d : list (string * Py.value))
    (respond : Py.Trace GatewayApp.Call -> GatewayApp.Call -> Py.result Py.value)
    (path : string) (request : Py.value)
    (w : Py.World GatewayApp.Call GatewayApp.Globals) :
  GatewayTelemetry.initialize_gateway_telemetry init p = (Py.Return d, p') ->
  GatewayTelemetry.get_gateway_telemetry p' = (Py.Return (Some d), p')
  /\ GatewayApp.route_api_request respond (Some d) path request w
     = (Py.Raise (Py.attribute_error (Py.VDict d) "trace_route_operation"), w)
  /\ GatewayApp.route_api_request respond None path request w
     = Py.call respond
         (GatewayApp.RouteRequest request (Gateway.full_path path)) w.
Proof.
  intros Hinit.
  destruct (initialize_gateway_telemetry_returns init p p' d Hinit)
    as (_ & Hglobal & Htruthy).
  split; [|split].
  - unfold GatewayTelemetry.get_gateway_telemetry, Py.read. now rewrite Hglobal.
  - unfold GatewayApp.route_api_request. rewrite Htruthy. reflexivity.
  - reflexivity.
Qed.

(** The theorem on the package as imported, with the two monitors of the
    sample, for a request to [/api/anchors/42]. *)
Lemma route_api_request_fails_on_the_telemetry_dict_witness :
  exists d,
    GatewayApp.route_api_request GatewayApp.sample_respond (Some d)
      "anchors/42" (Py.VObject "Request") GatewayApp.app_imported
    = (Py.Raise
         {| Py.class_of := Py.AttributeError;
            Py.str := "'dict' object has no attribute 'trace_route_operation'" |},
       GatewayApp.app_imported).
Proof.
  destruct (GatewayTelemetry.initialize_gateway_telemetry
              GatewayTelemetry.sample_respond GatewayTelemetry.package_imported)
    as [[d|e] p'] eqn:Hinit; [|vm_compute in Hinit; discriminate].
  exists d.
  destruct (route_api_request_fails_on_the_telemetry_dict
              GatewayTelemetry.sample_respond GatewayTelemetry.package_imported
              p' d GatewayApp.sample_respond "anchors/42" (Py.VObject "Request")
              GatewayApp.app_imported Hinit) as (_ & Hroute & _).
  rewrite Hroute. reflexivity.
Defined.

(** X11. With the telemetry dict the module holds, the gateway's
    [/metrics] never gives a gateway metric: whatever
    [get_status_summary()] answers, the [try] block raises, and the
    handler returns the four lines of its [except] clause, the last one
    carrying the message, and logs the failure. It does not raise, and
    calls [get_status_summary()] once. *)
Theorem gateway_metrics_always_answer_the_error_lines
    (init : Py.Trace GatewayTelemetry.Call -> GatewayTelemetry.Call
            -> Py.result Py.value)
    (p p' : Py.World GatewayTelemetry.Call GatewayTelemetry.Telemetry)
    (d : list (string * Py.value))
    (respond : Py.Trace GatewayApp.Call -> GatewayApp.Call -> Py.result Py.value)
    (env : CloudAnchorService.Env)
    (w : Py.World GatewayApp.Call GatewayApp.Globals) :
  GatewayTelemetry.initialize_gateway_telemetry init p = (Py.Return d, p') ->
  exists message,
    GatewayApp.prometheus_metrics respond env (Some d) w
    = (Py.Return (GatewayApp.error_metrics message),
       {| Py.globals := Py.globals w;
          Py.calls :=
            Py.calls w
            ++ [(GatewayApp.GetStatusSummary,
                 respond (Py.calls w) GatewayApp.GetStatusSummary)];
          Py.logger :=
            Py.logger w
            ++ [(Py.ERROR, ("Metrics generation failed: " ++ message)%string)] |}).
Proof.
  intros Hinit.
  destruct (initialize_gateway_telemetry_returns init p p' d Hinit)
    as (_ & _ & Htruthy).
  destruct (prometheus_metrics_try_raises respond env (Some d) w Htruthy)
    as [e Htry].
  exists (Py.str e).
  unfold GatewayApp.prometheus_metrics, Py.try_except. rewrite Htry.
  reflexivity.
Qed.

(** The theorem on the sample registry, two backends of which one is
    healthy: the answer is the error lines with the message of the failed
    lookup. *)
Lemma gateway_metrics_always_answer_the_error_lines_witness :
  exists d,
    (GatewayApp.prometheus_metrics GatewayApp.sample_respond
       CloudAnchorService.sample_env (Some d) GatewayApp.app_imported).1
    = Py.Return
        (GatewayApp.error_metrics
           "'dict' object has no attribute 'get_route_performance_summary'").
Proof.
  destruct (GatewayTelemetry.initialize_gateway_telemetry
              GatewayTelemetry.sample_respond GatewayTelemetry.package_imported)
    as [[d|e] p'] eqn:Hinit; [|vm_compute in Hinit; discriminate].
  exists d.
  destruct (gateway_metrics_always_answer_the_error_lines
              GatewayTelemetry.sample_respond GatewayTelemetry.package_imported
              p' d GatewayApp.sample_respond CloudAnchorService.sample_env
              GatewayApp.app_imported Hinit) as [message Hrun].
  vm_compute in Hinit. injection Hinit as <- _.
  vm_compute. reflexivity.
Defined.

(** X12. With the telemetry dict the module holds, neither telemetry
    endpoint reports anything: [/telemetry/performance] raises
    [AttributeError] at its first lookup on the dict, and
    [/telemetry/health] returns only when [framework] is false, with the
    status "error"; otherwise it raises. *)
Theorem telemetry_endpoints_never_report
    (init : Py.Trace GatewayTelemetry.Call -> GatewayTelemetry.Call
            -> Py.result Py.value)
    (p p' : Py.World GatewayTelemetry.Call GatewayTelemetry.Telemetry)
    (d : list (string * Py.value))
    (respond : Py.Trace GatewayApp.Call -> GatewayApp.Call -> Py.result Py.value)
    (framework : bool)
    (w : Py.World GatewayApp.Call GatewayApp.Globals) :
  GatewayTelemetry.initialize_gateway_telemetry init p = (Py.Return d, p') ->
  GatewayApp.get_performance_metrics (Some d) w
  = (Py.Raise (Py.attribute_error (Py.VDict d) "get_route_performance_summary"), w)
  /\ (forall answer w',
         GatewayApp.get_telemetry_health respond (Some d) framework w
         = (Py.Return answer, w') ->
         framework = false
         /\ w' = w
         /\ answer
            = Py.VDict
                [("status", Py.VStr "error");
                 ("message", Py.VStr "Observability framework not initialized")]).
Proof.
  intros Hinit.
  destruct (initialize_gateway_telemetry_returns init p p' d Hinit)
    as (_ & _ & Htruthy).
  split.
  - unfold GatewayApp.get_performance_metrics. rewrite Htruthy. reflexivity.
  - intros answer w'. unfold GatewayApp.get_telemetry_health.
    rewrite Htruthy. destruct framework; cbn.
    + unfold Py.bind, Py.call, GatewayApp.telemetry_method, Py.raise.
      destruct (respond (Py.calls w) GatewayApp.ActiveSessions); discriminate.
    + unfold Py.ret. intros [= <- <-]. auto.
Qed.

(** The theorem on the sample: [/telemetry/performance] raises. *)
Lemma telemetry_endpoints_never_report_witness :
  exists d,
    (GatewayApp.get_performance_metrics (Some d) GatewayApp.app_imported).1
    = Py.Raise
        {| Py.class_of := Py.AttributeError;
           Py.str :=
             "'dict' object has no attribute 'get_route_performance_summary'" |}.
Proof.
  destruct (GatewayTelemetry.initialize_gateway_telemetry
              GatewayTelemetry.sample_respond GatewayTelemetry.package_imported)
    as [[d|e] p'] eqn:Hinit; [|vm_compute in Hinit; discriminate].
  exists d.
  destruct (telemetry_endpoints_never_report
              GatewayTelemetry.sample_respond GatewayTelemetry.package_imported
              p' d GatewayApp.sample_respond true
              GatewayApp.app_imported Hinit) as (Hperf & _).
  rewrite Hperf. reflexivity.
Defined.

(** ** The VPS engine service *)

Section VpsFacts.
Import Py Aio VpsEngine.
Context (respond : Trace Call -> Call -> outcome value) (format : value -> string).

(** One case per answer of the next call: it returns, it raises an
    [Exception], it raises something else. *)
Ltac answer :=
  match goal with
  | |- context [respond ?t ?c] =>
      let r := fresh "r" in
      let H := fresh "H" in
      destruct (respond t c) as [r|[r|r]] eqn:H;
      cbn -[made returned raised last_raised calls_of]
  end.

(** Every run of [lifespan] from the module as imported. *)
Lemma vps_lifespan_runs (w : World Call Globals) :
  globals w = false ->
  exists r new w',
    lifespan respond format w = (r, w')
    /\ calls w' = calls w ++ new
    /\ r = match last_raised new with Some b => Raise b | None => Return tt end
    /\ made Shutdown new = returned NewVPSEngine new
    /\ (made Yield new = true ->
        calls_of new = [NewVPSEngine; Initialize; SetupMetrics; GpuCount; Yield; Shutdown]
        /\ forallb (fun x => is_return x.2) (take 4 new) = true
        /\ globals w' = true).
Proof.
  intros Hg. destruct w as [g t l]. simpl in Hg. subst g.
  unfold lifespan, try_finally, try_except, startup, shutdown, startup_failed,
    await, bind, call, log, read, assign, ret, raise.
  cbn -[made returned raised last_raised calls_of].
  repeat answer.
  all: eexists _, _, _; split; [reflexivity|]; split;
    [cbn; rewrite <- ?app_assoc; reflexivity|].
  all: repeat match goal with |- _ /\ _ => split end.
  all: try (vm_compute; reflexivity).
  all: try (intros Hy; vm_compute in Hy; discriminate).
  all: try (intros _; vm_compute; repeat split; reflexivity).
Qed.

End VpsFacts.

(** X13. The VPS [/health] handler raises exactly when a call it makes
    raises something that is no [Exception] (a [CancelledError] at the
    awaited [health_check()]): that passes the [except Exception] clause
    and nothing is logged. Otherwise it answers 200 or 503: 200 exactly
    when the engine is set, its [health_check()] returns something true
    and [settings.get_timestamp()] returns, so an engine that is healthy
    is reported with 503 when the timestamp cannot be had. An [Exception]
    of either call gives 503 with its message as the error, and one error
    record in the log. Without an engine nothing is called and the error
    is "VPS engine not ready". The global is left as it was. *)
Theorem vps_health_answers_200_iff_engine_and_clock_answer
    (respond : Aio.Trace VpsEngine.Call -> VpsEngine.Call -> Aio.outcome Py.value)
    (w : Aio.World VpsEngine.Call VpsEngine.Globals) :
  exists r new w',
    VpsEngine.health_check respond w = (r, w')
    /\ Aio.calls w' = Aio.calls w ++ new
    /\ Aio.globals w' = Aio.globals w
    /\ (forall b, r = Aio.Raise b <->
          Aio.last_raised new = Some b /\ Aio.as_exception b = None)
    /\ (forall b, r = Aio.Raise b -> Aio.logger w' = Aio.logger w)
    /\ (forall e, Aio.last_raised new = Some (Aio.Exception e) ->
          exists answer,
            r = Aio.Return answer
            /\ VpsEngine.status_code answer = 503
            /\ Py.lookup_item "error" (VpsEngine.content answer)
               = Some (Py.VStr (Py.str e))
            /\ Aio.logger w'
               = Aio.logger w
                 ++ [(Py.ERROR, ("Health check failed: " ++ Py.str e)%string)])
    /\ (forall answer, r = Aio.Return answer ->
          (VpsEngine.status_code answer = 200
           \/ VpsEngine.status_code answer = 503)
          /\ (VpsEngine.status_code answer = 200 <->
              Aio.globals w = true
              /\ exists ok timestamp,
                   respond (Aio.calls w) VpsEngine.HealthCheck = Aio.Return ok
                   /\ Py.truthy ok = true
                   /\ respond (Aio.calls w ++ [(VpsEngine.HealthCheck, Aio.Return ok)])
                        VpsEngine.GetTimestamp = Aio.Return timestamp))
    /\ (Aio.globals w = false ->
        w' = w
        /\ exists answer,
             r = Aio.Return answer
             /\ Py.lookup_item "error" (VpsEngine.content answer)
                = Some (Py.VStr "VPS engine not ready")).
Proof.
  destruct w as [g t l].
  unfold VpsEngine.health_check, VpsEngine.health_check_try,
    VpsEngine.health_check_except, Aio.try_except, Aio.bind, Aio.read, Aio.call,
    Aio.log, Aio.ret.
  cbn. destruct g; cbn.
  - destruct (respond t VpsEngine.HealthCheck) as [ok|[e|c]] eqn:Hok; cbn;
      [destruct (Py.truthy ok) eqn:Htrue; cbn;
       [destruct (respond (t ++ [(VpsEngine.HealthCheck, Aio.Return ok)])
                    VpsEngine.GetTimestamp) as [ts|[e|c]] eqn:Hts; cbn|]| |].
    all: eexists _, _, _; (split; [reflexivity|]);
      (split; [cbn; rewrite <- ?app_assoc; reflexivity|]); cbn.
    all: repeat match goal with |- _ /\ _ => split end.
    all: try reflexivity.
    all: intros.
    all: repeat match goal with
                | H : _ /\ _ |- _ => destruct H
                | H : exists _, _ |- _ => destruct H
                | H : Aio.Return _ = Aio.Return _ |- _ => injection H as H; subst
                | H : Aio.Raise _ = Aio.Raise _ |- _ => injection H as H; subst
                | H : Some _ = Some _ |- _ => injection H as H; subst
                | |- _ /\ _ => split
                | |- _ <-> _ => split; intros
                end.
    all: try discriminate; try reflexivity; try congruence; eauto 10.
  - eexists _, [], _; (split; [reflexivity|]);
      (split; [cbn; rewrite ?app_nil_r; reflexivity|]); cbn.
    repeat match goal with |- _ /\ _ => split end.
    all: try reflexivity.
    all: intros.
    all: repeat match goal with
                | H : _ /\ _ |- _ => destruct H
                | H : exists _, _ |- _ => destruct H
                | H : Aio.Return _ = Aio.Return _ |- _ => injection H as H; subst
                | |- _ /\ _ => split
                | |- _ <-> _ => split; intros
                end.
    all: try discriminate; try reflexivity; try congruence; eauto 10.
Qed.

(** X14. The VPS [/metrics] handler never gives the error lines of its
    outer [except], and it raises exactly when the engine is set and its
    awaited [get_metrics()] raises something that is no [Exception] (a
    [CancelledError]): that passes both [except Exception] clauses and
    nothing is logged. Otherwise the text is the service information,
    the availability gauge (1 exactly when the engine is set), the
    engine's lines and the timestamp. [get_metrics()] is called exactly
    when the engine is set; when it raises an [Exception], or returns
    something that is no dict, the engine's twelve lines are left out and
    a warning is logged. *)
Theorem vps_metrics_answer_unless_get_metrics_raises_past_exception
    (respond : Aio.Trace VpsEngine.Call -> VpsEngine.Call -> Aio.outcome Py.value)
    (format : Py.value -> string) (environment current_time : string)
    (w : Aio.World VpsEngine.Call VpsEngine.Globals) :
  let answer := respond (Aio.calls w) VpsEngine.GetMetrics in
  VpsEngine.prometheus_metrics respond format environment current_time w
  = (match (if Aio.globals w then Aio.passes answer else None) with
     | Some class_name => Aio.Raise (Aio.NotException class_name)
     | None =>
         Aio.Return
           (CloudAnchorService.join_lines
              (VpsEngine.info_lines environment
               ++ VpsEngine.up_lines (Aio.globals w)
               ++ (if Aio.globals w then VpsEngine.engine_lines format answer
                   else [])
               ++ VpsEngine.stamp_lines current_time))
     end,
     {| Aio.globals := Aio.globals w;
        Aio.calls :=
          Aio.calls w
          ++ (if Aio.globals w then [(VpsEngine.GetMetrics, answer)] else []);
        Aio.logger :=
          Aio.logger w
          ++ (if Aio.globals w then VpsEngine.engine_warning format answer else []) |}).
Proof.
  destruct w as [g t l]. cbv zeta.
  unfold VpsEngine.prometheus_metrics, VpsEngine.prometheus_metrics_try,
    VpsEngine.prometheus_metrics_except, Aio.try_except, Aio.bind, Aio.read,
    Aio.call, Aio.log, Aio.ret, Aio.lift, Aio.of_result, Aio.passes,
    VpsEngine.engine_lines, VpsEngine.engine_warning.
  cbn. destruct g; cbn.
  - destruct (respond t VpsEngine.GetMetrics) as [m|[e|c]]; cbn.
    + destruct (VpsEngine.engine_metric_lines format m) as [lines|e]; cbn;
        rewrite ?app_nil_r; reflexivity.
    + rewrite ?app_nil_r. reflexivity.
    + rewrite ?app_nil_r. reflexivity.
  - rewrite !app_nil_r. reflexivity.
Qed.

(** X15. The VPS [lifespan], run from the module as imported: the
    application runs (the [yield] is reached) only after the engine was
    constructed and initialized, the metrics set up and the GPU count
    read; [shutdown()] is called exactly when the constructor returned,
    also when [initialize()] raised; and what leaves [lifespan] is the
    exception raised last, none when no call raised. *)
Theorem vps_lifespan_shuts_down_a_constructed_engine
    (respond : Aio.Trace VpsEngine.Call -> VpsEngine.Call -> Aio.outcome Py.value)
    (format : Py.value -> string)
    (w w' : Aio.World VpsEngine.Call VpsEngine.Globals)
    (r : Aio.outcome unit) (new : Aio.Trace VpsEngine.Call) :
  Aio.globals w = false ->
  VpsEngine.lifespan respond format w = (r, w') ->
  Aio.calls w' = Aio.calls w ++ new ->
  Aio.made VpsEngine.Shutdown new
  = Aio.returned VpsEngine.NewVPSEngine new
  /\ r = match Aio.last_raised new with
         | Some b => Aio.Raise b
         | None => Aio.Return tt
         end
  /\ (Aio.made VpsEngine.Yield new = true ->
      Aio.calls_of new
      = [ VpsEngine.NewVPSEngine; VpsEngine.Initialize; VpsEngine.SetupMetrics;
          VpsEngine.GpuCount; VpsEngine.Yield; VpsEngine.Shutdown ]
      /\ forallb (fun x => Aio.is_return x.2) (take 4 new) = true
      /\ Aio.globals w' = true).
Proof.
  intros Hg Hrun Hcalls.
  destruct (vps_lifespan_runs respond format w Hg)
    as (r1 & new1 & w1 & Hrun1 & Hcalls1 & Hout & Hstop & Hserve).
  rewrite Hrun in Hrun1. injection Hrun1 as <- <-.
  rewrite Hcalls in Hcalls1. apply app_inv_head in Hcalls1. subst new1.
  auto.
Qed.

(** The theorem on the sample engine: a start that goes through and a
    clean stop. *)
Lemma vps_lifespan_shuts_down_a_constructed_engine_witness :
  Aio.calls_of
    (Aio.calls
       (VpsEngine.lifespan VpsEngine.sample_respond VpsEngine.sample_format
          VpsEngine.engine_unset).2)
  = [ VpsEngine.NewVPSEngine; VpsEngine.Initialize; VpsEngine.SetupMetrics;
      VpsEngine.GpuCount; VpsEngine.Yield; VpsEngine.Shutdown ]
  /\ (VpsEngine.lifespan VpsEngine.sample_respond VpsEngine.sample_format
        VpsEngine.engine_unset).1 = Aio.Return tt.
Proof.
  let run := eval vm_compute in
      (VpsEngine.lifespan VpsEngine.sample_respond VpsEngine.sample_format
         VpsEngine.engine_unset) in
  match run with
  | (?r, ?w') =>
      assert (VpsEngine.lifespan VpsEngine.sample_respond VpsEngine.sample_format
                VpsEngine.engine_unset = (r, w')) as Hrun
        by (vm_compute; reflexivity);
      destruct (vps_lifespan_shuts_down_a_constructed_engine
                  VpsEngine.sample_respond VpsEngine.sample_format
                  VpsEngine.engine_unset w' r (Aio.calls w')
                  eq_refl Hrun eq_refl) as (_ & Hout & Hserve)
  end.
  rewrite Hrun. split.
  - apply Hserve. vm_compute. reflexivity.
  - cbn [fst]. rewrite Hout. vm_compute. reflexivity.
Defined.

(** ** The meter setup *)

Section MeterFacts.
Import Py MeterSetup.
Context (respond : Trace Call -> Call -> result value).

(** One case per answer of the next call, and per class of an exception
    that an [except TypeError] clause looks at. *)
Ltac answer :=
  first
    [ match goal with
      | |- context [is_type_error ?e] =>
          is_var e; destruct e as [[] ?];
          cbn -[made returned raised raised_type_error last_raised calls_of last]
      end
    | match goal with
      | |- context [respond ?t ?c] =>
          let r := fresh "r" in
          let H := fresh "H" in
          destruct (respond t c) as [r|r] eqn:H;
          cbn -[made returned raised raised_type_error last_raised calls_of last]
      end ].

(** Every run of [setup_metrics], by the answers of the calls it makes. *)
Lemma setup_metrics_runs (metric_readers : list value) (service_name : string)
    (w : World Call unit) :
  exists r new w',
    setup_metrics respond metric_readers service_name w = (r, w')
    /\ calls w' = calls w ++ new
    /\ (* the result is the answer of the last call *)
       snd <$> last new = Some r
    /\ (* a meter comes from get_meter; an exception from the fallback *)
       (if is_return r
        then exists style, fst <$> last new = Some (GetMeter style)
        else existsb is_fallback_call (calls_of new) = true)
    /\ (* the order of the API styles *)
       made (GetMeter Positional) new = raised_type_error (GetMeter Modern) new
    /\ made (GetMeter Legacy) new = raised_type_error (GetMeter Positional) new
    /\ (* the fallback meter comes from a provider without readers *)
       (made (GetMeter Fallback) new = true ->
        exists before,
          calls_of new
          = before ++ [NewMeterProvider false; SetMeterProvider; GetMeter Fallback]
          /\ before <> []).
Proof.
  destruct w as [[] t l].
  unfold setup_metrics, setup_metrics_try, setup_metrics_except, create_meter,
    install_provider, try_except, try_except_if, bind, call, log, ret, raise.
  cbn -[made returned raised raised_type_error last_raised calls_of last].
  repeat answer.
  all: eexists _, _, _; split; [reflexivity|]; split;
    [cbn; rewrite <- ?app_assoc; reflexivity|].
  all: repeat match goal with |- _ /\ _ => split end.
  all: try (vm_compute; reflexivity).
  all: try (intros Hy; vm_compute in Hy; discriminate).
  all: try (cbn; eexists; reflexivity).
  all: try (intros _; cbn;
            first [ now exists [NewMeterProvider true]
                  | now exists [NewMeterProvider true; SetMeterProvider]
                  | now exists [NewMeterProvider true; SetMeterProvider; GetMeter Modern]
                  | now exists [NewMeterProvider true; SetMeterProvider;
                                GetMeter Modern; GetMeter Positional]
                  | now exists [NewMeterProvider true; SetMeterProvider;
                                GetMeter Modern; GetMeter Positional;
                                GetMeter Legacy] ]).
Qed.

End MeterFacts.

(** X16. [setup_metrics] raises only out of its fallback: whatever
    happens while the provider with the readers is installed and the
    meter is created is caught, and an exception leaves only when a call
    of the [except] clause raises. What it returns or raises is the
    answer of the last call it made; a returned meter is the one
    [get_meter] gave. *)
Theorem setup_metrics_raises_only_from_the_fallback
    (respond : Py.Trace MeterSetup.Call -> MeterSetup.Call -> Py.result Py.value)
    (metric_readers : list Py.value) (service_name : string)
    (w w' : Py.World MeterSetup.Call unit)
    (r : Py.result Py.value) (new : Py.Trace MeterSetup.Call) :
  MeterSetup.setup_metrics respond metric_readers service_name w = (r, w') ->
  Py.calls w' = Py.calls w ++ new ->
  snd <$> last new = Some r
  /\ (if Py.is_return r
      then exists style, fst <$> last new = Some (MeterSetup.GetMeter style)
      else existsb MeterSetup.is_fallback_call (Py.calls_of new) = true).
Proof.
  intros Hrun Hcalls.
  destruct (setup_metrics_runs respond metric_readers service_name w)
    as (r1 & new1 & w1 & Hrun1 & Hcalls1 & Hlast & Hkind & _).
  rewrite Hrun in Hrun1. injection Hrun1 as <- <-.
  rewrite Hcalls in Hcalls1. apply app_inv_head in Hcalls1. subst new1.
  auto.
Qed.

(** The theorem where the provider with readers cannot be built: the
    meter of the fallback is returned. *)
Lemma setup_metrics_raises_only_from_the_fallback_witness :
  (MeterSetup.setup_metrics MeterSetup.sample_broken_readers
     [Py.VObject "PeriodicExportingMetricReader"] "gateway"
     MeterSetup.module_imported).1
  = Py.Return (Py.VObject "Meter")
  /\ Py.calls_of
       (Py.calls
          (MeterSetup.setup_metrics MeterSetup.sample_broken_readers
             [Py.VObject "PeriodicExportingMetricReader"] "gateway"
             MeterSetup.module_imported).2)
     = [ MeterSetup.NewMeterProvider true; MeterSetup.NewMeterProvider false;
         MeterSetup.SetMeterProvider; MeterSetup.GetMeter MeterSetup.Fallback ].
Proof.
  let run := eval vm_compute in
      (MeterSetup.setup_metrics MeterSetup.sample_broken_readers
         [Py.VObject "PeriodicExportingMetricReader"] "gateway"
         MeterSetup.module_imported) in
  match run with
  | (?r, ?w') =>
      assert (MeterSetup.setup_metrics MeterSetup.sample_broken_readers
                [Py.VObject "PeriodicExportingMetricReader"] "gateway"
                MeterSetup.module_imported = (r, w')) as Hrun
        by (vm_compute; reflexivity);
      destruct (setup_metrics_raises_only_from_the_fallback
                  MeterSetup.sample_broken_readers
                  [Py.VObject "PeriodicExportingMetricReader"] "gateway"
                  MeterSetup.module_imported w' r (Py.calls w')
                  Hrun eq_refl) as (Hlast & _)
  end.
  rewrite Hrun. split.
  - cbn [fst]. reflexivity.
  - vm_compute. reflexivity.
Defined.

(** X17. [setup_metrics] tries the ways of calling [get_meter] in one
    order: with two positional arguments exactly when the call with
    keyword arguments raised a [TypeError], with the name alone exactly
    when the positional call raised a [TypeError] too. Any other
    exception ends the attempts. The meter of the fallback is asked for
    only after a provider without metric readers has been built and
    set. *)
Theorem setup_metrics_tries_the_api_styles_in_order
    (respond : Py.Trace MeterSetup.Call -> MeterSetup.Call -> Py.result Py.value)
    (metric_readers : list Py.value) (service_name : string)
    (w w' : Py.World MeterSetup.Call unit)
    (r : Py.result Py.value) (new : Py.Trace MeterSetup.Call) :
  MeterSetup.setup_metrics respond metric_readers service_name w = (r, w') ->
  Py.calls w' = Py.calls w ++ new ->
  Py.made (MeterSetup.GetMeter MeterSetup.Positional) new
  = MeterSetup.raised_type_error (MeterSetup.GetMeter MeterSetup.Modern) new
  /\ Py.made (MeterSetup.GetMeter MeterSetup.Legacy) new
     = MeterSetup.raised_type_error (MeterSetup.GetMeter MeterSetup.Positional) new
  /\ (Py.made (MeterSetup.GetMeter MeterSetup.Fallback) new = true ->
      exists before,
        Py.calls_of new
        = before ++ [ MeterSetup.NewMeterProvider false;
                      MeterSetup.SetMeterProvider;
                      MeterSetup.GetMeter MeterSetup.Fallback ]
        /\ before <> []).
Proof.
  intros Hrun Hcalls.
  destruct (setup_metrics_runs respond metric_readers service_name w)
    as (r1 & new1 & w1 & Hrun1 & Hcalls1 & _ & _ & Hpos & Hleg & Hfb).
  rewrite Hrun in Hrun1. injection Hrun1 as <- <-.
  rewrite Hcalls in Hcalls1. apply app_inv_head in Hcalls1. subst new1.
  auto.
Qed.

(** The theorem on an OpenTelemetry whose [get_meter] takes the name
    only: the three styles are tried in turn and the legacy call gives
    the meter. *)
Lemma setup_metrics_tries_the_api_styles_in_order_witness :
  Py.calls_of
    (Py.calls
       (MeterSetup.setup_metrics MeterSetup.sample_legacy [] "gateway"
          MeterSetup.module_imported).2)
  = [ MeterSetup.NewMeterProvider true; MeterSetup.SetMeterProvider;
      MeterSetup.GetMeter MeterSetup.Modern;
      MeterSetup.GetMeter MeterSetup.Positional;
      MeterSetup.GetMeter MeterSetup.Legacy ]
  /\ Py.made (MeterSetup.GetMeter MeterSetup.Legacy)
       (Py.calls
          (MeterSetup.setup_metrics MeterSetup.sample_legacy [] "gateway"
             MeterSetup.module_imported).2)
     = true.
Proof.
  let run := eval vm_compute in
      (MeterSetup.setup_metrics MeterSetup.sample_legacy [] "gateway"
         MeterSetup.module_imported) in
  match run with
  | (?r, ?w') =>
      assert (MeterSetup.setup_metrics MeterSetup.sample_legacy [] "gateway"
                MeterSetup.module_imported = (r, w')) as Hrun
        by (vm_compute; reflexivity);
      destruct (setup_metrics_tries_the_api_styles_in_order
                  MeterSetup.sample_legacy [] "gateway"
                  MeterSetup.module_imported w' r (Py.calls w')
                  Hrun eq_refl) as (_ & Hleg & _)
  end.
  rewrite Hrun. split.
  - vm_compute. reflexivity.
  - cbn [snd]. rewrite Hleg. vm_compute. reflexivity.
Defined.

(** ** The localization routes *)

Section LocalizationFacts.
Import Py LocalizationRoutes.
Context (respond : Trace Call -> Call -> result value)
        (http_str : nat -> string -> string)
        (format : value -> string)
        (subscript_message : value -> string).

(** One case per answer of the next call, per result of the next lookup
    and per outcome of the next test. *)
Ltac step :=
  first
    [ match goal with
      | |- context [respond ?t ?c] =>
          let r := fresh "r" in
          let H := fresh "H" in
          destruct (respond t c) as [r|r] eqn:H
      end
    | match goal with
      | |- context [get ?v ?k ?d] =>
          let r := fresh "g" in
          let H := fresh "Hg" in
          destruct (get v k d) as [r|r] eqn:H
      end
    | match goal with
      | |- context [getitem ?m ?v ?k] =>
          let r := fresh "i" in
          let H := fresh "Hi" in
          destruct (getitem m v k) as [r|r] eqn:H
      end
    | match goal with
      | |- context [truthy ?v] =>
          let H := fresh "Ht" in
          destruct (truthy v) eqn:H
      end ];
  cbn -[kinds_of calls_of last].

(** X20. [/vio/process] answers with a [VioResponse] whatever the tracker
    does: what it returns or raises is what the last call it makes, the
    construction of a [VioResponse], returns or raises, so an exception
    leaves the handler only when that construction fails. When
    [process_sensor_data] raises, the response is built from the fields
    of the [except] clause: no success, the message "VIO error: " and
    [str(e)], the tracking state "error". The pose manager is updated
    exactly when the tracker returned a result whose [get('success')] is
    true. *)
Theorem vio_process_answers_with_a_vio_response (request : VioDataRequest) (w : World Call unit) :
  exists r new fields w',
    process_vio_data respond subscript_message request w = (r, w')
    /\ calls w' = calls w ++ new
    /\ last new = Some (NewVioResponse fields, r)
    /\ (bool_decide (KPoseUpdateVioPose ∈ kinds_of new) = true <->
        exists result ok,
          respond (calls w)
            (VioProcessSensorData
               (VList (imu_reading_dict <$> imu_readings request))
               (camera_frame_base64 request)
               (camera_params_dict (camera_params request))
               (timestamp request)) = Return result
          /\ get result "success" VNone = Return ok
          /\ truthy ok = true)
    /\ (forall e,
          respond (calls w)
            (VioProcessSensorData
               (VList (imu_reading_dict <$> imu_readings request))
               (camera_frame_base64 request)
               (camera_params_dict (camera_params request))
               (timestamp request)) = Raise e ->
          fields = vio_error_fields e).
Proof.
  destruct w as [[] t l].
  unfold process_vio_data, process_vio_data_try, process_vio_data_except,
    try_except, bind, call, log, ret, raise, lift.
  cbn -[kinds_of calls_of last].
  repeat step.
  all: eexists _, _, _, _; split; [reflexivity|]; split;
    [cbn; rewrite <- ?app_assoc; reflexivity|].
  all: split; [cbn; reflexivity|].
  all: split; [|intros e' He'; try discriminate He'; try (injection He' as <-); reflexivity].
  all: split;
    [ intros Hin; vm_compute in Hin; try discriminate Hin; eauto
    | intros (result & ok & Hres & Hget & Hok); try discriminate Hres;
      injection Hres as <-; try congruence;
      try (vm_compute; reflexivity) ].
Qed.


End LocalizationFacts.

(** ** The localization routes: [/slam/track] *)

Section TrackingFacts.
Import Py Aio LocalizationRoutes.
Context (respond : Aio.Trace Call -> Call -> outcome value)
        (http_str : nat -> string -> string)
        (subscript_message : value -> string).



End TrackingFacts.

(** X21. [/slam/init] reports a map it could not load: when
    [slam_tracker.load_map] returns something false for the requested
    map, the handler still answers success with [map_loaded] set to that
    map id; the failure is only a warning in the log. *)
Theorem slam_init_reports_a_map_it_could_not_load
    (respond : Py.Trace LocalizationRoutes.Call -> LocalizationRoutes.Call
               -> Py.result Py.value)
    (http_str : nat -> string -> string) (format : Py.value -> string)
    (request : LocalizationRoutes.SlamInitRequest)
    (w : Py.World LocalizationRoutes.Call unit) (ok loaded : Py.value) :
  let init :=
    LocalizationRoutes.SlamInitialize
      (LocalizationRoutes.camera_config_dict
         (LocalizationRoutes.camera_config request)) in
  let load := LocalizationRoutes.SlamLoadMap (LocalizationRoutes.map_id request) in
  Py.truthy (LocalizationRoutes.map_id request) = true ->
  respond (Py.calls w) init = Py.Return ok ->
  Py.truthy ok = true ->
  respond (Py.calls w ++ [(init, Py.Return ok)]) load = Py.Return loaded ->
  Py.truthy loaded = false ->
  LocalizationRoutes.initialize_slam respond http_str format request w
  = (Py.Return
       (Py.VDict [ ("success", Py.VBool true);
                   ("message", Py.VStr "SLAM initialized");
                   ("map_loaded", LocalizationRoutes.map_id request) ]),
     {| Py.globals := Py.globals w;
        Py.calls :=
          Py.calls w ++ [(init, Py.Return ok); (load, Py.Return loaded)];
        Py.logger :=
          Py.logger w
          ++ [(Py.WARNING,
               ("Could not load map: "
                ++ format (LocalizationRoutes.map_id request))%string)] |}).
Proof.
  intros init load Hmap Hinit Hok Hload Hloaded. subst init load.
  destruct w as [[] t l]. cbn in *.
  unfold LocalizationRoutes.initialize_slam, LocalizationRoutes.initialize_slam_try,
    Py.try_except, Py.bind, Py.call, Py.log, Py.ret, Py.raise.
  cbn. rewrite Hinit. cbn. rewrite Hok. cbn. rewrite Hmap. cbn.
  rewrite Hload. cbn. rewrite Hloaded. cbn.
  rewrite <- app_assoc. reflexivity.
Qed.

(** The theorem on the sample tracker, which initializes and cannot load
    the map "atrium". *)
Lemma slam_init_reports_a_map_it_could_not_load_witness :
  (LocalizationRoutes.initialize_slam LocalizationRoutes.sample_respond
     LocalizationRoutes.sample_http_str LocalizationRoutes.sample_format
     LocalizationRoutes.sample_init_request LocalizationRoutes.routes_set_up).1
  = Py.Return
      (Py.VDict [ ("success", Py.VBool true);
                  ("message", Py.VStr "SLAM initialized");
                  ("map_loaded", Py.VStr "atrium") ]).
Proof.
  rewrite (slam_init_reports_a_map_it_could_not_load
             LocalizationRoutes.sample_respond
             LocalizationRoutes.sample_http_str LocalizationRoutes.sample_format
             LocalizationRoutes.sample_init_request
             LocalizationRoutes.routes_set_up
             (Py.VBool true) (Py.VBool false)
             eq_refl eq_refl eq_refl eq_refl eq_refl).
  reflexivity.
Defined.

(** X22. [/pose/reset] does not look at what [vio_tracker.reset()]
    returns: when its three calls (pose manager, SLAM tracker, VIO
    tracker, in this order) return, it answers success, also for a result
    of the VIO reset that is false, the very result for which
    [/vio/reset] raises an [HTTPException] with status 500. *)
Theorem pose_reset_ignores_a_failed_vio_reset
    (respond : Py.Trace LocalizationRoutes.Call -> LocalizationRoutes.Call
               -> Py.result Py.value)
    (http_str : nat -> string -> string)
    (w v : Py.World LocalizationRoutes.Call unit)
    (pose_reset slam_stopped failed : Py.value) :
  respond (Py.calls w) LocalizationRoutes.PoseResetTracking
  = Py.Return pose_reset ->
  respond (Py.calls w ++ [(LocalizationRoutes.PoseResetTracking, Py.Return pose_reset)])
    LocalizationRoutes.SlamStopTracking = Py.Return slam_stopped ->
  respond (Py.calls w
           ++ [(LocalizationRoutes.PoseResetTracking, Py.Return pose_reset);
               (LocalizationRoutes.SlamStopTracking, Py.Return slam_stopped)])
    LocalizationRoutes.VioReset = Py.Return failed ->
  respond (Py.calls v) LocalizationRoutes.VioReset = Py.Return failed ->
  Py.truthy failed = false ->
  LocalizationRoutes.reset_tracking respond w
  = (Py.Return (Py.VDict [ ("success", Py.VBool true);
                           ("message", Py.VStr "All tracking reset") ]),
     {| Py.globals := Py.globals w;
        Py.calls :=
          Py.calls w
          ++ [(LocalizationRoutes.PoseResetTracking, Py.Return pose_reset);
              (LocalizationRoutes.SlamStopTracking, Py.Return slam_stopped);
              (LocalizationRoutes.VioReset, Py.Return failed)];
        Py.logger := Py.logger w |})
  /\ (LocalizationRoutes.reset_vio respond http_str v).1
     = Py.Raise (LocalizationRoutes.http_exception http_str 500 "VIO reset failed").
Proof.
  intros Hpose Hslam Hvio Hvio' Hfailed.
  destruct w as [[] t l], v as [[] t' l']. cbn in *.
  unfold LocalizationRoutes.reset_tracking, LocalizationRoutes.reset_vio,
    Py.bind, Py.call, Py.ret, Py.raise.
  cbn. rewrite Hpose. cbn. rewrite Hslam. cbn.
  rewrite <- !app_assoc. cbn. rewrite Hvio. cbn. rewrite Hvio'. cbn.
  rewrite Hfailed. cbn. split; reflexivity.
Qed.

(** The theorem on the sample trackers, whose VIO reset returns [False]. *)
Lemma pose_reset_ignores_a_failed_vio_reset_witness :
  (LocalizationRoutes.reset_tracking LocalizationRoutes.sample_respond
     LocalizationRoutes.routes_set_up).1
  = Py.Return (Py.VDict [ ("success", Py.VBool true);
                          ("message", Py.VStr "All tracking reset") ])
  /\ (LocalizationRoutes.reset_vio LocalizationRoutes.sample_respond
        LocalizationRoutes.sample_http_str LocalizationRoutes.routes_set_up).1
     = Py.Raise (LocalizationRoutes.http_exception
                   LocalizationRoutes.sample_http_str 500 "VIO reset failed").
Proof.
  destruct (pose_reset_ignores_a_failed_vio_reset
              LocalizationRoutes.sample_respond LocalizationRoutes.sample_http_str
              LocalizationRoutes.routes_set_up LocalizationRoutes.routes_set_up
              Py.VNone Py.VNone (Py.VBool false)
              eq_refl eq_refl eq_refl eq_refl eq_refl) as [Hreset Hvio].
  rewrite Hreset. split; [reflexivity | exact Hvio].
Defined.

(** X23. The localization [/metrics] never raises. When the lines of the
    trackers and the pose manager can be built, the answer is those
    lines, the lines of the Nakama block and the timestamp: the Nakama
    block never fails the endpoint and logs nothing; it gives either the
    three lines of its gauge or, after any exception, the single line
    [spatial_nakama_connected 0]. When building the tracker lines
    raises, the answer is the four error lines with [str(e)], and the
    failure is logged. *)
Theorem localization_metrics_never_raise
    (respond : Py.Trace LocalizationRoutes.Call -> LocalizationRoutes.Call
               -> Py.result Py.value)
    (format : Py.value -> string) (env : CloudAnchorService.Env)
    (nakama_has_connection_status : bool)
    (seconds_text : Py.value -> Py.result string)
    (within_60fps : Py.value -> Py.result bool)
    (w : Py.World LocalizationRoutes.Call unit) :
  match
    LocalizationRoutes.tracking_lines respond format env seconds_text
      within_60fps w
  with
  | (Py.Return tracking, w1) =>
      exists nakama w',
        LocalizationRoutes.nakama_lines respond nakama_has_connection_status w1
        = (Py.Return nakama, w')
        /\ Py.logger w' = Py.logger w1
        /\ (nakama = ["spatial_nakama_connected 0"%string]
            \/ exists connected,
                 nakama
                 = CloudAnchorService.metric_lines "spatial_nakama_connected"
                     "Nakama multiplayer connection status" "gauge"
                     (LocalizationRoutes.flag connected))
        /\ LocalizationRoutes.prometheus_metrics respond format env
             nakama_has_connection_status seconds_text within_60fps w
           = (Py.Return
                (CloudAnchorService.join_lines
                   (tracking ++ nakama ++ LocalizationRoutes.stamp_lines env)),
              w')
  | (Py.Raise e, w1) =>
      LocalizationRoutes.prometheus_metrics respond format env
        nakama_has_connection_status seconds_text within_60fps w
      = (Py.Return (LocalizationRoutes.error_metrics (Py.str e)),
         {| Py.globals := Py.globals w1;
            Py.calls := Py.calls w1;
            Py.logger :=
              Py.logger w1
              ++ [(Py.ERROR, ("Metrics generation failed: " ++ Py.str e)%string)] |})
  end.
Proof.
  destruct (LocalizationRoutes.tracking_lines respond format env seconds_text
              within_60fps w) as [[tracking|e] w1] eqn:Htracking.
  2: { unfold LocalizationRoutes.prometheus_metrics,
         LocalizationRoutes.prometheus_metrics_try,
         LocalizationRoutes.prometheus_metrics_except, Py.try_except, Py.bind.
       rewrite Htracking. reflexivity. }
  assert (exists nakama w',
             LocalizationRoutes.nakama_lines respond nakama_has_connection_status w1
             = (Py.Return nakama, w')
             /\ Py.logger w' = Py.logger w1
             /\ (nakama = ["spatial_nakama_connected 0"%string]
                 \/ exists connected,
                      nakama
                      = CloudAnchorService.metric_lines "spatial_nakama_connected"
                          "Nakama multiplayer connection status" "gauge"
                          (LocalizationRoutes.flag connected)))
    as (nakama & w' & Hrun & Hlog & Hshape).
  { unfold LocalizationRoutes.nakama_lines, Py.try_except, Py.bind, Py.call,
      Py.lift, Py.ret.
    destruct nakama_has_connection_status; cbn.
    - destruct (respond (Py.calls w1) LocalizationRoutes.NakamaGetConnectionStatus)
        as [status|e]; cbn.
      + destruct (Py.get status "connected" (Py.VBool false)) as [c|e]; cbn;
          eexists _, _; (split; [reflexivity|]); (split; [reflexivity|]);
          [right; exists c; reflexivity | left; reflexivity].
      + eexists _, _; (split; [reflexivity|]); (split; [reflexivity|]).
        left; reflexivity.
    - eexists _, _; (split; [reflexivity|]); (split; [reflexivity|]).
      right; exists (Py.VBool true); reflexivity. }
  exists nakama, w'. repeat split; auto.
  unfold LocalizationRoutes.prometheus_metrics,
    LocalizationRoutes.prometheus_metrics_try,
    LocalizationRoutes.prometheus_metrics_except, Py.try_except, Py.bind.
  rewrite Htracking, Hrun. reflexivity.
Qed.

(** ** The mapping pipeline *)

Section MappingFacts.
Import Py MappingPipeline.
Context (respond : Trace Call -> Call -> result value).

(** One registration statement: what it binds, and what it raises. *)
Lemma register_run (m : Metric) (w : World Call Globals) :
  exists r new w',
    register respond m w = (r, w')
    /\ calls w' = calls w ++ new
    /\ match r with
       | Return _ =>
           exists collector,
             globals w' = globals w ++ [(m, collector)]
             /\ ((NewCollector (metric_name m), Return collector) ∈ new
                 \/ (RegisteredCollector (metric_name m), Return collector) ∈ new)
       | Raise e =>
           globals w' = globals w /\ snd <$> last new = Some (Raise e)
       end.
Proof.
  destruct w as [g t l].
  unfold register, try_except_if, bind, call, assign, ret. cbn.
  destruct (respond t (NewCollector (metric_name m))) as [c|e] eqn:Hnew; cbn.
  - eexists _, _, _; split; [reflexivity|]; split; [reflexivity|].
    exists c. split; [reflexivity|]. left. apply list_elem_of_here.
  - destruct (is_value_error e) eqn:Hve; cbn.
    + destruct (respond _ (RegisteredCollector (metric_name m))) as [c|e'] eqn:Hreg;
        cbn; eexists _, _, _; (split; [reflexivity|]);
        (split; [rewrite <- app_assoc; reflexivity|]).
      * exists c. split; [reflexivity|]. right.
        apply list_elem_of_further, list_elem_of_here.
      * split; reflexivity.
    + eexists _, _, _; split; [reflexivity|]; split; [reflexivity|].
      split; reflexivity.
Qed.

(** The statements of a list of collectors. *)
Lemma register_all_run (ms : list Metric) (w : World Call Globals) :
  exists r new bound w',
    register_all respond ms w = (r, w')
    /\ calls w' = calls w ++ new
    /\ globals w' = globals w ++ bound
    /\ bound.*1 `prefix_of` ms
    /\ (is_return r = true <-> bound.*1 = ms)
    /\ (forall e, r = Raise e -> snd <$> last new = Some (Raise e))
    /\ Forall (fun b =>
                 (NewCollector (metric_name b.1), Return b.2) ∈ new
                 \/ (RegisteredCollector (metric_name b.1), Return b.2) ∈ new)
         bound.
Proof.
  revert w. induction ms as [|m rest IH]; intros w.
  - exists (Return tt), [], [], w. cbn. rewrite !app_nil_r.
    repeat split; try reflexivity; try constructor. discriminate.
  - destruct (register_run m w)
      as (r1 & new1 & w1 & Hrun1 & Hcalls1 & Hout1).
    cbn [register_all]. unfold bind at 1. rewrite Hrun1.
    destruct r1 as [[]|e].
    + destruct Hout1 as (c & Hglobals1 & Hin1).
      destruct (IH w1) as (r & new & bound & w' & Hrun & Hcalls & Hglobals
                            & Hprefix & Hall & Hraise & Hbound).
      exists r, (new1 ++ new), ((m, c) :: bound), w'.
      split; [exact Hrun|].
      split; [rewrite Hcalls, Hcalls1, app_assoc; reflexivity|].
      split; [rewrite Hglobals, Hglobals1, <- app_assoc; reflexivity|].
      split; [cbn; now apply prefix_cons|].
      split; [cbn; rewrite Hall; split; [now intros -> | now intros [= ->]]|].
      split.
      * intros e He. specialize (Hraise e He).
        destruct new as [|x new] using rev_ind; [discriminate|].
        rewrite app_assoc, last_snoc. now rewrite last_snoc in Hraise.
      * constructor.
        -- cbn. rewrite !elem_of_app. tauto.
        -- eapply Forall_impl; [exact Hbound|]. cbn. intros b.
           rewrite !elem_of_app. tauto.
    + destruct Hout1 as (Hglobals1 & Hlast1).
      exists (Raise e), new1, [], w1.
      split; [reflexivity|]. split; [exact Hcalls1|].
      split; [now rewrite app_nil_r|].
      split; [apply prefix_nil|].
      split; [cbn; split; discriminate|].
      split; [now intros e' [= <-]|constructor].
Qed.

(** The seven statements of the module are the statements of the list. *)
Lemma register_metrics_all (w : World Call Globals) :
  register_metrics respond w = register_all respond metrics_in_order w.
Proof.
  unfold register_metrics, metrics_in_order. cbn [register_all].
  unfold bind.
  repeat match goal with
         | |- context [register respond ?m ?w] =>
             destruct (register respond m w) as [[[]|?] ?]; try reflexivity
         end.
Qed.

End MappingFacts.

(** X24. One registration statement of the mapping module consults the
    registry exactly when the constructor of the collector raised a
    [ValueError]. When the statement completes, the variable is bound to
    the collector that the constructor, or else the registry, gave; when
    it raises (any other exception of the constructor, or an exception of
    the registry lookup), nothing is bound and the exception is the one
    of the last call. *)
Theorem register_consults_the_registry_on_value_error
    (respond : Py.Trace MappingPipeline.Call -> MappingPipeline.Call
               -> Py.result Py.value)
    (m : MappingPipeline.Metric)
    (w : Py.World MappingPipeline.Call MappingPipeline.Globals) :
  exists r new w',
    MappingPipeline.register respond m w = (r, w')
    /\ Py.calls w' = Py.calls w ++ new
    /\ Py.made (MappingPipeline.RegisteredCollector (MappingPipeline.metric_name m)) new
       = MappingPipeline.raised_value_error
           (MappingPipeline.NewCollector (MappingPipeline.metric_name m)) new
    /\ Py.made (MappingPipeline.NewCollector (MappingPipeline.metric_name m)) new
       = true
    /\ match r with
       | Py.Return _ =>
           exists collector,
             Py.globals w' = Py.globals w ++ [(m, collector)]
             /\ ((MappingPipeline.NewCollector (MappingPipeline.metric_name m),
                  Py.Return collector) ∈ new
                 \/ (MappingPipeline.RegisteredCollector
                       (MappingPipeline.metric_name m),
                     Py.Return collector) ∈ new)
       | Py.Raise e =>
           Py.globals w' = Py.globals w /\ snd <$> last new = Some (Py.Raise e)
       end.
Proof.
  destruct w as [g t l].
  assert (bool_decide (MappingPipeline.NewCollector (MappingPipeline.metric_name m) = MappingPipeline.NewCollector (MappingPipeline.metric_name m))
          = true) as Hnn by now apply bool_decide_eq_true_2.
  assert (bool_decide (MappingPipeline.RegisteredCollector (MappingPipeline.metric_name m)
                       = MappingPipeline.RegisteredCollector (MappingPipeline.metric_name m)) = true)
    as Hrr by now apply bool_decide_eq_true_2.
  assert (bool_decide (MappingPipeline.NewCollector (MappingPipeline.metric_name m)
                       = MappingPipeline.RegisteredCollector (MappingPipeline.metric_name m)) = false)
    as Hnr by now apply bool_decide_eq_false_2.
  assert (bool_decide (MappingPipeline.RegisteredCollector (MappingPipeline.metric_name m)
                       = MappingPipeline.NewCollector (MappingPipeline.metric_name m)) = false)
    as Hrn by now apply bool_decide_eq_false_2.
  unfold MappingPipeline.register, Py.try_except_if, Py.bind, Py.call, Py.assign, Py.ret. cbn.
  destruct (respond t (MappingPipeline.NewCollector (MappingPipeline.metric_name m))) as [c|e] eqn:Hnew; cbn.
  - eexists _, _, _; split; [reflexivity|]; split; [reflexivity|].
    unfold Py.made, MappingPipeline.raised_value_error. cbn. rewrite ?Hnn, ?Hrr, ?Hnr, ?Hrn. cbn.
    repeat split; try reflexivity.
    exists c. split; [reflexivity|]. left. apply list_elem_of_here.
  - destruct (Py.is_value_error e) eqn:Hve; cbn.
    + destruct (respond _ (MappingPipeline.RegisteredCollector (MappingPipeline.metric_name m))) as [c|e'] eqn:Hreg;
        cbn; eexists _, _, _; (split; [reflexivity|]);
        (split; [rewrite <- app_assoc; reflexivity|]);
        unfold Py.made, MappingPipeline.raised_value_error; cbn;
        rewrite ?Hnn, ?Hrr, ?Hnr, ?Hrn, ?Hve; cbn;
        repeat split; try reflexivity.
      exists c. split; [reflexivity|]. right.
      apply list_elem_of_further, list_elem_of_here.
    + eexists _, _, _; split; [reflexivity|]; split; [reflexivity|].
      unfold Py.made, MappingPipeline.raised_value_error. cbn.
      rewrite ?Hnn, ?Hrr, ?Hnr, ?Hrn, ?Hve. cbn.
      repeat split; reflexivity.
Qed.

(** X25. The import of the mapping module binds its seven collectors in
    the order of the source and stops at the first statement that
    raises: the variables bound are the first ones of the list, all seven
    exactly when the registration returns. Each is bound to what the
    constructor or the registry lookup of its own name returned. An
    exception that leaves is the one of the last call made. *)
Theorem mapping_import_binds_the_collectors_in_order
    (respond : Py.Trace MappingPipeline.Call -> MappingPipeline.Call
               -> Py.result Py.value)
    (w w' : Py.World MappingPipeline.Call MappingPipeline.Globals)
    (r : Py.result unit) (new : Py.Trace MappingPipeline.Call)
    (bound : MappingPipeline.Globals) :
  MappingPipeline.register_metrics respond w = (r, w') ->
  Py.calls w' = Py.calls w ++ new ->
  Py.globals w' = Py.globals w ++ bound ->
  bound.*1 `prefix_of` MappingPipeline.metrics_in_order
  /\ (Py.is_return r = true <-> bound.*1 = MappingPipeline.metrics_in_order)
  /\ (forall e, r = Py.Raise e -> snd <$> last new = Some (Py.Raise e))
  /\ Forall (fun b =>
               (MappingPipeline.NewCollector (MappingPipeline.metric_name b.1),
                Py.Return b.2) ∈ new
               \/ (MappingPipeline.RegisteredCollector
                     (MappingPipeline.metric_name b.1),
                   Py.Return b.2) ∈ new)
       bound.
Proof.
  intros Hrun Hcalls Hglobals.
  destruct (register_all_run respond MappingPipeline.metrics_in_order w)
    as (r1 & new1 & bound1 & w1 & Hrun1 & Hcalls1 & Hglobals1 & Hfacts).
  rewrite <- register_metrics_all, Hrun in Hrun1. injection Hrun1 as <- <-.
  rewrite Hcalls in Hcalls1. apply app_inv_head in Hcalls1. subst new1.
  rewrite Hglobals in Hglobals1. apply app_inv_head in Hglobals1. subst bound1.
  exact Hfacts.
Qed.

(** The theorem on a second import in one process: every constructor
    raises [ValueError], every variable is bound to the registered
    collector. *)
Lemma mapping_import_binds_the_collectors_in_order_witness :
  (MappingPipeline.register_metrics MappingPipeline.sample_reimport
     MappingPipeline.before_import).1 = Py.Return tt
  /\ (Py.globals
        (MappingPipeline.register_metrics MappingPipeline.sample_reimport
           MappingPipeline.before_import).2).*1
     = MappingPipeline.metrics_in_order.
Proof.
  let run := eval vm_compute in
      (MappingPipeline.register_metrics MappingPipeline.sample_reimport
         MappingPipeline.before_import) in
  match run with
  | (?r, ?w') =>
      assert (MappingPipeline.register_metrics MappingPipeline.sample_reimport
                MappingPipeline.before_import = (r, w')) as Hrun
        by (vm_compute; reflexivity);
      destruct (mapping_import_binds_the_collectors_in_order
                  MappingPipeline.sample_reimport
                  MappingPipeline.before_import w' r (Py.calls w') (Py.globals w')
                  Hrun eq_refl eq_refl) as (_ & Hall & _)
  end.
  rewrite Hrun. split; [reflexivity|].
  apply Hall. reflexivity.
Defined.

Section MappingEndpointFacts.
Import Py MappingPipeline.
Context (respond : Trace Call -> Call -> result value).

Ltac answer :=
  match goal with
  | |- context [respond ?t ?c] =>
      let r := fresh "r" in
      let H := fresh "H" in
      destruct (respond t c) as [r|r] eqn:H;
      cbn -[made returned raised last_raised calls_of last]
  end.


End MappingEndpointFacts.
